(** * A shallow embedding of the Widevine CDM device engine

    Source: [vinetrimmer/utils/widevine/device.py] (class [LocalDevice] with
    the [WidevineDeviceStruct] binary layout, and class [RemoteDevice]) and
    the sibling key derivation of [scripts/Provision.py].

    Python values are modelled as follows.
    - [bytes] objects are lists of [byte]; [str] objects are [string].
    - An attribute that may hold [None] is an [option]; protobuf message
      objects and [RsaKey] objects define neither [__bool__] nor [__len__],
      hence [not x] on such an attribute is exactly the test [x is None].
    - A [dict] is a [gmap]; a Python [list] is a [list].
    - A method that mutates its [session] argument is a state transformer
      over the session record.  A raised exception leaves the assignments
      made before it in place, which is what the state-and-exception monad
      [M] below does.
    - The libraries the module imports (Cryptodome, the generated protobuf
      classes, base64, the optional cdmapi extension) are interfaces: type
      classes whose members are the calls the source makes. *)

From Stdlib Require Import ZArith Lia List Strings.String Strings.Byte.
From stdpp Require Import base option list gmap strings.

Local Open Scope Z_scope.

(** ** Bytes *)

Abbreviation bytes := (list byte).

#[global] Instance byte_eq_dec : EqDecision byte := Byte.byte_eq_dec.

(** [b"..."] literals restricted to ASCII text. *)
Definition lit (s : string) : bytes := String.list_byte_of_string s.

(** [len(x)] as a Python integer. *)
Definition len (x : bytes) : Z := Z.of_nat (length x).

(** [needle in hay] on two [bytes] objects: a contiguous occurrence. *)
Definition occurs_in (needle hay : bytes) : Prop :=
  ∃ pre post, hay = pre ++ needle ++ post.

Fixpoint starts_with (needle hay : bytes) : bool :=
  match needle, hay with
  | [], _ => true
  | _ :: _, [] => false
  | x :: needle', y :: hay' => bool_decide (x = y) && starts_with needle' hay'
  end.

Fixpoint contains (hay needle : bytes) : bool :=
  starts_with needle hay ||
  match hay with
  | [] => false
  | _ :: hay' => contains hay' needle
  end.

(** Truth value of an attribute that is either [None] or an object without
    [__bool__]/[__len__]. *)
Definition truthy {A} (o : option A) : bool :=
  match o with Some _ => true | None => false end.

(** Truth value of a [bytes] object. *)
Definition nonempty (x : bytes) : bool :=
  match x with [] => false | _ :: _ => true end.

(** ** Exceptions

    Every [raise] of [device.py] is a [ValueError]; the constructors below
    name them after the condition they report.  [LibraryError] is any
    exception that escapes from a library call. *)

Inductive exception :=
| MalformedCertificate (layer : string)
    (* "Certificate could not be parsed as a SignedMessage" /
       "Certificate's message could not be parsed as a SignedDeviceCertificate" *)
| MissingIdentity
    (* "No client identification blob is available for this device." *)
| MissingSigningCapability
    (* "No device private key is available for this device and cdmapi is not installed." *)
| MissingCertificate
    (* "Missing signed_device_certificate" *)
| NoPendingRequest
    (* "No license request for the session was created. Create one first." *)
| MalformedResponse (license_res : bytes)
    (* f"Failed to parse license_res {license_res!r} as SignedLicense" *)
| SignatureMismatch
    (* "SignedLicense Signature doesn't match its Message" *)
| MalformedDevice (field : string)
    (* "client_id could not be parsed as a ClientIdentification" /
       "Verified Media Path (VMP) could not be parsed as FileHashes" *)
| LibraryError (origin : string).

Inductive outcome (A : Type) :=
| Returns (a : A)
| Raises (e : exception).
Arguments Returns {A} a.
Arguments Raises {A} e.

Definition obind {A B} (x : outcome A) (k : A → outcome B) : outcome B :=
  match x with
  | Returns a => k a
  | Raises e => Raises e
  end.

Definition of_option {A} (o : option A) (e : exception) : outcome A :=
  match o with Some a => Returns a | None => Raises e end.

(** A list comprehension whose element expression may raise: elements are
    evaluated left to right and the first exception escapes. *)
Fixpoint comprehension {A B} (f : A → outcome B) (l : list A) : outcome (list B) :=
  match l with
  | [] => Returns []
  | x :: l' =>
      obind (f x) (λ y, obind (comprehension f l') (λ ys, Returns (y :: ys)))
  end.

(** State and exceptions: a computation over a mutable object of type [S]. *)
Definition M (S A : Type) : Type := S → outcome A * S.

Definition ret {S A} (a : A) : M S A := λ s, (Returns a, s).
Definition raise {S A} (e : exception) : M S A := λ s, (Raises e, s).
Definition bind {S A B} (m : M S A) (k : A → M S B) : M S B :=
  λ s, match m s with
       | (Returns a, s') => k a s'
       | (Raises e, s') => (Raises e, s')
       end.
Definition get {S} : M S S := λ s, (Returns s, s).
Definition modify {S} (f : S → S) : M S unit := λ s, (Returns tt, f s).
Definition lift {S A} (x : outcome A) : M S A := λ s, (x, s).

#[global] Instance outcome_ret : MRet outcome := @Returns.
#[global] Instance outcome_bind : MBind outcome := λ A B k x, obind x k.
#[global] Instance M_ret {S} : MRet (M S) := @ret S.
#[global] Instance M_bind {S} : MBind (M S) := λ A B k m, bind m k.

(** A [for] loop whose body mutates the state. *)
Fixpoint for_each {S A} (l : list A) (body : A → M S unit) : M S unit :=
  match l with
  | [] => ret tt
  | x :: l' => bind (body x) (λ _, for_each l' body)
  end.

(** ** Cryptodome.Util.Padding (PKCS#7 style, the default) *)

Definition bchr (n : nat) : byte :=
  match Byte.of_nat n with Some c => c | None => Byte.x00 end.

(** [pad(data, block_size)] *)
Definition pad (data : bytes) (block_size : nat) : bytes :=
  let padding_len := (block_size - length data mod block_size)%nat in
  data ++ replicate padding_len (bchr padding_len).

(** [unpad(padded_data, block_size)] *)
Definition unpad (padded_data : bytes) (block_size : nat) : outcome bytes :=
  let pdata_len := length padded_data in
  if bool_decide (pdata_len = 0%nat) then
    Raises (LibraryError "ValueError: Zero-length input cannot be unpadded")
  else if negb (bool_decide (pdata_len mod block_size = 0)%nat) then
    Raises (LibraryError "ValueError: Input data is not padded")
  else
    let padding_len := Byte.to_nat (List.last padded_data Byte.x00) in
    if bool_decide (padding_len < 1)%nat
       || bool_decide (Nat.min block_size pdata_len < padding_len)%nat then
      Raises (LibraryError "ValueError: Padding is incorrect.")
    else if negb (bool_decide (drop (pdata_len - padding_len) padded_data
                               = replicate padding_len (bchr padding_len))) then
      Raises (LibraryError "ValueError: PKCS#7 padding is incorrect.")
    else Returns (take (pdata_len - padding_len) padded_data).

(** ** Library interfaces *)

(** [randfunc(n)]: [n] fresh random bytes. *)
Definition randfunc := nat → bytes.

(** The calls made into Cryptodome.  [RSA_importKey], the OAEP operations and
    the PSS operations answer [None] where the library raises.  The AES
    operations are the block-level functions; the argument checks that
    [AES.new], [CMAC.new], [encrypt] and [decrypt] perform are written out
    in the wrappers below. *)
Class Cryptodome := {
  RsaKey : Type;
  RSA_importKey : bytes → option RsaKey;
  RsaKey_export_key_DER : RsaKey → bytes;
  PKCS1_OAEP_encrypt : RsaKey → randfunc → bytes → option bytes;
  PKCS1_OAEP_decrypt : RsaKey → bytes → option bytes;
  pss_sign : RsaKey → randfunc → bytes → option bytes;
  pss_EMSA_PSS_ENCODE : bytes → nat → randfunc → nat → option bytes;
  SHA1 : bytes → bytes;
  HMAC_SHA256 : bytes → bytes → bytes;
  AES_CMAC : bytes → bytes → bytes;
  AES_CBC_encrypt : bytes → bytes → bytes → bytes;
  AES_CBC_decrypt : bytes → bytes → bytes → bytes;
  (* a CMAC tag is one AES block *)
  AES_CMAC_digest_size : ∀ k m, length (AES_CMAC k m) = 16%nat;
}.

(** The rest of the Python environment: [base64.b64decode] on a [str]
    ([None]: [binascii.Error]), [bytes.decode()] ([false]:
    [UnicodeDecodeError]), and the optional [cdmapi] extension module, whose
    two calls are taken together with the hex conversions around them:
    [cdmapi_encrypt em] is [bytes.fromhex(cdmapi.encrypt(em.hex()))]. *)
Class Environment := {
  b64decode : string → option bytes;
  utf8_decodable : bytes → bool;
  cdmapi_supported : bool;
  cdmapi_encrypt : bytes → option bytes;
  cdmapi_decrypt : bytes → option bytes;
}.

(** Message classes of the generated module [widevine_pb2], which is not
    among the sources: the ones [device.py] handles as wholes are opaque
    types, the ones whose fields it reads or writes are the records below,
    with the fields it touches. *)
Class pb2_messages := {
  ClientIdentification : Type;
  FileHashes : Type;
  WidevineCencHeader : Type;
  License : Type;
  KeyType : Type;
}.

Inductive Types := CHROME | ANDROID.

(** The enum values of [widevine_pb2] that [device.py] names. *)
Inductive LicenseType := DEFAULT | OFFLINE.
Inductive RequestType := NEW.
Inductive ProtocolVersion := VERSION_2_1.
Inductive MessageType := LICENSE_REQUEST.

(** An argument that is a [str] or a [bytes] object. *)
Inductive str_or_bytes :=
| Str (s : string)
| Bytes (x : bytes).

Section Messages.
Context `{pb2_messages}.

(** [License.KeyContainer]; [kc_OperatorSessionKeyPermissions] is the
    result of [_OperatorSessionKeyPermissions.ListFields()], each field as
    its descriptor name and its value ([True] is [1]). *)
Record KeyContainer := {
  kc_Id : bytes;
  kc_Iv : bytes;
  kc_Key : bytes;
  kc_Type : KeyType;
  kc_OperatorSessionKeyPermissions : list (string * Z);
}.

Record SignedLicense := {
  sl_Msg : License;
  sl_Signature : bytes;
  sl_SessionKey : bytes;
}.

Record SignedMessage := { sm_Msg : bytes }.

Record DeviceCertificate := {
  dc_SerialNumber : bytes;
  dc_PublicKey : bytes;
  dc_ServiceId : bytes;
}.

Record SignedDeviceCertificate := { sdc_DeviceCertificate : DeviceCertificate }.

(** [eci_ServiceId] is a [str] field, kept as its UTF-8 bytes. *)
Record EncryptedClientIdentification := {
  eci_ServiceId : bytes;
  eci_ServiceCertificateSerialNumber : bytes;
  eci_EncryptedClientId : bytes;
  eci_EncryptedClientIdIv : bytes;
  eci_EncryptedPrivacyKey : bytes;
}.

(** [session.cenc_header]: raw init data or a parsed header. *)
Inductive cenc_header :=
| PsshBytes (x : bytes)
| PsshMessage (h : WidevineCencHeader).

(** [LicenseRequest] / [LicenseRequestRaw]: the two differ in the type of
    [ContentId.CencId.Pssh] only. *)
Record LicenseRequest := {
  lr_ClientId : option ClientIdentification;
  lr_Pssh : cenc_header;
  lr_LicenseType : LicenseType;
  lr_RequestId : bytes;
  lr_Type : RequestType;
  lr_RequestTime : Z;
  lr_ProtocolVersion : ProtocolVersion;
  lr_KeyControlNonce : option Z;
  lr_EncryptedClientId : option EncryptedClientIdentification;
}.

Record SignedLicenseRequest := {
  slr_Type : MessageType;
  slr_Msg : LicenseRequest;
  slr_Signature : bytes;
}.

(** Modelled from the spec: the class [Key] of
    [vinetrimmer.utils.widevine.key] is not among the sources.  A key has an
    id, a type, its material and a list of permissions; the fields carry the
    names of the keyword arguments [parse_license] passes. *)
Record Key := {
  kid : bytes;
  key_type : string;
  key : bytes;
  permissions : list string;
}.

(** Modelled from the spec: the session class is not among the sources.
    The fields are those of the specification's License Session, under the
    attribute names [device.py] reads and writes ([license_request] is the
    pending request, [cenc_header] the init data); [signed_license] keeps
    the last parsed response. *)
Record Session := {
  session_id : bytes;
  session_cenc_header : cenc_header;
  raw : bool;
  offline : bool;
  privacy_mode : bool;
  signed_device_certificate : option SignedDeviceCertificate;
  license_request : option SignedLicenseRequest;
  signed_license : option SignedLicense;
  session_key : option bytes;
  derived_keys : gmap string bytes;
  keys : list Key;
}.

Definition set_signed_device_certificate v (s : Session) : Session :=
  {| session_id := session_id s; session_cenc_header := session_cenc_header s;
     raw := raw s; offline := offline s; privacy_mode := privacy_mode s;
     signed_device_certificate := v; license_request := license_request s;
     signed_license := signed_license s; session_key := session_key s;
     derived_keys := derived_keys s; keys := keys s |}.

Definition set_privacy_mode v (s : Session) : Session :=
  {| session_id := session_id s; session_cenc_header := session_cenc_header s;
     raw := raw s; offline := offline s; privacy_mode := v;
     signed_device_certificate := signed_device_certificate s;
     license_request := license_request s;
     signed_license := signed_license s; session_key := session_key s;
     derived_keys := derived_keys s; keys := keys s |}.

Definition set_license_request v (s : Session) : Session :=
  {| session_id := session_id s; session_cenc_header := session_cenc_header s;
     raw := raw s; offline := offline s; privacy_mode := privacy_mode s;
     signed_device_certificate := signed_device_certificate s;
     license_request := v;
     signed_license := signed_license s; session_key := session_key s;
     derived_keys := derived_keys s; keys := keys s |}.

Definition set_signed_license v (s : Session) : Session :=
  {| session_id := session_id s; session_cenc_header := session_cenc_header s;
     raw := raw s; offline := offline s; privacy_mode := privacy_mode s;
     signed_device_certificate := signed_device_certificate s;
     license_request := license_request s;
     signed_license := v; session_key := session_key s;
     derived_keys := derived_keys s; keys := keys s |}.

Definition set_session_key v (s : Session) : Session :=
  {| session_id := session_id s; session_cenc_header := session_cenc_header s;
     raw := raw s; offline := offline s; privacy_mode := privacy_mode s;
     signed_device_certificate := signed_device_certificate s;
     license_request := license_request s;
     signed_license := signed_license s; session_key := v;
     derived_keys := derived_keys s; keys := keys s |}.

(** [session.derived_keys[name] = v] *)
Definition set_derived_key (name : string) (v : bytes) (s : Session) : Session :=
  {| session_id := session_id s; session_cenc_header := session_cenc_header s;
     raw := raw s; offline := offline s; privacy_mode := privacy_mode s;
     signed_device_certificate := signed_device_certificate s;
     license_request := license_request s;
     signed_license := signed_license s; session_key := session_key s;
     derived_keys := <[name := v]> (derived_keys s); keys := keys s |}.

(** [session.keys.append(k)] *)
Definition keys_append (k : Key) (s : Session) : Session :=
  {| session_id := session_id s; session_cenc_header := session_cenc_header s;
     raw := raw s; offline := offline s; privacy_mode := privacy_mode s;
     signed_device_certificate := signed_device_certificate s;
     license_request := license_request s;
     signed_license := signed_license s; session_key := session_key s;
     derived_keys := derived_keys s; keys := keys s ++ [k] |}.
End Messages.

(** Parsing, serialisation and accessors of the generated classes
    ([ParseFromString] answers [None] for [DecodeError]).  The four laws say
    what the protobuf wire format does with a [bytes], [str] or sub-message
    field that is set: its payload is written as one contiguous run. *)
Class pb2_codec `{pb2_messages} := {
  ClientIdentification_ParseFromString : bytes → option ClientIdentification;
  ClientIdentification_SerializeToString : ClientIdentification → bytes;
  (* [client_id._FileHashes.CopyFrom(vmp)] *)
  ClientIdentification_FileHashes_CopyFrom :
    ClientIdentification → FileHashes → ClientIdentification;
  (* [client_id.Token._DeviceCertificate.SystemId] *)
  ClientIdentification_SystemId : ClientIdentification → Z;
  (* [widevine.FileHashes()] *)
  FileHashes_new : FileHashes;
  FileHashes_ParseFromString : bytes → option FileHashes;
  FileHashes_SerializeToString : FileHashes → bytes;
  SignedMessage_ParseFromString : bytes → option SignedMessage;
  SignedDeviceCertificate_ParseFromString : bytes → option SignedDeviceCertificate;
  SignedLicense_ParseFromString : bytes → option SignedLicense;
  License_Key : License → list KeyContainer;
  License_SerializeToString : License → bytes;
  KeyType_Name : KeyType → string;
  LicenseRequest_SerializeToString : LicenseRequest → bytes;
  SignedLicenseRequest_SerializeToString : SignedLicenseRequest → bytes;
  wire_RequestId : ∀ r,
    occurs_in (lr_RequestId (slr_Msg r)) (SignedLicenseRequest_SerializeToString r);
  wire_ClientId : ∀ r c,
    lr_ClientId (slr_Msg r) = Some c →
    occurs_in (ClientIdentification_SerializeToString c)
              (SignedLicenseRequest_SerializeToString r);
  wire_ServiceId : ∀ r e,
    lr_EncryptedClientId (slr_Msg r) = Some e →
    occurs_in (eci_ServiceId e) (SignedLicenseRequest_SerializeToString r);
  wire_ServiceCertificateSerialNumber : ∀ r e,
    lr_EncryptedClientId (slr_Msg r) = Some e →
    occurs_in (eci_ServiceCertificateSerialNumber e)
              (SignedLicenseRequest_SerializeToString r);
}.

(** ** Argument checks of the Cryptodome entry points *)

Section Wrappers.
Context `{Cryptodome}.

Definition AES_key_size_ok (k : bytes) : bool :=
  bool_decide (length k = 16%nat) || bool_decide (length k = 24%nat)
  || bool_decide (length k = 32%nat).

(** [c = CMAC.new(k, ciphermod=AES); c.update(m); c.digest()] *)
Definition CMAC_new_update_digest (k m : bytes) : outcome bytes :=
  if AES_key_size_ok k then Returns (AES_CMAC k m)
  else Raises (LibraryError "ValueError: Incorrect AES key length").

(** [AES.new(k, AES.MODE_CBC, iv).encrypt(data)] *)
Definition AES_new_CBC_encrypt (k iv data : bytes) : outcome bytes :=
  if negb (AES_key_size_ok k) then
    Raises (LibraryError "ValueError: Incorrect AES key length")
  else if negb (bool_decide (length iv = 16%nat)) then
    Raises (LibraryError "ValueError: Incorrect IV length")
  else if negb (bool_decide (length data mod 16 = 0)%nat) then
    Raises (LibraryError "ValueError: Data must be padded to 16 byte boundary in CBC mode")
  else Returns (AES_CBC_encrypt k iv data).

(** [AES.new(k, AES.MODE_CBC, iv=iv).decrypt(data)] *)
Definition AES_new_CBC_decrypt (k iv data : bytes) : outcome bytes :=
  if negb (AES_key_size_ok k) then
    Raises (LibraryError "ValueError: Incorrect AES key length")
  else if negb (bool_decide (length iv = 16%nat)) then
    Raises (LibraryError "ValueError: Incorrect IV length")
  else if negb (bool_decide (length data mod 16 = 0)%nat) then
    Raises (LibraryError "ValueError: Data must be padded to 16 byte boundary in CBC mode")
  else Returns (AES_CBC_decrypt k iv data).

(** [struct.pack("B", x)] *)
Definition struct_pack_B (x : Z) : outcome bytes :=
  match (if bool_decide (0 ≤ x) then Byte.of_N (Z.to_N x) else None) with
  | Some c => Returns [c]
  | None => Raises (LibraryError "struct.error: ubyte format requires 0 <= number <= 255")
  end.
End Wrappers.

(** ** Key derivation of [scripts/Provision.py] *)

Section Provision.
Context `{Cryptodome}.

(** [generate_derived_keys(msg, key)] *)
Definition generate_derived_keys (msg key : bytes) : outcome (bytes * bytes * bytes) :=
  let enc_key_base := lit "ENCRYPTION" ++ [x00] ++ msg ++ [x00; x00; x00; x80] in
  let auth_key_base := lit "AUTHENTICATION" ++ [x00] ++ msg ++ [x00; x00; x02; x00] in
  enc_cmac_key ← CMAC_new_update_digest key ([x01] ++ enc_key_base);
  auth_cmac_key_1 ← CMAC_new_update_digest key ([x01] ++ auth_key_base);
  auth_cmac_key_2 ← CMAC_new_update_digest key ([x02] ++ auth_key_base);
  auth_cmac_key_3 ← CMAC_new_update_digest key ([x03] ++ auth_key_base);
  auth_cmac_key_4 ← CMAC_new_update_digest key ([x04] ++ auth_key_base);
  Returns (enc_cmac_key, auth_cmac_key_1 ++ auth_cmac_key_2,
           auth_cmac_key_3 ++ auth_cmac_key_4).
End Provision.

(** ** The [construct] combinators used by [WidevineDeviceStruct]

    A parser is a computation over the unread rest of the stream; a builder
    answers the bytes it writes. *)

Definition stream_read (n : nat) : M bytes bytes :=
  λ stream,
    if bool_decide (n ≤ length stream)%nat then (Returns (take n stream), drop n stream)
    else (Raises (LibraryError "StreamError: stream read less than specified amount"), stream).

(** Big-endian unsigned integer of a byte string. *)
Fixpoint bytes2integer_from (acc : Z) (x : bytes) : Z :=
  match x with
  | [] => acc
  | c :: x' => bytes2integer_from (acc * 256 + Z.of_N (Byte.to_N c)) x'
  end.
Definition bytes2integer (x : bytes) : Z := bytes2integer_from 0 x.

Definition byte_of_Z (v : Z) : byte :=
  match Byte.of_N (Z.to_N (v mod 256)) with Some c => c | None => x00 end.

Definition Int8ub_parse : M bytes Z :=
  x ← stream_read 1; mret (bytes2integer x).
Definition Int8ub_build (v : Z) : outcome bytes :=
  if bool_decide (0 ≤ v) && bool_decide (v < 256) then Returns [byte_of_Z v]
  else Raises (LibraryError "FormatFieldError: struct.pack").

Definition Int16ub_parse : M bytes Z :=
  x ← stream_read 2; mret (bytes2integer x).
Definition Int16ub_build (v : Z) : outcome bytes :=
  if bool_decide (0 ≤ v) && bool_decide (v < 65536) then
    Returns [byte_of_Z (v / 256); byte_of_Z v]
  else Raises (LibraryError "FormatFieldError: struct.pack").

(** [Const(value)] *)
Definition Const_parse (value : bytes) : M bytes bytes :=
  x ← stream_read (length value);
  if bool_decide (x = value) then mret x
  else raise (LibraryError "ConstError: parsing expected a different value").
Definition Const_build (value : bytes) : outcome bytes := Returns value.

(** [Bytes(length)]; building takes the object given, which may be [None]. *)
Definition Bytes_parse (length : Z) : M bytes bytes :=
  if bool_decide (length < 0) then
    raise (LibraryError "StreamError: length must be non-negative")
  else stream_read (Z.to_nat length).
Definition Bytes_build (length : Z) (obj : option bytes) : outcome bytes :=
  match obj with
  | None => Raises (LibraryError "StringError: given non-bytes value")
  | Some data =>
      if bool_decide (length < 0) then
        Raises (LibraryError "StreamError: length must be non-negative")
      else if negb (bool_decide (len data = length)) then
        Raises (LibraryError "StreamError: bytes object of wrong length")
      else Returns data
  end.

(** [Optional(subcon)] is [Select(subcon, Pass)]: when the sub-parser fails
    the stream is rewound and [None] is the value; when the sub-builder fails
    nothing is written. *)
Definition Optional_parse {A} (subcon : M bytes A) : M bytes (option A) :=
  λ stream,
    match subcon stream with
    | (Returns a, rest) => (Returns (Some a), rest)
    | (Raises _, _) => (Returns None, stream)
    end.
Definition Optional_build (subcon : outcome bytes) : outcome bytes :=
  match subcon with
  | Returns data => Returns data
  | Raises _ => Returns []
  end.

(** [Padded(length, subcon)]: what the sub-construct leaves of [length]
    bytes is skipped on parsing and written as zero bytes on building. *)
Definition Padded_parse {A} (length : nat) (subcon : M bytes A) : M bytes A :=
  λ stream,
    match subcon stream with
    | (Returns a, rest) =>
        let consumed := (List.length stream - List.length rest)%nat in
        if bool_decide (length < consumed)%nat then
          (Raises (LibraryError "PaddingError: subcon parsed more bytes than was allowed"), rest)
        else
          match stream_read (length - consumed) rest with
          | (Returns _, rest') => (Returns a, rest')
          | (Raises e, rest') => (Raises e, rest')
          end
    | (Raises e, rest) => (Raises e, rest)
    end.
Definition Padded_build (length : nat) (subcon : outcome bytes) : outcome bytes :=
  data ← subcon;
  if bool_decide (length < List.length data)%nat then
    Raises (LibraryError "PaddingError: subcon build more bytes than was allowed")
  else Returns (data ++ replicate (length - List.length data) x00).

(** [BitStruct(Padding(7), "send_key_control_nonce" / Flag)]: one byte read
    most significant bit first, seven bits skipped, the last one the flag.
    The value is a container with that one entry. *)
Definition flags_BitStruct_parse : M bytes (gmap string bool) :=
  x ← stream_read 1;
  mret {[ "send_key_control_nonce" := Z.odd (bytes2integer x) ]}.
Definition flags_BitStruct_build (obj : option (gmap string bool)) : outcome bytes :=
  match obj with
  | None => Raises (LibraryError "TypeError: 'NoneType' object is not subscriptable")
  | Some d =>
      match (d !! "send_key_control_nonce" : option bool) with
      | None => Raises (LibraryError "KeyError: 'send_key_control_nonce'")
      | Some flag => Returns [if flag then x01 else x00]
      end
  end.

(** ** Clock and randomness

    What [get_license_challenge] reads from outside the program: the clock,
    the draw behind [random.randrange], and the bytes behind
    [Cryptodome.Random.get_random_bytes], one stream per place of use (the
    two direct uses and the [randfunc] handed to OAEP and to PSS). *)
Record World := {
  time_time : Z;
  random_draw : Z;
  entropy : nat → nat → byte;
}.

(** [random.randrange(start, stop)], given [start < stop]. *)
Definition randrange (w : World) (start stop : Z) : Z :=
  start + random_draw w mod (stop - start).

(** [get_random_bytes(n)] at the [use]-th place. *)
Definition get_random_bytes (w : World) (use : nat) : randfunc :=
  λ n, entropy w use <$> seq 0 n.

(** ** Objects read from JSON

    What [json.load] and [requests.Response.json] give: the Python object
    for a JSON text.  Numbers are the integers; a number with a fraction or
    an exponent is not described. *)

#[local] Unset Elimination Schemes.
Inductive json :=
| JNull
| JBool (b : bool)
| JNumber (n : Z)
| JString (s : string)
| JArray (l : list json)
| JObject (o : gmap string json).
#[local] Set Elimination Schemes.

(** Truth value of such an object. *)
Definition json_truthy (v : json) : bool :=
  match v with
  | JNull => false
  | JBool b => b
  | JNumber n => negb (bool_decide (n = 0))
  | JString s => negb (bool_decide (s = EmptyString))
  | JArray l => match l with [] => false | _ :: _ => true end
  | JObject o => negb (bool_decide (o = ∅))
  end.

(** [value == text] for a [str] on the right. *)
Definition json_eq_str (value : json) (text : string) : bool :=
  match value with
  | JString s => bool_decide (s = text)
  | _ => false
  end.

(** [config[key]] for a [str] key. *)
Definition json_subscript (config : json) (key : string) : outcome json :=
  match config with
  | JObject o => of_option (o !! key) (LibraryError "KeyError")
  | _ => Raises (LibraryError "TypeError: not subscriptable by a str")
  end.

(** [config.get(key, default)] *)
Definition json_get (config : json) (key : string) (default_value : json)
  : outcome json :=
  match config with
  | JObject o => Returns (default default_value (o !! key))
  | _ => Raises (LibraryError "AttributeError: no attribute 'get'")
  end.

(** Further calls into the Python environment: [json.load] on the content
    of a file, [str.upper], [base64.b64encode(x).decode()], [bytes.fromhex]
    ([None]: [ValueError]), [requests.post(host, json=body).json()], and
    [Box.build] of the vendored MP4 parser on a container of its own.
    [requests_post_json] is the answer to one request: every statement
    about [RemoteDevice] concerns a single call of a method. *)
Class Platform := {
  json_load : bytes → outcome json;
  str_upper : string → string;
  b64encode : bytes → string;
  bytes_fromhex : string → option bytes;
  requests_post_json : json → json → outcome json;
  Box : Type;
  Box_build : Box → outcome bytes;
}.

(** A directory: the files in it by name, with their contents.  A name
    that is absent is one that [open] answers with [FileNotFoundError];
    other failures of [open] are not described. *)
Definition directory := gmap string bytes.

(** [with open(os.path.join(d, name), "rb") as fd: fd.read()] *)
Definition read_file (d : directory) (name : string) : outcome bytes :=
  of_option (d !! name) (LibraryError "FileNotFoundError").

(** ** [class LocalDevice] *)

Module LocalDevice.
Section LocalDevice.
Context `{Cryptodome, Environment, pb2_messages, !pb2_codec}.

(** [self.type]: a member of [Types], or the integer the blob carried when
    it names no member. *)
Inductive type_attr :=
| Member (t : Types)
| RawInt (n : Z).

Record t := {
  type : type_attr;
  security_level : Z;
  flags : option (gmap string bool);
  private_key : option RsaKey;
  client_id : option ClientIdentification;
  vmp : option FileHashes;
  system_id : option Z;
}.

(** *** [WidevineDeviceStruct] *)

(** The container a parse yields and the dictionary a build takes.
    [wvd_type] is the integer behind the [CEnum]. *)
Record Container := {
  wvd_version : Z;
  wvd_type : Z;
  wvd_security_level : Z;
  wvd_flags : option (gmap string bool);
  wvd_private_key_len : Z;
  wvd_private_key : option bytes;
  wvd_client_id_len : Z;
  wvd_client_id : option bytes;
  wvd_vmp_len : option Z;
  wvd_vmp : option bytes;
}.

(** Truth value of [this.vmp_len]. *)
Definition vmp_len_truthy (vmp_len : option Z) : bool :=
  match vmp_len with
  | Some n => negb (bool_decide (n = 0))
  | None => false
  end.

Definition WidevineDeviceStruct_parse_stream : M bytes Container :=
  _ ← Const_parse (lit "WVD");
  version ← Int8ub_parse;
  type ← Int8ub_parse;
  security_level ← Int8ub_parse;
  flags ← Padded_parse 1 (Optional_parse flags_BitStruct_parse);
  private_key_len ← Int16ub_parse;
  private_key ← Bytes_parse private_key_len;
  client_id_len ← Int16ub_parse;
  client_id ← Bytes_parse client_id_len;
  vmp_len ← Optional_parse Int16ub_parse;
  vmp ← (if vmp_len_truthy vmp_len
         then Optional_parse (Bytes_parse (default 0 vmp_len))
         else mret None);
  mret {| wvd_version := version; wvd_type := type;
          wvd_security_level := security_level; wvd_flags := flags;
          wvd_private_key_len := private_key_len;
          wvd_private_key := Some private_key;
          wvd_client_id_len := client_id_len;
          wvd_client_id := Some client_id;
          wvd_vmp_len := vmp_len; wvd_vmp := vmp |}.

(** [WidevineDeviceStruct.parse(data)]; bytes after the last field are
    left unread. *)
Definition WidevineDeviceStruct_parse (data : bytes) : outcome Container :=
  (WidevineDeviceStruct_parse_stream data).1.

Definition WidevineDeviceStruct_build (obj : Container) : outcome bytes :=
  signature ← Const_build (lit "WVD");
  version ← Int8ub_build (wvd_version obj);
  type ← Int8ub_build (wvd_type obj);
  security_level ← Int8ub_build (wvd_security_level obj);
  flags ← Padded_build 1 (Optional_build (flags_BitStruct_build (wvd_flags obj)));
  private_key_len ← Int16ub_build (wvd_private_key_len obj);
  private_key ← Bytes_build (wvd_private_key_len obj) (wvd_private_key obj);
  client_id_len ← Int16ub_build (wvd_client_id_len obj);
  client_id ← Bytes_build (wvd_client_id_len obj) (wvd_client_id obj);
  vmp_len ← Optional_build (match wvd_vmp_len obj with
                            | Some n => Int16ub_build n
                            | None => Raises (LibraryError "FormatFieldError: struct.pack")
                            end);
  vmp ← (if vmp_len_truthy (wvd_vmp_len obj)
         then Optional_build (Bytes_build (default 0 (wvd_vmp_len obj)) (wvd_vmp obj))
         else Returns []);
  Returns (signature ++ version ++ type ++ security_level ++ flags
           ++ private_key_len ++ private_key ++ client_id_len ++ client_id
           ++ vmp_len ++ vmp).

(** [WidevineDeviceStructVersion] *)
Definition WidevineDeviceStructVersion : Z := 1.

(** *** [__init__], [load], [dumpb] *)

(** [__init__(type, security_level, flags, private_key, client_id, vmp)] *)
Definition __init__ (type_arg : type_attr) (security_level_arg : Z)
    (flags_arg : option (gmap string bool)) (private_key_arg : option bytes)
    (client_id_arg : bytes) (vmp_arg : option bytes) : outcome t :=
  private_key ←
    (if nonempty (default [] private_key_arg) then
       rsa ← of_option (RSA_importKey (default [] private_key_arg))
               (LibraryError "ValueError: RSA key format is not supported");
       Returns (Some rsa)
     else Returns None);
  client_id ← of_option (ClientIdentification_ParseFromString client_id_arg)
                (MalformedDevice "client_id");
  '(vmp, client_id) ←
    (if nonempty (default [] vmp_arg) then
       vmp ← of_option (FileHashes_ParseFromString (default [] vmp_arg))
               (MalformedDevice "vmp");
       Returns (vmp, ClientIdentification_FileHashes_CopyFrom client_id vmp)
     else Returns (FileHashes_new, client_id));
  Returns {| type := type_arg;
             security_level := security_level_arg;
             flags := flags_arg;
             private_key := private_key;
             client_id := Some client_id;
             vmp := Some vmp;
             system_id := Some (ClientIdentification_SystemId client_id) |}.

(** The value the [CEnum] parse hands to [__init__]: the member's name for
    1 and 2, which [Types[type]] then resolves, and the bare integer
    otherwise. *)
Definition type_of_parsed (n : Z) : type_attr :=
  if bool_decide (n = 1) then Member CHROME
  else if bool_decide (n = 2) then Member ANDROID
  else RawInt n.

(** [load(uri)] for [uri] a [bytes] object. *)
Definition load (uri : bytes) : outcome t :=
  c ← WidevineDeviceStruct_parse uri;
  __init__ (type_of_parsed (wvd_type c)) (wvd_security_level c) (wvd_flags c)
           (wvd_private_key c) (default [] (wvd_client_id c)) (wvd_vmp c).

(** [self.type.value] *)
Definition type_value (ty : type_attr) : outcome Z :=
  match ty with
  | Member CHROME => Returns 1
  | Member ANDROID => Returns 2
  | RawInt _ => Raises (LibraryError "AttributeError: 'int' object has no attribute 'value'")
  end.

Definition dumpb (self : t) : outcome bytes :=
  let private_key := RsaKey_export_key_DER <$> private_key self in
  type_value ← type_value (type self);
  WidevineDeviceStruct_build
    {| wvd_version := WidevineDeviceStructVersion;
       wvd_type := type_value;
       wvd_security_level := security_level self;
       wvd_flags := flags self;
       wvd_private_key_len :=
         if nonempty (default [] private_key) then len (default [] private_key) else 0;
       wvd_private_key := private_key;
       wvd_client_id_len :=
         match client_id self with
         | Some c => len (ClientIdentification_SerializeToString c)
         | None => 0
         end;
       wvd_client_id := ClientIdentification_SerializeToString <$> client_id self;
       wvd_vmp_len :=
         Some (match vmp self with
               | Some v => len (FileHashes_SerializeToString v)
               | None => 0
               end);
       wvd_vmp := FileHashes_SerializeToString <$> vmp self |}.

(** *** [set_service_certificate] *)

(** [if isinstance(x, str): x = base64.b64decode(x)] *)
Definition decode_if_str (x : str_or_bytes) : outcome bytes :=
  match x with
  | Str s => of_option (b64decode s) (LibraryError "binascii.Error")
  | Bytes x => Returns x
  end.

Definition set_service_certificate (self : t) (certificate : str_or_bytes)
  : M Session bool :=
  certificate ← lift (decode_if_str certificate);
  signed_message ← lift (of_option (SignedMessage_ParseFromString certificate)
                           (MalformedCertificate "SignedMessage"));
  signed_device_certificate ←
    lift (of_option (SignedDeviceCertificate_ParseFromString (sm_Msg signed_message))
            (MalformedCertificate "SignedDeviceCertificate"));
  modify (set_signed_device_certificate (Some signed_device_certificate));;
  modify (set_privacy_mode true);;
  mret true.

(** *** [get_license_challenge] *)

(** [self.flags and self.flags.get("send_key_control_nonce")] *)
Definition send_key_control_nonce (self : t) : bool :=
  match flags self with
  | None => false
  | Some d =>
      negb (bool_decide (d = ∅))
      && default false (d !! "send_key_control_nonce" : option bool)
  end.

(** The privacy-mode branch: the encrypted client identification. *)
Definition encrypt_client_id (w : World) (cid : ClientIdentification)
    (session : Session) : outcome EncryptedClientIdentification :=
  let cid_aes_key := get_random_bytes w 0 16%nat in
  let cid_iv := get_random_bytes w 1 16%nat in
  match signed_device_certificate session with
  | None => Raises MissingCertificate
  | Some certificate =>
      let dc := sdc_DeviceCertificate certificate in
      ServiceId ← (if utf8_decodable (dc_ServiceId dc) then Returns (dc_ServiceId dc)
                   else Raises (LibraryError "UnicodeDecodeError"));
      EncryptedClientId ←
        AES_new_CBC_encrypt cid_aes_key cid_iv
          (pad (ClientIdentification_SerializeToString cid) 16%nat);
      public_key ← of_option (RSA_importKey (dc_PublicKey dc))
                     (LibraryError "ValueError: RSA key format is not supported");
      EncryptedPrivacyKey ←
        of_option (PKCS1_OAEP_encrypt public_key (get_random_bytes w 2) cid_aes_key)
          (LibraryError "ValueError: Plaintext is too long.");
      Returns {| eci_ServiceId := ServiceId;
                 eci_ServiceCertificateSerialNumber := dc_SerialNumber dc;
                 eci_EncryptedClientId := EncryptedClientId;
                 eci_EncryptedClientIdIv := cid_iv;
                 eci_EncryptedPrivacyKey := EncryptedPrivacyKey |}
  end.

(** The signature over the serialized inner message. *)
Definition sign_request (self : t) (w : World) (msg : bytes) : outcome bytes :=
  if cdmapi_supported && negb (truthy (private_key self)) then
    em ← of_option (pss_EMSA_PSS_ENCODE (SHA1 msg) 2047 (get_random_bytes w 3) 20)
           (LibraryError "ValueError: pss._EMSA_PSS_ENCODE");
    of_option (cdmapi_encrypt em) (LibraryError "cdmapi.encrypt")
  else
    match private_key self with
    | None => Raises (LibraryError "AttributeError: pss.new(None)")
    | Some rsa =>
        of_option (pss_sign rsa (get_random_bytes w 3) (SHA1 msg))
          (LibraryError "ValueError: pss.sign")
    end.

Definition get_license_challenge (self : t) (w : World) : M Session bytes :=
  match client_id self with
  | None => raise MissingIdentity
  | Some cid =>
    if negb (truthy (private_key self)) && negb cdmapi_supported then
      raise MissingSigningCapability
    else
      session ← get;
      Pssh ← lift (match raw session, session_cenc_header session with
                   | true, PsshBytes x => Returns (PsshBytes x)
                   | false, PsshMessage h => Returns (PsshMessage h)
                   | _, _ => Raises (LibraryError "TypeError: cenc_header")
                   end);
      let license_type := if offline session then OFFLINE else DEFAULT in
      let KeyControlNonce :=
        if send_key_control_nonce self then Some (randrange w 1 (2 ^ 31)) else None in
      '(ClientId, EncryptedClientId) ←
        lift (if privacy_mode session then
                enc_client_id ← encrypt_client_id w cid session;
                Returns (None, Some enc_client_id)
              else Returns (Some cid, None));
      let Msg := {| lr_ClientId := ClientId;
                    lr_Pssh := Pssh;
                    lr_LicenseType := license_type;
                    lr_RequestId := session_id session;
                    lr_Type := NEW;
                    lr_RequestTime := time_time w;
                    lr_ProtocolVersion := VERSION_2_1;
                    lr_KeyControlNonce := KeyControlNonce;
                    lr_EncryptedClientId := EncryptedClientId |} in
      Signature ← lift (sign_request self w (LicenseRequest_SerializeToString Msg));
      let license_request := {| slr_Type := LICENSE_REQUEST;
                                slr_Msg := Msg;
                                slr_Signature := Signature |} in
      modify (set_license_request (Some license_request));;
      mret (SignedLicenseRequest_SerializeToString license_request)
  end.

(** *** [parse_license] *)

(** The body of the local function [get_auth_keys] for at most one index. *)
Definition get_auth_keys_single (i : list Z) (k b : bytes) : outcome bytes :=
  if AES_key_size_ok k then
    match i with
    | [] => Raises (LibraryError "IndexError: tuple index out of range")
    | i0 :: _ => p ← struct_pack_B i0; Returns (AES_CMAC k (p ++ b))
    end
  else Raises (LibraryError "ValueError: Incorrect AES key length").

(** [get_auth_keys] with its positional indices [i] as a list; the
    recursive calls carry one index each. *)
Definition get_auth_keys (i : list Z) (k b : bytes) : outcome bytes :=
  if bool_decide (1 < length i)%nat then
    parts ← comprehension (λ x, get_auth_keys_single [x] k b) i;
    Returns (concat parts)
  else get_auth_keys_single i k b.

(** The [permissions] list built for one key container. *)
Definition container_permissions (key_type : string) (k : KeyContainer) : list string :=
  if bool_decide (key_type = "OPERATOR_SESSION") then
    (filter (λ dv, dv.2 = 1) (kc_OperatorSessionKeyPermissions k)).*1
  else [].

(** The [Key(...)] expression of the loop body, given the value read from
    [session.derived_keys["enc"]]. *)
Definition container_key (enc : bytes) (k : KeyContainer) : outcome Key :=
  let key_type := KeyType_Name (kc_Type k) in
  let permissions := container_permissions key_type k in
  let kid := if nonempty (kc_Id k) then kc_Id k else lit key_type in
  decrypted ← AES_new_CBC_decrypt enc (kc_Iv k) (kc_Key k);
  key ← unpad decrypted 16;
  Returns {| kid := kid; key_type := key_type; key := key;
             permissions := permissions |}.

(** The body of [for key in session.signed_license.Msg.Key]. *)
Definition parse_license_key (k : KeyContainer) : M Session unit :=
  session ← get;
  enc ← lift (of_option (derived_keys session !! "enc") (LibraryError "KeyError: 'enc'"));
  new_key ← lift (container_key enc k);
  modify (keys_append new_key).

(** The right-hand side of the assignment to [session.session_key]. *)
Definition recover_session_key (self : t) (signed_license : SignedLicense)
  : outcome bytes :=
  if cdmapi_supported && negb (truthy (private_key self)) then
    of_option (cdmapi_decrypt (sl_SessionKey signed_license))
      (LibraryError "cdmapi.decrypt")
  else
    match private_key self with
    | None => Raises (LibraryError "AttributeError: PKCS1_OAEP.new(None)")
    | Some rsa =>
        of_option (PKCS1_OAEP_decrypt rsa (sl_SessionKey signed_license))
          (LibraryError "ValueError: Incorrect decryption.")
    end.

(** [enc_key_base] and [auth_key_base] *)
Definition enc_key_base (license_req_msg : bytes) : bytes :=
  lit "ENCRYPTION" ++ [x00] ++ license_req_msg ++ [x00; x00; x00; x80].
Definition auth_key_base (license_req_msg : bytes) : bytes :=
  lit "AUTHENTICATION" ++ [x00] ++ license_req_msg ++ [x00; x00; x02; x00].

Definition parse_license (self : t) (license_res : str_or_bytes) : M Session bool :=
  session ← get;
  match license_request session with
  | None => raise NoPendingRequest
  | Some license_request =>
    license_res ← lift (decode_if_str license_res);
    signed_license ← lift (of_option (SignedLicense_ParseFromString license_res)
                             (MalformedResponse license_res));
    modify (set_signed_license (Some signed_license));;
    let license_req_msg := LicenseRequest_SerializeToString (slr_Msg license_request) in
    session_key ← lift (recover_session_key self signed_license);
    modify (set_session_key (Some session_key));;
    enc ← lift (get_auth_keys [1] session_key (enc_key_base license_req_msg));
    modify (set_derived_key "enc" enc);;
    auth_1 ← lift (get_auth_keys [1; 2] session_key (auth_key_base license_req_msg));
    modify (set_derived_key "auth_1" auth_1);;
    auth_2 ← lift (get_auth_keys [3; 4] session_key (auth_key_base license_req_msg));
    modify (set_derived_key "auth_2" auth_2);;
    session ← get;
    hmac_key ← lift (of_option (derived_keys session !! "auth_1")
                       (LibraryError "KeyError: 'auth_1'"));
    if negb (bool_decide (HMAC_SHA256 hmac_key
                            (License_SerializeToString (sl_Msg signed_license))
                          = sl_Signature signed_license)) then
      raise SignatureMismatch
    else
      for_each (License_Key (sl_Msg signed_license)) parse_license_key;;
      mret true
  end.

(** *** [from_dir] *)

Context `{Platform}.

(** [value.upper()] *)
Definition json_upper (value : json) : outcome string :=
  match value with
  | JString s => Returns (str_upper s)
  | _ => Raises (LibraryError "AttributeError: no attribute 'upper'")
  end.

(** [getattr(cls.Types, name)] for a name without lower-case letters, as
    [str.upper] returns them: the members are the only such attributes of
    the enumeration. *)
Definition getattr_Types (name : string) : outcome Types :=
  if bool_decide (name = "CHROME") then Returns CHROME
  else if bool_decide (name = "ANDROID") then Returns ANDROID
  else Raises (LibraryError "AttributeError: Types").

(** [from_dir(d)].  The result is [None] when the call returns a device
    whose [security_level] is not an integer: [from_dir] stores whatever
    value the configuration has, and the record [t] holds integers. *)
Definition from_dir (d : directory) : outcome (option t) :=
  config ← (text ← read_file d "wv.json"; json_load text);
  let private_key := d !! "device_private_key" in
  client_id ← read_file d "device_client_id_blob";
  let vmp := d !! "device_vmp_blob" in
  session_id_type ← json_subscript config "session_id_type";
  name ← json_upper session_id_type;
  type ← getattr_Types name;
  security_level ← json_subscript config "security_level";
  session_id_type' ← json_subscript config "session_id_type";
  flag ← json_get config "send_key_control_nonce"
           (JBool (json_eq_str session_id_type' "android"));
  let flags := Some {[ "send_key_control_nonce" := json_truthy flag ]} in
  match security_level with
  | JNumber n =>
      self ← __init__ (Member type) n flags private_key client_id vmp;
      Returns (Some self)
  | _ =>
      _ ← __init__ (Member type) 0 flags private_key client_id vmp;
      Returns None
  end.
End LocalDevice.
End LocalDevice.

(** ** [class RemoteDevice] *)

Module RemoteDevice.

(** How a call ends: with a value, with the [ValueError] that [session]
    raises for an answer of the API that is not a success (it shows the
    status code and the message), or with any other exception. *)
Inductive remote_outcome (A : Type) :=
| Done (a : A)
| ApiError (status_code message : json)
| Escapes (e : exception).
Arguments Done {A} a.
Arguments ApiError {A} status_code message.
Arguments Escapes {A} e.

Definition rbind {A B} (x : remote_outcome A) (k : A → remote_outcome B)
  : remote_outcome B :=
  match x with
  | Done a => k a
  | ApiError status_code message => ApiError status_code message
  | Escapes e => Escapes e
  end.

#[export] Instance remote_bind : MBind remote_outcome := λ A B k x, rbind x k.

Definition of_outcome {A} (x : outcome A) : remote_outcome A :=
  match x with Returns a => Done a | Raises e => Escapes e end.

(** The keyword arguments of a [Key(kid=..., key_type=..., key=...)] call;
    [key_type] is whatever object the answer of the API holds. *)
Record Key := {
  kid : bytes;
  key_type : json;
  key : bytes;
}.

Section RemoteDevice.
Context `{Environment, Platform}.

(** The attributes the methods read, as the objects they were given:
    [host], [key] (the access token, here [key_attr]: the name [key] is the
    keyword argument of [Key]), [device] and [api_session_id]. *)
Record t := {
  host : json;
  key_attr : json;
  device : json;
  api_session_id : json;
}.

(** [session.pssh]: a parsed box, raw bytes, or text. *)
Inductive pssh_value :=
| PsshBox (box : Box)
| PsshBytes (x : bytes)
| PsshText (s : string).

(** The attributes of a session that [RemoteDevice] reads and writes. *)
Record Session := {
  pssh : pssh_value;
  raw : bool;
  offline : bool;
  privacy_mode : bool;
  signed_device_certificate : json;
  keys : list Key;
}.

(** The body [session] posts. *)
Definition request (self : t) (method : string) (params : json) : json :=
  JObject {[ "method" := JString method; "params" := params;
             "token" := key_attr self ]}.

(** [self.session(method, params)] *)
Definition session (self : t) (method : string) (params : json)
  : remote_outcome json :=
  res ← of_outcome (requests_post_json (host self) (request self method params));
  status_code ← of_outcome (json_get res "status_code" JNull);
  if negb (match status_code with JNumber n => bool_decide (n = 200) | _ => false end)
  then
    status_code ← of_outcome (json_subscript res "status_code");
    message ← of_outcome (json_subscript res "message");
    ApiError status_code message
  else of_outcome (json_subscript res "message").

(** [if isinstance(x, bytes): x = base64.b64encode(x).decode()] *)
Definition encode_if_bytes (x : str_or_bytes) : string :=
  match x with
  | Str s => s
  | Bytes x => b64encode x
  end.

Definition set_service_certificate (certificate : str_or_bytes) (s : Session)
  : bool * Session :=
  (true,
   {| pssh := pssh s; raw := raw s; offline := offline s;
      privacy_mode := true;
      signed_device_certificate := JString (encode_if_bytes certificate);
      keys := keys s |}).

(** [base64.b64decode(value)] on an object of the answer. *)
Definition json_b64decode (value : json) : outcome bytes :=
  match value with
  | JString s => of_option (b64decode s) (LibraryError "binascii.Error")
  | _ => Raises (LibraryError "TypeError: argument should be a bytes-like object or ASCII string")
  end.

(** [session.pssh] as the text that is sent. *)
Definition pssh_text (s : Session) : remote_outcome string :=
  match pssh s with
  | PsshBox box => x ← of_outcome (Box_build box); Done (b64encode x)
  | PsshBytes x => Done (b64encode x)
  | PsshText text => Done text
  end.

(** The parameters of the [GetChallenge] call. *)
Definition challenge_params (self : t) (s : Session) (init : string) : json :=
  JObject {[ "init" := JString init;
             "cert" := signed_device_certificate s;
             "raw" := JBool (raw s);
             "licensetype" := JString (if offline s then "OFFLINE" else "STREAMING");
             "device" := device self ]}.

(** [self.api_session_id = v] *)
Definition set_api_session_id (v : json) (self : t) : t :=
  {| host := host self; key_attr := key_attr self; device := device self;
     api_session_id := v |}.

(** [get_license_challenge(session)]: the result, and the device with its
    [api_session_id] as the call leaves it. *)
Definition get_license_challenge (self : t) (s : Session)
  : remote_outcome bytes * t :=
  match (init ← pssh_text s;
         session self "GetChallenge" (challenge_params self s init)) with
  | Done res =>
      match json_subscript res "session_id" with
      | Returns session_id =>
          (challenge ← of_outcome (json_subscript res "challenge");
           of_outcome (json_b64decode challenge),
           set_api_session_id session_id self)
      | Raises e => (Escapes e, self)
      end
  | ApiError status_code message => (ApiError status_code message, self)
  | Escapes e => (Escapes e, self)
  end.

(** [bytes.fromhex(x[name])] *)
Definition fromhex_field (x : json) (name : string) : outcome bytes :=
  value ← json_subscript x name;
  match value with
  | JString s => of_option (bytes_fromhex s) (LibraryError "ValueError: fromhex")
  | _ => Raises (LibraryError "TypeError: fromhex() argument must be str")
  end.

(** The [Key(...)] expression of the comprehension. *)
Definition key_of_entry (x : json) : outcome Key :=
  kid ← fromhex_field x "kid";
  key_type ← json_get x "type" (JString "CONTENT");
  key ← fromhex_field x "key";
  Returns {| kid := kid; key_type := key_type; key := key |}.

(** The elements that [for x in res["keys"]] goes through.  Iterating a
    non-empty object or text gives strings, on the first of which [x["kid"]]
    raises [TypeError]; that is the outcome given here. *)
Definition iterate (value : json) : outcome (list json) :=
  match value with
  | JArray l => Returns l
  | JObject o =>
      if bool_decide (o = ∅) then Returns []
      else Raises (LibraryError "TypeError: string indices must be integers")
  | JString s =>
      if bool_decide (s = EmptyString) then Returns []
      else Raises (LibraryError "TypeError: string indices must be integers")
  | _ => Raises (LibraryError "TypeError: object is not iterable")
  end.

(** The parameters of the [GetKeys] call. *)
Definition keys_params (self : t) (license_res : str_or_bytes) : json :=
  JObject {[ "cdmkeyresponse" := JString (encode_if_bytes license_res);
             "session_id" := api_session_id self ]}.

(** [session.keys.extend(l)] *)
Definition keys_extend (l : list Key) (s : Session) : Session :=
  {| pssh := pssh s; raw := raw s; offline := offline s;
     privacy_mode := privacy_mode s;
     signed_device_certificate := signed_device_certificate s;
     keys := keys s ++ l |}.

(** The list the comprehension of [parse_license] builds. *)
Definition new_keys (self : t) (license_res : str_or_bytes)
  : remote_outcome (list Key) :=
  res ← session self "GetKeys" (keys_params self license_res);
  entries ← of_outcome (keys ← json_subscript res "keys"; iterate keys);
  of_outcome (comprehension key_of_entry entries).

Definition parse_license (self : t) (license_res : str_or_bytes) (s : Session)
  : remote_outcome bool * Session :=
  match new_keys self license_res with
  | Done l => (Done true, keys_extend l s)
  | ApiError status_code message => (ApiError status_code message, s)
  | Escapes e => (Escapes e, s)
  end.

End RemoteDevice.
End RemoteDevice.

(** ** Facts about exceptions *)

Lemma obind_returns {A B} (x : outcome A) (k : A → outcome B) (y : B) :
  obind x k = Returns y → ∃ a, x = Returns a ∧ k a = Returns y.
Proof. destruct x as [a|e]; [by exists a|done]. Qed.

(** ** Facts about contiguous occurrence *)

(** Contiguous occurrence is kept by writing more around it. *)
Lemma occurs_in_refl (x : bytes) : occurs_in x x.
Proof. exists [], []. by rewrite app_nil_r. Qed.

Lemma occurs_in_app_r (x pre hay : bytes) : occurs_in x hay → occurs_in x (pre ++ hay).
Proof.
  intros (p & q & ->). exists (pre ++ p), q. by rewrite <- app_assoc.
Qed.

Lemma occurs_in_app_l (x hay post : bytes) : occurs_in x hay → occurs_in x (hay ++ post).
Proof.
  intros (p & q & ->). exists p, (q ++ post). by rewrite <- !app_assoc.
Qed.

Lemma occurs_in_cons (x : bytes) c hay : occurs_in x hay → occurs_in x (c :: hay).
Proof. apply (occurs_in_app_r x [c]). Qed.

Lemma occurs_in_trans (x y z : bytes) : occurs_in x y → occurs_in y z → occurs_in x z.
Proof.
  intros (p & q & ->) (p' & q' & ->).
  exists (p' ++ p), (q ++ q'). by rewrite <- !app_assoc.
Qed.

(** ** An executable instance of the interfaces

    A stand-in for the libraries, small enough to evaluate, on which the
    model is run at concrete inputs.  The block functions are byte-wise
    exclusive-or constructions, not AES, SHA or RSA; the message codec is a
    length-prefixed field list, not the protobuf wire format.  Every theorem
    below is stated for all instances. *)

Module Sample.

Definition xor_byte (x y : byte) : byte :=
  match Byte.of_N (N.lxor (Byte.to_N x) (Byte.to_N y)) with
  | Some c => c
  | None => x00
  end.

Definition fold_xor (x : bytes) : byte := foldr xor_byte x00 x.

(** A tag of [n] bytes: byte [i] mixes the key, the message and [i]. *)
Definition tag (n : nat) (k m : bytes) : bytes :=
  (λ i, xor_byte (fold_xor k) (xor_byte (fold_xor m) (bchr i))) <$> seq 0 n.

(** Exclusive-or with a key stream: byte [i] of the stream mixes the key,
    the IV and [i].  It is its own inverse. *)
Definition stream_xor (k iv data : bytes) : bytes :=
  zip_with xor_byte data
    ((λ i, xor_byte (xor_byte (fold_xor k) (fold_xor iv)) (bchr (7 * i + 90)))
       <$> seq 0 (length data)).

Lemma length_tag n k m : length (tag n k m) = n.
Proof. unfold tag. by rewrite length_fmap, length_seq. Qed.

#[export] Instance crypto : Cryptodome := {|
  RsaKey := bytes;
  RSA_importKey := λ k, if bool_decide (head k = Some x30) then Some k else None;
  RsaKey_export_key_DER := λ k, k;
  PKCS1_OAEP_encrypt := λ k rand m, Some (rand 1%nat ++ stream_xor k [] m);
  PKCS1_OAEP_decrypt := λ k c,
    match c with _ :: c' => Some (stream_xor k [] c') | [] => None end;
  pss_sign := λ k rand digest, Some (tag 8 k (rand 1%nat ++ digest));
  pss_EMSA_PSS_ENCODE := λ digest _ rand _, Some (rand 1%nat ++ digest);
  SHA1 := tag 20 [];
  HMAC_SHA256 := tag 32;
  AES_CMAC := tag 16;
  AES_CBC_encrypt := stream_xor;
  AES_CBC_decrypt := stream_xor;
  AES_CMAC_digest_size := length_tag 16;
|}.

(** Base64 with the standard alphabet and padding. *)
Definition b64_value (c : byte) : option N :=
  let n := Byte.to_N c in
  if (65 <=? n)%N && (n <=? 90)%N then Some (n - 65)%N
  else if (97 <=? n)%N && (n <=? 122)%N then Some (n - 71)%N
  else if (48 <=? n)%N && (n <=? 57)%N then Some (n + 4)%N
  else if (n =? 43)%N then Some 62%N
  else if (n =? 47)%N then Some 63%N
  else None.

Definition byte_of_N (n : N) : byte :=
  match Byte.of_N (n mod 256) with Some c => c | None => x00 end.

(** One group of four characters; [=] may close the last group. *)
Definition b64_group (c0 c1 c2 c3 : byte) (last : bool) : option bytes :=
  v0 ← b64_value c0; v1 ← b64_value c1;
  if bool_decide (c3 = x3d) && last then
    if bool_decide (c2 = x3d) then Some [byte_of_N (v0 * 4 + v1 / 16)]
    else v2 ← b64_value c2;
         Some [byte_of_N (v0 * 4 + v1 / 16); byte_of_N (v1 * 16 + v2 / 4)]
  else
    v2 ← b64_value c2; v3 ← b64_value c3;
    Some [byte_of_N (v0 * 4 + v1 / 16); byte_of_N (v1 * 16 + v2 / 4);
          byte_of_N (v2 * 64 + v3)].

Fixpoint b64_groups (x : bytes) : option bytes :=
  match x with
  | [] => Some []
  | c0 :: c1 :: c2 :: c3 :: x' =>
      g ← b64_group c0 c1 c2 c3 (negb (nonempty x'));
      rest ← b64_groups x';
      Some (g ++ rest)
  | _ => None
  end.

#[export] Instance environment : Environment := {|
  b64decode := λ s, b64_groups (lit s);
  utf8_decodable := forallb (λ c, (Byte.to_N c <? 128)%N);
  cdmapi_supported := false;
  cdmapi_encrypt := λ _, None;
  cdmapi_decrypt := λ _, None;
|}.

(** Length-prefixed fields: one length byte, then that many bytes. *)
Definition field (x : bytes) : bytes := bchr (length x) :: x.

Fixpoint fields_fuel (fuel : nat) (x : bytes) : option (list bytes) :=
  match fuel, x with
  | _, [] => Some []
  | O, _ :: _ => None
  | S fuel', n :: x' =>
      let n := Byte.to_nat n in
      if bool_decide (n ≤ length x')%nat then
        rest ← fields_fuel fuel' (drop n x');
        Some (take n x' :: rest)
      else None
  end.
Definition fields (x : bytes) : option (list bytes) := fields_fuel (length x) x.

#[export] Instance messages : pb2_messages := {|
  ClientIdentification := bytes;
  FileHashes := bytes;
  WidevineCencHeader := bytes;
  License := bytes;
  KeyType := string;
|}.

(** Permission fields: name and one value byte, alternating. *)
Fixpoint permission_fields (l : list bytes) : list (string * Z) :=
  match l with
  | name :: [v] :: l' =>
      (String.string_of_list_byte name, Z.of_N (Byte.to_N v)) :: permission_fields l'
  | _ => []
  end.

Definition decode_key_container (x : bytes) : option KeyContainer :=
  l ← fields x;
  match l with
  | id :: iv :: k :: ty :: perms =>
      Some {| kc_Id := id; kc_Iv := iv; kc_Key := k;
              kc_Type := String.string_of_list_byte ty;
              kc_OperatorSessionKeyPermissions := permission_fields perms |}
  | _ => None
  end.

Definition decode_license_keys (msg : bytes) : list KeyContainer :=
  match fields msg with
  | Some l => omap decode_key_container l
  | None => []
  end.

Definition decode_signed_license (x : bytes) : option SignedLicense :=
  l ← fields x;
  match l with
  | [msg; signature; session_key] =>
      Some {| sl_Msg := msg; sl_Signature := signature; sl_SessionKey := session_key |}
  | _ => None
  end.

Definition decode_signed_message (x : bytes) : option SignedMessage :=
  l ← fields x;
  match l with
  | [msg; _] => Some {| sm_Msg := msg |}
  | _ => None
  end.

Definition decode_signed_device_certificate (x : bytes) : option SignedDeviceCertificate :=
  l ← fields x;
  match l with
  | [serial; public; service] =>
      Some {| sdc_DeviceCertificate :=
                {| dc_SerialNumber := serial; dc_PublicKey := public;
                   dc_ServiceId := service |} |}
  | _ => None
  end.

Definition pssh_bytes (p : cenc_header) : bytes :=
  match p with PsshBytes x => x | PsshMessage h => h end.

Definition encrypted_client_id (e : EncryptedClientIdentification) : bytes :=
  field (eci_ServiceId e) ++ field (eci_ServiceCertificateSerialNumber e)
  ++ field (eci_EncryptedClientId e) ++ field (eci_EncryptedClientIdIv e)
  ++ field (eci_EncryptedPrivacyKey e).

Definition license_request_bytes (m : LicenseRequest) : bytes :=
  match lr_ClientId m with Some c => x0a :: field c | None => [] end
  ++ x12 :: field (pssh_bytes (lr_Pssh m))
  ++ [x18; match lr_LicenseType m with DEFAULT => x01 | OFFLINE => x02 end]
  ++ x22 :: field (lr_RequestId m)
  ++ x28 :: field [byte_of_Z (lr_RequestTime m)]
  ++ match lr_KeyControlNonce m with
     | Some n => x38 :: field [byte_of_Z n]
     | None => []
     end
  ++ match lr_EncryptedClientId m with
     | Some e => x42 :: encrypted_client_id e
     | None => []
     end.

Definition signed_license_request_bytes (r : SignedLicenseRequest) : bytes :=
  x08 :: x01 :: x12 :: license_request_bytes (slr_Msg r) ++ x1a :: field (slr_Signature r).

Lemma occurs_in_field (x : bytes) : occurs_in x (field x).
Proof. apply occurs_in_cons, occurs_in_refl. Qed.

Lemma request_id_occurs r :
  occurs_in (lr_RequestId (slr_Msg r)) (signed_license_request_bytes r).
Proof.
  unfold signed_license_request_bytes, license_request_bytes.
  do 3 apply occurs_in_cons. apply occurs_in_app_l.
  apply occurs_in_app_r, occurs_in_cons, occurs_in_app_r.
  apply occurs_in_app_r, occurs_in_cons, occurs_in_app_l, occurs_in_field.
Qed.

Lemma client_id_occurs r (c : bytes) :
  lr_ClientId (slr_Msg r) = Some c → occurs_in c (signed_license_request_bytes r).
Proof.
  intros Hc. unfold signed_license_request_bytes, license_request_bytes.
  rewrite Hc. do 3 apply occurs_in_cons. do 2 apply occurs_in_app_l.
  apply occurs_in_cons, occurs_in_field.
Qed.

Lemma encrypted_client_id_occurs r e :
  lr_EncryptedClientId (slr_Msg r) = Some e →
  occurs_in (encrypted_client_id e) (signed_license_request_bytes r).
Proof.
  intros He. unfold signed_license_request_bytes, license_request_bytes.
  rewrite He. do 3 apply occurs_in_cons. apply occurs_in_app_l.
  apply occurs_in_app_r, occurs_in_cons, occurs_in_app_r.
  apply occurs_in_app_r, occurs_in_cons, occurs_in_app_r.
  apply occurs_in_cons, occurs_in_app_r, occurs_in_app_r.
  apply occurs_in_cons, occurs_in_refl.
Qed.

Lemma service_id_occurs r e :
  lr_EncryptedClientId (slr_Msg r) = Some e →
  occurs_in (eci_ServiceId e) (signed_license_request_bytes r).
Proof.
  intros He. eapply occurs_in_trans; [|by apply encrypted_client_id_occurs].
  unfold encrypted_client_id. apply occurs_in_app_l, occurs_in_field.
Qed.

Lemma serial_number_occurs r e :
  lr_EncryptedClientId (slr_Msg r) = Some e →
  occurs_in (eci_ServiceCertificateSerialNumber e) (signed_license_request_bytes r).
Proof.
  intros He. eapply occurs_in_trans; [|by apply encrypted_client_id_occurs].
  unfold encrypted_client_id. apply occurs_in_app_r, occurs_in_app_l, occurs_in_field.
Qed.

#[export] Instance codec : pb2_codec := {|
  ClientIdentification_ParseFromString := λ x, Some x;
  ClientIdentification_SerializeToString := λ c, c;
  ClientIdentification_FileHashes_CopyFrom := λ c v, c ++ x52 :: field v;
  ClientIdentification_SystemId := λ c, Z.of_nat (length c);
  FileHashes_new := [];
  FileHashes_ParseFromString := λ x, Some x;
  FileHashes_SerializeToString := λ v, v;
  SignedMessage_ParseFromString := decode_signed_message;
  SignedDeviceCertificate_ParseFromString := decode_signed_device_certificate;
  SignedLicense_ParseFromString := decode_signed_license;
  License_Key := decode_license_keys;
  License_SerializeToString := λ m, m;
  KeyType_Name := λ ty, ty;
  LicenseRequest_SerializeToString := license_request_bytes;
  SignedLicenseRequest_SerializeToString := signed_license_request_bytes;
  wire_RequestId := request_id_occurs;
  wire_ClientId := client_id_occurs;
  wire_ServiceId := service_id_occurs;
  wire_ServiceCertificateSerialNumber := serial_number_occurs;
|}.
End Sample.

(** Two equations for the same call: keep one, and use what the other adds. *)
Ltac same_call :=
  repeat match goal with
         | H1 : ?x = ?a, H2 : ?x = ?c |- _ =>
             first [ constr_eq a c; clear H2
                   | rewrite H1 in H2; simplify_eq ]
         end.

(** * Properties of [LocalDevice.parse_license] *)

Section ParseLicense.
Context `{Cryptodome, Environment, pb2_messages, !pb2_codec}.
Import LocalDevice.

#[local] Arguments enc_key_base : simpl never.
#[local] Arguments auth_key_base : simpl never.

(** The three derived keys as the protocol description gives them: CMAC
    under the session key of one index byte followed by the context. *)
Definition kdf_enc (session_key license_req_msg : bytes) : bytes :=
  AES_CMAC session_key ([x01] ++ enc_key_base license_req_msg).
Definition kdf_auth_1 (session_key license_req_msg : bytes) : bytes :=
  AES_CMAC session_key ([x01] ++ auth_key_base license_req_msg)
  ++ AES_CMAC session_key ([x02] ++ auth_key_base license_req_msg).
Definition kdf_auth_2 (session_key license_req_msg : bytes) : bytes :=
  AES_CMAC session_key ([x03] ++ auth_key_base license_req_msg)
  ++ AES_CMAC session_key ([x04] ++ auth_key_base license_req_msg).

(** The session once the three [derived_keys] entries are assigned. *)
Definition after_derivation (sl : SignedLicense) (sk msg : bytes) (s : Session)
  : Session :=
  set_derived_key "auth_2" (kdf_auth_2 sk msg)
    (set_derived_key "auth_1" (kdf_auth_1 sk msg)
       (set_derived_key "enc" (kdf_enc sk msg)
          (set_session_key (Some sk) (set_signed_license (Some sl) s)))).

(** [session.keys.extend(l)] *)
Definition keys_extend (l : list Key) (s : Session) : Session :=
  {| session_id := session_id s; session_cenc_header := session_cenc_header s;
     raw := raw s; offline := offline s; privacy_mode := privacy_mode s;
     signed_device_certificate := signed_device_certificate s;
     license_request := license_request s;
     signed_license := signed_license s; session_key := session_key s;
     derived_keys := derived_keys s; keys := keys s ++ l |}.

Lemma keys_extend_nil s : keys_extend [] s = s.
Proof. destruct s. unfold keys_extend. cbn. by rewrite app_nil_r. Qed.

Lemma keys_extend_cons k l s : keys_extend l (keys_append k s) = keys_extend (k :: l) s.
Proof. unfold keys_extend, keys_append. cbn. by rewrite <- app_assoc. Qed.

Lemma get_auth_keys_one (i : Z) (c : byte) k b0 :
  AES_key_size_ok k = true → struct_pack_B i = Returns [c] →
  get_auth_keys [i] k b0 = Returns (AES_CMAC k ([c] ++ b0)).
Proof.
  intros Hk Hp. unfold get_auth_keys, get_auth_keys_single. cbn.
  by rewrite Hk, Hp.
Qed.

Lemma get_auth_keys_two (i j : Z) (c d : byte) k b0 :
  AES_key_size_ok k = true →
  struct_pack_B i = Returns [c] → struct_pack_B j = Returns [d] →
  get_auth_keys [i; j] k b0
  = Returns (AES_CMAC k ([c] ++ b0) ++ AES_CMAC k ([d] ++ b0)).
Proof.
  intros Hk Hi Hj. unfold get_auth_keys, get_auth_keys_single. cbn.
  rewrite Hk, Hi, Hj. cbn. by rewrite app_nil_r.
Qed.

Lemma get_auth_keys_bad_key (i : Z) k b0 :
  AES_key_size_ok k = false →
  get_auth_keys [i] k b0 = Raises (LibraryError "ValueError: Incorrect AES key length").
Proof.
  intros Hk. unfold get_auth_keys, get_auth_keys_single. cbn. by rewrite Hk.
Qed.

Lemma comprehension_length {A B} (f : A → outcome B) xs ys :
  comprehension f xs = Returns ys → length ys = length xs.
Proof.
  revert ys. induction xs as [|x xs IH]; intros ys; cbn.
  - by intros [= <-].
  - destruct (f x); cbn; [|done].
    destruct (comprehension f xs) as [ys'|]; cbn; [|done].
    intros [= <-]. cbn. by rewrite (IH ys').
Qed.


(** An exception that leaves the key loop comes from a library call. *)
Lemma container_key_raises enc k e :
  container_key enc k = Raises e → ∃ origin, e = LibraryError origin.
Proof.
  unfold container_key, AES_new_CBC_decrypt, unpad. cbn.
  repeat (case_match; cbn); intros [= <-]; eauto.
Qed.

Lemma parse_license_key_step k (s : Session) enc :
  derived_keys s !! "enc" = Some enc →
  parse_license_key k s =
    match container_key enc k with
    | Returns k' => (Returns tt, keys_append k' s)
    | Raises e => (Raises e, s)
    end.
Proof.
  intros Henc. unfold parse_license_key, mbind, M_bind, bind, get, lift, modify.
  rewrite Henc. cbn. by destruct (container_key enc k).
Qed.

(** The key loop: the keys of the containers that decrypt are appended in
    order; the loop stops at the first container that does not. *)
Lemma for_each_parse_license_key ks : ∀ (s : Session) enc,
  derived_keys s !! "enc" = Some enc →
  ∃ l, (for_each ks parse_license_key s).2 = keys_extend l s ∧
    match (for_each ks parse_license_key s).1 with
    | Returns _ => comprehension (container_key enc) ks = Returns l
    | Raises e =>
        comprehension (container_key enc) (take (length l) ks) = Returns l ∧
        ∃ c, ks !! length l = Some c ∧ container_key enc c = Raises e
    end.
Proof.
  induction ks as [|k ks IH]; intros s enc Henc.
  - exists []. cbn. by rewrite keys_extend_nil.
  - cbn [for_each]. unfold bind. rewrite (parse_license_key_step k s enc Henc).
    destruct (container_key enc k) as [k'|e] eqn:Hk.
    + destruct (IH (keys_append k' s) enc Henc) as (l & Hs & Hr).
      exists (k' :: l). rewrite Hs, keys_extend_cons. split; [done|].
      destruct (for_each ks parse_license_key (keys_append k' s)).1 as [[]|e].
      * cbn. by rewrite Hk, Hr.
      * destruct Hr as (Hpre & c & Hc & He). cbn. rewrite Hk. cbn. rewrite Hpre.
        split; [done|]. by exists c.
    + exists []. rewrite keys_extend_nil. split; [done|]. cbn.
      split; [done|]. by exists k.
Qed.

Lemma after_derivation_enc sl sk msg (s : Session) :
  derived_keys (after_derivation sl sk msg s) !! "enc" = Some (kdf_enc sk msg).
Proof.
  unfold after_derivation. cbn.
  by rewrite 2!lookup_insert_ne, lookup_insert_eq by done.
Qed.

Lemma after_derivation_auth_1 sl sk msg (s : Session) :
  derived_keys (after_derivation sl sk msg s) !! "auth_1" = Some (kdf_auth_1 sk msg).
Proof.
  unfold after_derivation. cbn.
  by rewrite lookup_insert_ne, lookup_insert_eq by done.
Qed.

Lemma after_derivation_auth_2 sl sk msg (s : Session) :
  derived_keys (after_derivation sl sk msg s) !! "auth_2" = Some (kdf_auth_2 sk msg).
Proof. unfold after_derivation. cbn. by rewrite lookup_insert_eq. Qed.

Lemma recover_session_key_raises self sl e :
  recover_session_key self sl = Raises e → ∃ origin, e = LibraryError origin.
Proof.
  unfold recover_session_key, of_option.
  repeat case_match; intros [= <-]; eauto.
Qed.

Lemma decode_if_str_raises arg e :
  decode_if_str arg = Raises e → ∃ origin, e = LibraryError origin.
Proof.
  unfold decode_if_str, of_option. repeat case_match; intros [= <-]; eauto.
Qed.

(** Every run of [parse_license] follows one of eight paths: the argument
    checks, the recovery of the session key, the key derivation, the
    signature check, and the key loop, which either runs to its end or stops
    at the first container that does not decrypt. *)
Inductive parse_license_run (self : t) (arg : str_or_bytes) (s : Session)
  : outcome bool * Session → Prop :=
| run_no_pending_request :
    license_request s = None →
    parse_license_run self arg s (Raises NoPendingRequest, s)
| run_not_base64 req origin :
    license_request s = Some req →
    decode_if_str arg = Raises (LibraryError origin) →
    parse_license_run self arg s (Raises (LibraryError origin), s)
| run_malformed_response req res :
    license_request s = Some req →
    decode_if_str arg = Returns res →
    SignedLicense_ParseFromString res = None →
    parse_license_run self arg s (Raises (MalformedResponse res), s)
| run_no_session_key req res sl origin :
    license_request s = Some req →
    decode_if_str arg = Returns res →
    SignedLicense_ParseFromString res = Some sl →
    recover_session_key self sl = Raises (LibraryError origin) →
    parse_license_run self arg s
      (Raises (LibraryError origin), set_signed_license (Some sl) s)
| run_bad_session_key req res sl sk :
    license_request s = Some req →
    decode_if_str arg = Returns res →
    SignedLicense_ParseFromString res = Some sl →
    recover_session_key self sl = Returns sk →
    AES_key_size_ok sk = false →
    parse_license_run self arg s
      (Raises (LibraryError "ValueError: Incorrect AES key length"),
       set_session_key (Some sk) (set_signed_license (Some sl) s))
| run_signature_mismatch req res sl sk :
    license_request s = Some req →
    decode_if_str arg = Returns res →
    SignedLicense_ParseFromString res = Some sl →
    recover_session_key self sl = Returns sk →
    AES_key_size_ok sk = true →
    HMAC_SHA256 (kdf_auth_1 sk (LicenseRequest_SerializeToString (slr_Msg req)))
      (License_SerializeToString (sl_Msg sl)) ≠ sl_Signature sl →
    parse_license_run self arg s
      (Raises SignatureMismatch,
       after_derivation sl sk (LicenseRequest_SerializeToString (slr_Msg req)) s)
| run_keys_returned req res sl sk l :
    license_request s = Some req →
    decode_if_str arg = Returns res →
    SignedLicense_ParseFromString res = Some sl →
    recover_session_key self sl = Returns sk →
    AES_key_size_ok sk = true →
    HMAC_SHA256 (kdf_auth_1 sk (LicenseRequest_SerializeToString (slr_Msg req)))
      (License_SerializeToString (sl_Msg sl)) = sl_Signature sl →
    comprehension
      (container_key (kdf_enc sk (LicenseRequest_SerializeToString (slr_Msg req))))
      (License_Key (sl_Msg sl)) = Returns l →
    parse_license_run self arg s
      (Returns true,
       keys_extend l
         (after_derivation sl sk (LicenseRequest_SerializeToString (slr_Msg req)) s))
| run_keys_raised req res sl sk l c origin :
    license_request s = Some req →
    decode_if_str arg = Returns res →
    SignedLicense_ParseFromString res = Some sl →
    recover_session_key self sl = Returns sk →
    AES_key_size_ok sk = true →
    HMAC_SHA256 (kdf_auth_1 sk (LicenseRequest_SerializeToString (slr_Msg req)))
      (License_SerializeToString (sl_Msg sl)) = sl_Signature sl →
    comprehension
      (container_key (kdf_enc sk (LicenseRequest_SerializeToString (slr_Msg req))))
      (take (length l) (License_Key (sl_Msg sl))) = Returns l →
    License_Key (sl_Msg sl) !! length l = Some c →
    container_key (kdf_enc sk (LicenseRequest_SerializeToString (slr_Msg req))) c
    = Raises (LibraryError origin) →
    parse_license_run self arg s
      (Raises (LibraryError origin),
       keys_extend l
         (after_derivation sl sk (LicenseRequest_SerializeToString (slr_Msg req)) s)).

Lemma parse_license_runs self arg s :
  parse_license_run self arg s (parse_license self arg s).
Proof.
  unfold parse_license, mbind, M_bind, bind, get, lift, modify.
  destruct (license_request s) as [req|] eqn:Hreq; [|by constructor].
  destruct (decode_if_str arg) as [res|e] eqn:Harg.
  2:{ destruct (decode_if_str_raises _ _ Harg) as [origin ->]. by econstructor. }
  cbn. destruct (SignedLicense_ParseFromString res) as [sl|] eqn:Hsl;
    [|by econstructor].
  cbn. destruct (recover_session_key self sl) as [sk|e] eqn:Hsk.
  2:{ destruct (recover_session_key_raises _ _ _ Hsk) as [origin ->].
      by econstructor. }
  destruct (AES_key_size_ok sk) eqn:Hk.
  2:{ rewrite get_auth_keys_bad_key by done. by econstructor. }
  rewrite (get_auth_keys_one 1 x01), (get_auth_keys_two 1 2 x01 x02),
    (get_auth_keys_two 3 4 x03 x04) by done.
  cbn. rewrite lookup_insert_ne by done. rewrite lookup_insert_eq. cbn.
  set (msg := LicenseRequest_SerializeToString (slr_Msg req)).
  case_bool_decide as Hsig; cbn; [|by econstructor].
  match goal with
  | |- context [for_each ?ks ?f ?st] => change st with (after_derivation sl sk msg s)
  end.
  destruct (for_each_parse_license_key (License_Key (sl_Msg sl))
              (after_derivation sl sk msg s) (kdf_enc sk msg)
              (after_derivation_enc sl sk msg s)) as (l & Hs & Hr).
  destruct (for_each (License_Key (sl_Msg sl)) parse_license_key
              (after_derivation sl sk msg s)) as [r s'].
  cbn in Hs, Hr. subst s'. destruct r as [[]|e].
  - by econstructor.
  - destruct Hr as (Hpre & c & Hc & He).
    destruct (container_key_raises _ _ _ He) as [origin ->]. by econstructor.
Qed.

(** Once the session key is recovered and has an AES key size, the run ends
    in the session with the three derived keys assigned, extended by the
    keys the loop appended (none when the signature check fails). *)
Lemma parse_license_reaches_derivation self arg (s : Session) req res sl sk :
  license_request s = Some req →
  decode_if_str arg = Returns res →
  SignedLicense_ParseFromString res = Some sl →
  recover_session_key self sl = Returns sk →
  AES_key_size_ok sk = true →
  ∃ l, (parse_license self arg s).2
       = keys_extend l
           (after_derivation sl sk (LicenseRequest_SerializeToString (slr_Msg req)) s).
Proof.
  intros Hreq Harg Hsl Hsk Hk.
  pose proof (parse_license_runs self arg s) as Hrun.
  inversion Hrun; same_call.
  - exists []. by rewrite keys_extend_nil.
  - by eexists.
  - by eexists.
Qed.

Lemma AES_CMAC_is_AES_key k m : AES_key_size_ok (AES_CMAC k m) = true.
Proof. unfold AES_key_size_ok. by rewrite AES_CMAC_digest_size. Qed.

(** C6: on a session for which no license request was ever built
    ([license_request] is unset), [parse_license] raises the
    no-pending-request error whatever the response argument is, and leaves
    the session as it was. *)
Theorem parse_license_no_pending_request self license_res (session : Session) :
  license_request session = None →
  parse_license self license_res session = (Raises NoPendingRequest, session).
Proof.
  intros Hreq. unfold parse_license, mbind, M_bind, bind, get.
  by rewrite Hreq.
Qed.

(** C1: when the signature carried by the response differs from
    HMAC-SHA256, keyed by the derived [auth_1] key, of the response's inner
    message bytes, [parse_license] raises the signature-mismatch error and
    [session.keys] is exactly what it was before the call. *)
Theorem parse_license_signature_mismatch self license_res (session : Session)
    req res sl sk :
  license_request session = Some req →
  decode_if_str license_res = Returns res →
  SignedLicense_ParseFromString res = Some sl →
  recover_session_key self sl = Returns sk →
  AES_key_size_ok sk = true →
  sl_Signature sl
  ≠ HMAC_SHA256 (kdf_auth_1 sk (LicenseRequest_SerializeToString (slr_Msg req)))
      (License_SerializeToString (sl_Msg sl)) →
  (parse_license self license_res session).1 = Raises SignatureMismatch
  ∧ keys (parse_license self license_res session).2 = keys session.
Proof.
  intros Hreq Harg Hsl Hsk Hk Hsig.
  pose proof (parse_license_runs self license_res session) as Hrun.
  inversion Hrun; same_call; done.
Qed.

(** C3: the three derived keys that [parse_license] assigns are CMAC values
    under the session key of an index byte followed by a context built from
    the serialized inner message of the pending request: [enc] from index 1
    over the ENCRYPTION context (16 bytes), [auth_1] from indices 1 and 2
    and [auth_2] from indices 3 and 4 over the AUTHENTICATION context (32
    bytes each).  They depend on nothing else: any other run, on whatever
    device, session and response, that recovers the same session key for a
    request with the same inner message bytes assigns the same three byte
    strings. *)
Theorem parse_license_derived_keys self license_res (session : Session)
    req res sl sk :
  license_request session = Some req →
  decode_if_str license_res = Returns res →
  SignedLicense_ParseFromString res = Some sl →
  recover_session_key self sl = Returns sk →
  AES_key_size_ok sk = true →
  let msg := LicenseRequest_SerializeToString (slr_Msg req) in
  let enc_context := lit "ENCRYPTION" ++ [x00] ++ msg ++ [x00; x00; x00; x80] in
  let auth_context := lit "AUTHENTICATION" ++ [x00] ++ msg ++ [x00; x00; x02; x00] in
  let d := derived_keys (parse_license self license_res session).2 in
  session_key (parse_license self license_res session).2 = Some sk
  ∧ d !! "enc" = Some (AES_CMAC sk ([x01] ++ enc_context))
  ∧ d !! "auth_1"
    = Some (AES_CMAC sk ([x01] ++ auth_context) ++ AES_CMAC sk ([x02] ++ auth_context))
  ∧ d !! "auth_2"
    = Some (AES_CMAC sk ([x03] ++ auth_context) ++ AES_CMAC sk ([x04] ++ auth_context))
  ∧ (∀ v, d !! "enc" = Some v → length v = 16%nat)
  ∧ (∀ v, d !! "auth_1" = Some v → length v = 32%nat)
  ∧ (∀ v, d !! "auth_2" = Some v → length v = 32%nat)
  ∧ (∀ self' license_res' (session' : Session) req' res' sl',
       license_request session' = Some req' →
       decode_if_str license_res' = Returns res' →
       SignedLicense_ParseFromString res' = Some sl' →
       recover_session_key self' sl' = Returns sk →
       LicenseRequest_SerializeToString (slr_Msg req') = msg →
       let d' := derived_keys (parse_license self' license_res' session').2 in
       d' !! "enc" = d !! "enc" ∧ d' !! "auth_1" = d !! "auth_1"
       ∧ d' !! "auth_2" = d !! "auth_2").
Proof.
  intros Hreq Harg Hsl Hsk Hk msg enc_context auth_context d.
  destruct (parse_license_reaches_derivation self license_res session req res sl sk)
    as (l & Hs); [done..|].
  assert (Hd : d = derived_keys (after_derivation sl sk msg session)).
  { unfold d. by rewrite Hs. }
  assert (Henc : d !! "enc" = Some (kdf_enc sk msg))
    by (rewrite Hd; apply after_derivation_enc).
  assert (Ha1 : d !! "auth_1" = Some (kdf_auth_1 sk msg))
    by (rewrite Hd; apply after_derivation_auth_1).
  assert (Ha2 : d !! "auth_2" = Some (kdf_auth_2 sk msg))
    by (rewrite Hd; apply after_derivation_auth_2).
  split; [by rewrite Hs|].
  split; [done|]. split; [done|]. split; [done|].
  split; [rewrite Henc; intros v [= <-]; apply AES_CMAC_digest_size|].
  split; [rewrite Ha1; intros v [= <-]; unfold kdf_auth_1;
          by rewrite length_app, !AES_CMAC_digest_size|].
  split; [rewrite Ha2; intros v [= <-]; unfold kdf_auth_2;
          by rewrite length_app, !AES_CMAC_digest_size|].
  intros self' license_res' session' req' res' sl' Hreq' Harg' Hsl' Hsk' Hmsg d'.
  destruct (parse_license_reaches_derivation self' license_res' session'
              req' res' sl' sk) as (l' & Hs'); [done..|].
  unfold d'. rewrite Hs', Hmsg. cbn [keys_extend derived_keys].
  by rewrite Henc, Ha1, Ha2, after_derivation_enc, after_derivation_auth_1,
    after_derivation_auth_2.
Qed.

(** X3: the sibling derivation [generate_derived_keys] of [Provision.py]
    yields the same three keys as [parse_license]. *)
Lemma generate_derived_keys_kdf msg sk :
  AES_key_size_ok sk = true →
  generate_derived_keys msg sk
  = Returns (kdf_enc sk msg, kdf_auth_1 sk msg, kdf_auth_2 sk msg).
Proof.
  intros Hk. unfold generate_derived_keys, CMAC_new_update_digest.
  rewrite Hk. reflexivity.
Qed.



Lemma container_key_returns enc c m :
  AES_key_size_ok enc = true →
  length (kc_Iv c) = 16%nat →
  (length (kc_Key c) mod 16 = 0)%nat →
  unpad (AES_CBC_decrypt enc (kc_Iv c) (kc_Key c)) 16 = Returns m →
  container_key enc c
  = Returns {| kid := if nonempty (kc_Id c) then kc_Id c
                      else lit (KeyType_Name (kc_Type c));
               key_type := KeyType_Name (kc_Type c);
               key := m;
               permissions := container_permissions (KeyType_Name (kc_Type c)) c |}.
Proof.
  intros Hk Hiv Hlen Hm. unfold container_key, AES_new_CBC_decrypt.
  rewrite Hk. cbn. rewrite !bool_decide_eq_true_2 by done. cbn.
  by rewrite Hm.
Qed.




(** C10: [set_service_certificate] and [parse_license] take their argument
    as [bytes] or as a base64 [str]; a string that decodes gives the same
    result and the same session as its decoded bytes passed directly. *)
Theorem str_argument_same_as_decoded_bytes self (text : string) (decoded : bytes)
    (session : Session) :
  b64decode text = Some decoded →
  set_service_certificate self (Str text) session
  = set_service_certificate self (Bytes decoded) session
  ∧ parse_license self (Str text) session
    = parse_license self (Bytes decoded) session.
Proof.
  intros Hdecode.
  assert (Hsame : decode_if_str (Str text) = decode_if_str (Bytes decoded))
    by (cbn; by rewrite Hdecode).
  unfold set_service_certificate, parse_license. by rewrite Hsame.
Qed.

(** The claim of atomicity, as the specification words it: after a failed
    [parse_license] none of [session_key], [derived_keys] and [keys] holds
    anything it did not hold before the call. *)
Definition parse_license_atomic (self : t) (arg : str_or_bytes) (s : Session) : Prop :=
  ∀ e s', parse_license self arg s = (Raises e, s') →
    session_key s' = session_key s
    ∧ derived_keys s' = derived_keys s
    ∧ keys s' = keys s.

(** C2, amended: [parse_license] assigns [session_key], then the three
    [derived_keys] entries, then checks the signature, then appends keys.
    When it returns, all three are populated: the session key is the one
    recovered from the response, the three derived keys are present, and one
    key per container has been appended.  When it fails before the session
    key is recovered (no pending request, malformed response) the session is
    untouched.  When it fails on the signature check, [keys] is untouched but
    [session_key] and the three [derived_keys] entries have been assigned and
    stay visible to the caller. *)
Theorem parse_license_session_state self arg (s : Session) r s' :
  parse_license self arg s = (r, s') →
  (r = Returns true →
     ∃ sl sk l,
       signed_license s' = Some sl
       ∧ recover_session_key self sl = Returns sk
       ∧ session_key s' = Some sk
       ∧ is_Some (derived_keys s' !! "enc")
       ∧ is_Some (derived_keys s' !! "auth_1")
       ∧ is_Some (derived_keys s' !! "auth_2")
       ∧ keys s' = keys s ++ l
       ∧ length l = length (License_Key (sl_Msg sl)))
  ∧ ((r = Raises NoPendingRequest ∨ ∃ x, r = Raises (MalformedResponse x)) → s' = s)
  ∧ (r = Raises SignatureMismatch →
       ∃ req sl sk,
         license_request s = Some req
         ∧ signed_license s' = Some sl
         ∧ recover_session_key self sl = Returns sk
         ∧ session_key s' = Some sk
         ∧ derived_keys s' !! "enc"
           = Some (kdf_enc sk (LicenseRequest_SerializeToString (slr_Msg req)))
         ∧ derived_keys s' !! "auth_1"
           = Some (kdf_auth_1 sk (LicenseRequest_SerializeToString (slr_Msg req)))
         ∧ derived_keys s' !! "auth_2"
           = Some (kdf_auth_2 sk (LicenseRequest_SerializeToString (slr_Msg req)))
         ∧ keys s' = keys s).
Proof.
  intros Hrun'. pose proof (parse_license_runs self arg s) as Hrun.
  rewrite Hrun' in Hrun. clear Hrun'.
  split; [|split].
  - intros ->. inversion Hrun; subst.
    eexists _, _, _. split; [done|]. split; [done|]. split; [done|].
    cbn [keys_extend derived_keys].
    rewrite after_derivation_enc, after_derivation_auth_1, after_derivation_auth_2.
    split; [done|]. split; [done|]. split; [done|]. split; [done|].
    by eapply comprehension_length.
  - intros [->|[x ->]]; by inversion Hrun.
  - intros ->. inversion Hrun; subst.
    eexists _, _, _. split; [done|]. split; [done|]. split; [done|]. split; [done|].
    rewrite after_derivation_enc, after_derivation_auth_1, after_derivation_auth_2.
    done.
Qed.
End ParseLicense.

(** * Properties of [LocalDevice.get_license_challenge] *)

Section GetLicenseChallenge.
Context `{Cryptodome, Environment, pb2_messages, !pb2_codec}.
Import LocalDevice.

Lemma starts_with_occurs (needle hay : bytes) :
  starts_with needle hay = true → ∃ post, hay = needle ++ post.
Proof.
  revert hay. induction needle as [|x needle IH]; intros hay; cbn.
  - intros _. by exists hay.
  - destruct hay as [|y hay]; [done|].
    intros [Hxy Hrest]%andb_prop. apply bool_decide_eq_true_1 in Hxy as ->.
    destruct (IH hay Hrest) as [post ->]. by exists post.
Qed.

(** The executable test [contains] is sound for [occurs_in]. *)
Lemma contains_occurs_in (hay needle : bytes) :
  contains hay needle = true → occurs_in needle hay.
Proof.
  induction hay as [|y hay IH]; cbn.
  - rewrite orb_false_r. intros [post ->]%starts_with_occurs. by exists [], post.
  - intros [Hhere|Hlater]%orb_prop.
    + apply starts_with_occurs in Hhere as [post ->]. by exists [], post.
    + by apply occurs_in_cons, IH.
Qed.

(** The flag test is a lookup in the [flags] dictionary. *)
Lemma send_key_control_nonce_true self :
  send_key_control_nonce self = true
  ↔ ∃ d : gmap string bool,
      flags self = Some d ∧ d !! "send_key_control_nonce" = Some true.
Proof.
  unfold send_key_control_nonce. split.
  - destruct (flags self) as [d|]; [|done].
    intros [_ Hflag]%andb_prop. exists d. split; [done|].
    destruct (d !! "send_key_control_nonce") as [[]|]; done.
  - intros (d & -> & Hd). rewrite Hd. cbn. rewrite andb_true_r.
    apply negb_true_iff, bool_decide_eq_false_2. intros ->.
    by rewrite lookup_empty in Hd.
Qed.

Lemma randrange_bounds w start stop :
  start < stop → start ≤ randrange w start stop < stop.
Proof.
  intros Hlt. unfold randrange.
  pose proof (Z.mod_pos_bound (random_draw w) (stop - start)). lia.
Qed.

Lemma encrypt_client_id_returns w cid (s : Session) e :
  encrypt_client_id w cid s = Returns e →
  ∃ certificate,
    signed_device_certificate s = Some certificate
    ∧ eci_ServiceId e = dc_ServiceId (sdc_DeviceCertificate certificate)
    ∧ eci_ServiceCertificateSerialNumber e
      = dc_SerialNumber (sdc_DeviceCertificate certificate)
    ∧ eci_EncryptedClientId e
      = AES_CBC_encrypt (get_random_bytes w 0 16%nat) (get_random_bytes w 1 16%nat)
          (pad (ClientIdentification_SerializeToString cid) 16)
    ∧ eci_EncryptedClientIdIv e = get_random_bytes w 1 16%nat.
Proof.
  unfold encrypt_client_id, AES_new_CBC_encrypt, of_option.
  destruct (signed_device_certificate s) as [certificate|]; [|done].
  cbn. repeat (case_match; cbn; try done).
  intros [= <-]. by exists certificate.
Qed.

(** What a returned challenge is: the serialization of the signed request
    that was stored on the session, whose fields are as follows. *)
Lemma get_license_challenge_returns self w (s : Session) challenge s' :
  get_license_challenge self w s = (Returns challenge, s') →
  ∃ cid req,
    client_id self = Some cid
    ∧ s' = set_license_request (Some req) s
    ∧ challenge = SignedLicenseRequest_SerializeToString req
    ∧ sign_request self w (LicenseRequest_SerializeToString (slr_Msg req))
      = Returns (slr_Signature req)
    ∧ lr_RequestId (slr_Msg req) = session_id s
    ∧ lr_LicenseType (slr_Msg req) = (if offline s then OFFLINE else DEFAULT)
    ∧ lr_RequestTime (slr_Msg req) = time_time w
    ∧ lr_KeyControlNonce (slr_Msg req)
      = (if send_key_control_nonce self then Some (randrange w 1 (2 ^ 31)) else None)
    ∧ (if privacy_mode s then
         lr_ClientId (slr_Msg req) = None
         ∧ ∃ e, encrypt_client_id w cid s = Returns e
                ∧ lr_EncryptedClientId (slr_Msg req) = Some e
       else
         lr_ClientId (slr_Msg req) = Some cid
         ∧ lr_EncryptedClientId (slr_Msg req) = None).
Proof.
  unfold get_license_challenge.
  destruct (client_id self) as [cid|]; [|done].
  destruct (negb (truthy (private_key self)) && negb cdmapi_supported); [done|].
  unfold mbind, M_bind, bind, get, lift, modify.
  destruct (raw s), (session_cenc_header s); cbn; try done.
  all: destruct (privacy_mode s) eqn:Hprivacy; cbn.
  all: try (destruct (encrypt_client_id w cid s) as [e|] eqn:He; cbn; [|done]).
  all: match goal with
       | |- context [sign_request ?d ?rnd ?m] =>
           destruct (sign_request d rnd m) as [sig|] eqn:Hsig; cbn; [|done]
       end.
  all: intros [= <- <-]; eexists cid, _; cbn; rewrite ?Hprivacy;
    repeat split; try done; eauto.
Qed.
Lemma encrypt_client_id_raises w cid (s : Session) e :
  encrypt_client_id w cid s = Raises e →
  e = MissingCertificate ∨ ∃ origin, e = LibraryError origin.
Proof.
  unfold encrypt_client_id, AES_new_CBC_encrypt, of_option.
  destruct (signed_device_certificate s); [|intros [= <-]; by left].
  cbn. repeat (case_match; cbn; try done); intros [= <-]; eauto.
Qed.

Lemma sign_request_raises self w m e :
  sign_request self w m = Raises e → ∃ origin, e = LibraryError origin.
Proof.
  unfold sign_request, of_option.
  repeat (case_match; cbn; try done); intros [= <-]; eauto.
Qed.

(** Past the two guards, the only exceptions are the missing certificate of
    the privacy branch and those of library calls. *)
Lemma get_license_challenge_raises self w (s : Session) cid e :
  client_id self = Some cid →
  negb (truthy (private_key self)) && negb cdmapi_supported = false →
  (get_license_challenge self w s).1 = Raises e →
  e = MissingCertificate ∨ ∃ origin, e = LibraryError origin.
Proof.
  intros Hcid Hguard. unfold get_license_challenge. rewrite Hcid, Hguard.
  unfold mbind, M_bind, bind, get, lift, modify.
  destruct (raw s), (session_cenc_header s); cbn; try (intros [= <-]; by eauto).
  all: destruct (privacy_mode s); cbn.
  all: try (destruct (encrypt_client_id w cid s) as [e0|e0] eqn:He; cbn;
            [|intros [= <-]; by eapply encrypt_client_id_raises]).
  all: match goal with
       | |- context [sign_request ?d ?rnd ?m] =>
           destruct (sign_request d rnd m) as [sig|e1] eqn:Hsig; cbn; [done|];
           intros [= <-]; right; by eapply sign_request_raises
       end.
Qed.



(** C8: the request that [get_license_challenge] builds carries a
    key-control nonce exactly when the device's [flags] dictionary has
    [send_key_control_nonce] set to true, and a nonce that is present lies in
    the interval from 1 inclusive to 2^31 exclusive; with the flag false or
    missing the field is absent. *)
Theorem get_license_challenge_nonce self w (s : Session) challenge s' :
  get_license_challenge self w s = (Returns challenge, s') →
  ∃ req,
    license_request s' = Some req
    ∧ challenge = SignedLicenseRequest_SerializeToString req
    ∧ (is_Some (lr_KeyControlNonce (slr_Msg req))
       ↔ ∃ d : gmap string bool,
           flags self = Some d ∧ d !! "send_key_control_nonce" = Some true)
    ∧ (∀ n, lr_KeyControlNonce (slr_Msg req) = Some n → 1 ≤ n < 2 ^ 31).
Proof.
  intros Hrun.
  destruct (get_license_challenge_returns self w s challenge s' Hrun)
    as (cid & req & _ & -> & -> & _ & _ & _ & _ & Hnonce & _).
  exists req. split; [done|]. split; [done|].
  rewrite Hnonce, <- send_key_control_nonce_true.
  destruct (send_key_control_nonce self); split.
  - split; [done|]. by eexists.
  - intros n [= <-]. by apply randrange_bounds.
  - split; [by intros [? ?]|done].
  - done.
Qed.

(** The privacy claim as the specification words it: the challenge of a
    privacy-mode session nowhere contains the serialized client
    identification. *)
Definition privacy_hides_client_id_claim (self : t) (w : World) (s : Session)
  : Prop :=
  privacy_mode s = true →
  ∀ cid challenge s',
    client_id self = Some cid →
    get_license_challenge self w s = (Returns challenge, s') →
    ¬ occurs_in (ClientIdentification_SerializeToString cid) challenge.

(** The session id is written into every challenge. *)
Lemma challenge_contains_session_id self w (s : Session) challenge s' :
  get_license_challenge self w s = (Returns challenge, s') →
  occurs_in (session_id s) challenge.
Proof.
  intros Hrun.
  destruct (get_license_challenge_returns self w s challenge s' Hrun)
    as (cid & req & _ & _ & -> & _ & <- & _).
  apply wire_RequestId.
Qed.

(** C4, amended: in a challenge built for a privacy-mode session the
    request has no [ClientId] field; it has an [EncryptedClientId] that holds
    the certificate's service id and serial number, both of which occur in
    the serialized challenge, and the client identification only as the
    AES-CBC encryption of its padded serialization under a fresh random key
    and IV.  In a challenge built outside privacy mode the request has the
    device's client identification as [ClientId], its serialization occurs in
    the challenge, and there is no [EncryptedClientId].  So exactly one of
    the two fields is set in any challenge. *)
Theorem get_license_challenge_identity self w (s : Session) challenge s' :
  get_license_challenge self w s = (Returns challenge, s') →
  ∃ cid req,
    client_id self = Some cid
    ∧ license_request s' = Some req
    ∧ challenge = SignedLicenseRequest_SerializeToString req
    ∧ (lr_ClientId (slr_Msg req) = None ↔ is_Some (lr_EncryptedClientId (slr_Msg req)))
    ∧ (privacy_mode s = true →
       lr_ClientId (slr_Msg req) = None
       ∧ ∃ certificate e,
           signed_device_certificate s = Some certificate
           ∧ lr_EncryptedClientId (slr_Msg req) = Some e
           ∧ eci_ServiceId e = dc_ServiceId (sdc_DeviceCertificate certificate)
           ∧ eci_ServiceCertificateSerialNumber e
             = dc_SerialNumber (sdc_DeviceCertificate certificate)
           ∧ eci_EncryptedClientId e
             = AES_CBC_encrypt (get_random_bytes w 0 16%nat) (get_random_bytes w 1 16%nat)
                 (pad (ClientIdentification_SerializeToString cid) 16)
           ∧ occurs_in (dc_ServiceId (sdc_DeviceCertificate certificate)) challenge
           ∧ occurs_in (dc_SerialNumber (sdc_DeviceCertificate certificate)) challenge)
    ∧ (privacy_mode s = false →
       lr_ClientId (slr_Msg req) = Some cid
       ∧ lr_EncryptedClientId (slr_Msg req) = None
       ∧ occurs_in (ClientIdentification_SerializeToString cid) challenge).
Proof.
  intros Hrun.
  destruct (get_license_challenge_returns self w s challenge s' Hrun)
    as (cid & req & Hcid & -> & -> & _ & _ & _ & _ & _ & Hid).
  exists cid, req. split; [done|]. split; [done|]. split; [done|].
  destruct (privacy_mode s).
  - destruct Hid as (Hplain & e & He & Henc).
    destruct (encrypt_client_id_returns w cid s e He)
      as (certificate & Hcert & Hsid & Hserial & Hcipher & _).
    split; [rewrite Hplain, Henc; by split|].
    split; [|done]. intros _. split; [done|].
    exists certificate, e. repeat (split; [done|]).
    split.
    + rewrite <- Hsid. by apply wire_ServiceId.
    + rewrite <- Hserial. by apply wire_ServiceCertificateSerialNumber.
  - destruct Hid as (Hplain & Henc).
    split; [rewrite Hplain, Henc; split; [done|by intros [? ?]]|].
    split; [done|]. intros _. split; [done|]. split; [done|].
    by apply wire_ClientId.
Qed.
End GetLicenseChallenge.

(** * Properties of [LocalDevice.load] and [LocalDevice.dumpb] *)

Section DeviceBlob.
Context `{Cryptodome, Environment, pb2_messages, !pb2_codec}.
Import LocalDevice.

(** The two bytes of an [Int16ub]. *)
Definition u16 (v : Z) : bytes := [byte_of_Z (v / 256); byte_of_Z v].

(** A version-1 blob laid out as [WidevineDeviceStruct] describes: magic,
    version, type, security level, flags byte, the two length-prefixed
    fields, and whatever follows them ([tail]). *)
Definition device_blob (ty sl : Z) (flag : bool) (pk cid tail : bytes) : bytes :=
  lit "WVD" ++ [byte_of_Z 1] ++ [byte_of_Z ty] ++ [byte_of_Z sl]
  ++ [if flag then x01 else x00]
  ++ u16 (len pk) ++ pk ++ u16 (len cid) ++ cid ++ tail.

Lemma to_N_byte_of_Z v : Z.of_N (Byte.to_N (byte_of_Z v)) = v mod 256.
Proof.
  unfold byte_of_Z.
  pose proof (Z.mod_pos_bound v 256 eq_refl) as Hb.
  destruct (Byte.of_N (Z.to_N (v mod 256))) as [c|] eqn:Hc.
  - apply Byte.to_of_N in Hc. rewrite Hc. lia.
  - apply Byte.of_N_None_iff in Hc. lia.
Qed.

Lemma bytes2integer_1 v : 0 ≤ v < 256 → bytes2integer [byte_of_Z v] = v.
Proof.
  intros Hv. unfold bytes2integer. cbn. rewrite to_N_byte_of_Z.
  by rewrite Z.mod_small.
Qed.

Lemma bytes2integer_2 v : 0 ≤ v < 65536 → bytes2integer (u16 v) = v.
Proof.
  intros Hv. unfold bytes2integer, u16. cbn. rewrite !to_N_byte_of_Z.
  rewrite (Z.mod_small (v / 256)) by (split; [apply Z.div_pos|apply Z.div_lt_upper_bound]; lia).
  pose proof (Z.div_mod v 256). lia.
Qed.

#[local] Arguments bytes2integer : simpl never.
#[local] Arguments byte_of_Z : simpl never.
#[local] Arguments u16 : simpl never.

Lemma stream_read_app (a rest : bytes) :
  stream_read (length a) (a ++ rest) = (Returns a, rest).
Proof.
  unfold stream_read. rewrite bool_decide_eq_true_2 by (rewrite length_app; lia).
  by rewrite take_app_length, drop_app_length.
Qed.

Lemma Const_parse_app (value rest : bytes) :
  Const_parse value (value ++ rest) = (Returns value, rest).
Proof.
  unfold Const_parse, mbind, M_bind, bind. rewrite stream_read_app.
  by rewrite bool_decide_eq_true_2.
Qed.

Lemma Int8ub_parse_app v (rest : bytes) :
  0 ≤ v < 256 → Int8ub_parse ([byte_of_Z v] ++ rest) = (Returns v, rest).
Proof.
  intros Hv. unfold Int8ub_parse, mbind, M_bind, bind.
  rewrite (stream_read_app [byte_of_Z v]). cbn. by rewrite bytes2integer_1.
Qed.

Lemma Int16ub_parse_app v (rest : bytes) :
  0 ≤ v < 65536 → Int16ub_parse (u16 v ++ rest) = (Returns v, rest).
Proof.
  intros Hv. unfold Int16ub_parse, mbind, M_bind, bind.
  rewrite (stream_read_app (u16 v)). cbn. by rewrite bytes2integer_2.
Qed.

Lemma Bytes_parse_app (a rest : bytes) :
  Bytes_parse (len a) (a ++ rest) = (Returns a, rest).
Proof.
  unfold Bytes_parse, len. rewrite bool_decide_eq_false_2 by lia.
  rewrite Nat2Z.id. apply stream_read_app.
Qed.

Lemma flags_parse_app (flag : bool) (rest : bytes) :
  Padded_parse 1 (Optional_parse flags_BitStruct_parse)
    ([if flag then x01 else x00] ++ rest)
  = (Returns (Some {[ "send_key_control_nonce" := flag ]}), rest).
Proof.
  unfold Padded_parse, Optional_parse, flags_BitStruct_parse, mbind, M_bind, bind.
  rewrite (stream_read_app [if flag then x01 else x00]). cbn.
  rewrite bool_decide_eq_false_2 by lia.
  replace (1 - (S (length rest) - length rest))%nat with 0%nat by lia.
  unfold stream_read. cbn. by destruct flag.
Qed.
(** The container parsed from a blob, by what follows the client id:
    nothing, a zero [vmp_len], or a VMP blob. *)
Lemma parse_device_blob ty sl flag pk cid tail vmp_len vmp :
  0 ≤ ty < 256 → 0 ≤ sl < 256 → len pk < 65536 → len cid < 65536 →
  (tail = [] ∧ vmp_len = None ∧ vmp = None)
  ∨ (tail = u16 0 ∧ vmp_len = Some 0 ∧ vmp = None)
  ∨ (∃ v, tail = u16 (len v) ++ v ∧ 0 < len v < 65536
          ∧ vmp_len = Some (len v) ∧ vmp = Some v) →
  WidevineDeviceStruct_parse (device_blob ty sl flag pk cid tail)
  = Returns {| wvd_version := 1; wvd_type := ty; wvd_security_level := sl;
               wvd_flags := Some {[ "send_key_control_nonce" := flag ]};
               wvd_private_key_len := len pk; wvd_private_key := Some pk;
               wvd_client_id_len := len cid; wvd_client_id := Some cid;
               wvd_vmp_len := vmp_len; wvd_vmp := vmp |}.
Proof.
  intros Hty Hsl Hpk Hcid Htail.
  assert (0 ≤ len pk ∧ 0 ≤ len cid) as [? ?] by (unfold len; lia).
  unfold WidevineDeviceStruct_parse, WidevineDeviceStruct_parse_stream, device_blob.
  unfold mbind, M_bind, bind.
  rewrite Const_parse_app, !Int8ub_parse_app, flags_parse_app by lia.
  rewrite Int16ub_parse_app, Bytes_parse_app, Int16ub_parse_app, Bytes_parse_app by lia.
  destruct Htail as [(-> & -> & ->)|[(-> & -> & ->)|(v & -> & Hv & -> & ->)]].
  - reflexivity.
  - unfold Optional_parse. rewrite <- (app_nil_r (u16 0)).
    by rewrite Int16ub_parse_app by lia.
  - unfold Optional_parse at 1. rewrite Int16ub_parse_app by lia.
    cbn [vmp_len_truthy]. rewrite bool_decide_eq_false_2 by lia. cbn [negb default].
    unfold Optional_parse, id.
    pose proof (Bytes_parse_app v []) as Hb. rewrite app_nil_r in Hb.
    by rewrite Hb.
Qed.

(** Building a container whose lengths are those of its fields. *)
Lemma build_container ty sl flag (pk cid vs : bytes) :
  0 ≤ ty < 256 → 0 ≤ sl < 256 →
  len pk < 65536 → len cid < 65536 → len vs < 65536 →
  WidevineDeviceStruct_build
    {| wvd_version := 1; wvd_type := ty; wvd_security_level := sl;
       wvd_flags := Some {[ "send_key_control_nonce" := flag ]};
       wvd_private_key_len := len pk; wvd_private_key := Some pk;
       wvd_client_id_len := len cid; wvd_client_id := Some cid;
       wvd_vmp_len := Some (len vs); wvd_vmp := Some vs |}
  = Returns (device_blob ty sl flag pk cid (u16 (len vs) ++ vs)).
Proof.
  intros Hty Hsl Hpk Hcid Hvs.
  assert (0 ≤ len pk ∧ 0 ≤ len cid ∧ 0 ≤ len vs) as (? & ? & ?) by (unfold len; lia).
  unfold WidevineDeviceStruct_build.
  cbn [wvd_version wvd_type wvd_security_level wvd_flags wvd_private_key_len
       wvd_private_key wvd_client_id_len wvd_client_id wvd_vmp_len wvd_vmp].
  unfold Int8ub_build, Int16ub_build, Bytes_build, Const_build, flags_BitStruct_build.
  rewrite lookup_singleton_eq.
  cbn [vmp_len_truthy default]. unfold id.
  assert (Hvs0 : len vs = 0 → vs = [])
    by (destruct vs; [done|unfold len; cbn; lia]).
  repeat (case_bool_decide; try lia);
    cbn [andb negb mbind outcome_bind obind Optional_build Padded_build length];
    repeat (case_bool_decide; try lia);
    cbn [replicate Nat.sub]; fold (u16 (len pk)) (u16 (len cid)) (u16 (len vs));
    unfold device_blob; try rewrite Hvs0 by done;
    destruct flag; by rewrite ?app_nil_r.
Qed.

(** What [dumpb] writes for a device that has its private key, a type that
    is a member of [Types], and the flag in its dictionary. *)
Lemma dumpb_with_private_key self member flag rsa c v :
  type self = Member member →
  0 ≤ security_level self < 256 →
  flags self = Some {[ "send_key_control_nonce" := flag ]} →
  private_key self = Some rsa →
  RsaKey_export_key_DER rsa ≠ [] →
  len (RsaKey_export_key_DER rsa) < 65536 →
  client_id self = Some c →
  len (ClientIdentification_SerializeToString c) < 65536 →
  vmp self = Some v →
  len (FileHashes_SerializeToString v) < 65536 →
  dumpb self
  = Returns (device_blob (match member with CHROME => 1 | ANDROID => 2 end)
               (security_level self) flag (RsaKey_export_key_DER rsa)
               (ClientIdentification_SerializeToString c)
               (u16 (len (FileHashes_SerializeToString v))
                ++ FileHashes_SerializeToString v)).
Proof.
  intros Hty Hsl Hflags Hkey Hder Hderlen Hcid Hcidlen Hvmp Hvmplen.
  unfold dumpb. rewrite Hty, Hflags, Hkey, Hcid, Hvmp.
  assert (Hne : nonempty (RsaKey_export_key_DER rsa) = true)
    by (by destruct (RsaKey_export_key_DER rsa)).
  assert (Hty' : type_value (Member member)
                 = Returns (match member with CHROME => 1 | ANDROID => 2 end))
    by (by destruct member).
  rewrite Hty'.
  cbn [mbind outcome_bind obind fmap option_fmap option_map default].
  unfold id. rewrite Hne. unfold WidevineDeviceStructVersion.
  apply build_container; try done. destruct member; lia.
Qed.

(** [dumpb] hands [private_key=None] to [Bytes(this.private_key_len)],
    which takes only a [bytes] object: a device without a private key cannot
    be dumped. *)
Lemma dumpb_without_private_key self :
  private_key self = None → ∃ e, dumpb self = Raises e.
Proof.
  intros Hkey. unfold dumpb, WidevineDeviceStruct_build. rewrite Hkey.
  destruct (type_value (type self)) as [ty|e]; [|by eexists].
  cbn [mbind outcome_bind obind fmap option_fmap option_map wvd_version wvd_type
       wvd_security_level wvd_flags wvd_private_key_len wvd_private_key
       Const_build Bytes_build].
  destruct (Int8ub_build WidevineDeviceStructVersion); [|by eexists].
  cbn [obind]. destruct (Int8ub_build ty); [|by eexists].
  cbn [obind]. destruct (Int8ub_build (security_level self)); [|by eexists].
  cbn [obind]. destruct (Padded_build _ _); [|by eexists].
  cbn [obind]. destruct (Int16ub_build _); [|by eexists].
  cbn [obind]. by eexists.
Qed.

(** Loading a blob whose private-key field is empty gives a device without
    a private key. *)
Lemma load_without_private_key uri c self :
  WidevineDeviceStruct_parse uri = Returns c →
  wvd_private_key c = Some [] →
  load uri = Returns self →
  private_key self = None.
Proof.
  intros Hparse Hpk. unfold load, __init__. rewrite Hparse.
  cbn [mbind outcome_bind obind]. rewrite Hpk. cbn [default]. unfold id.
  cbn [nonempty]. unfold mbind, outcome_bind. cbn [obind].
  intros (cid & _ & Hrest)%obind_returns.
  apply obind_returns in Hrest as ([fh cid'] & _ & [= <-]).
  done.
Qed.

(** C5, at the blobs the code does not round-trip: a valid blob that stores
    no private key ([private_key_len = 0]) loads, but [dumpb] of the loaded
    device raises instead of reproducing the fields. *)
Theorem dumpb_after_load_without_private_key uri c self :
  WidevineDeviceStruct_parse uri = Returns c →
  wvd_private_key c = Some [] →
  load uri = Returns self →
  ∃ e, dumpb self = Raises e.
Proof.
  intros Hparse Hpk Hload.
  by eapply dumpb_without_private_key, load_without_private_key.
Qed.

(** X1: for a version-1 blob that stores a private key and whose VMP is
    absent or empty, [dumpb] after [load] writes back the very bytes of version,
    type, security level, flags, private key and client id, followed by a
    zero [vmp_len].  The key and the client id are taken to be in the form
    their libraries write ([export_key] of the imported key and
    [SerializeToString] of the parsed message give the stored bytes), and an
    empty [FileHashes] to serialize to no bytes. *)
Lemma load_dumpb_round_trip member sl flag pk cid tail rsa c :
  0 ≤ sl < 256 →
  pk ≠ [] → len pk < 65536 →
  RSA_importKey pk = Some rsa → RsaKey_export_key_DER rsa = pk →
  len cid < 65536 →
  ClientIdentification_ParseFromString cid = Some c →
  ClientIdentification_SerializeToString c = cid →
  FileHashes_SerializeToString FileHashes_new = [] →
  tail = [] ∨ tail = u16 0 →
  let ty := match member with CHROME => 1 | ANDROID => 2 end in
  (self ← load (device_blob ty sl flag pk cid tail); dumpb self)
  = Returns (device_blob ty sl flag pk cid (u16 0)).
Proof.
  intros Hsl Hne Hpklen Himport Hexport Hcidlen Hparse Hser Hempty Htail ty.
  assert (Hty : 0 ≤ ty < 256) by (unfold ty; destruct member; lia).
  assert (Hne' : nonempty pk = true) by (by destruct pk).
  unfold load.
  rewrite (parse_device_blob ty sl flag pk cid tail
             (if decide (tail = []) then None else Some 0) None); try lia.
  2:{ destruct Htail as [->| ->]; [by left|right; left]. done. }
  cbn [mbind outcome_bind obind wvd_type wvd_security_level wvd_flags
       wvd_private_key wvd_client_id wvd_vmp default].
  unfold __init__. cbn [default]. unfold id. rewrite Hne', Himport, Hparse.
  cbn [nonempty].
  cbn [mbind outcome_bind obind of_option].
  assert (Hmember : type_of_parsed ty = Member member)
    by (unfold type_of_parsed, ty; by destruct member).
  rewrite Hmember.
  rewrite (dumpb_with_private_key _ member flag rsa c FileHashes_new);
    cbn [type security_level flags private_key client_id vmp]; try done.
  - by rewrite Hexport, Hser, Hempty, app_nil_r.
  - by rewrite Hexport.
  - by rewrite Hexport.
  - by rewrite Hser.
  - by rewrite Hempty.
Qed.

(** X2: with a VMP blob present, [load] merges it into the client
    identification, and [dumpb] writes the serialization of the merged
    message where the blob had the original client id: the client-id bytes
    come back only if the merge left the serialization as it was. *)
Lemma load_dumpb_with_vmp member sl flag pk cid vmp_bytes rsa c v :
  0 ≤ sl < 256 →
  pk ≠ [] → len pk < 65536 →
  RSA_importKey pk = Some rsa → RsaKey_export_key_DER rsa = pk →
  len cid < 65536 →
  ClientIdentification_ParseFromString cid = Some c →
  0 < len vmp_bytes < 65536 →
  FileHashes_ParseFromString vmp_bytes = Some v →
  FileHashes_SerializeToString v = vmp_bytes →
  let merged := ClientIdentification_SerializeToString
                  (ClientIdentification_FileHashes_CopyFrom c v) in
  len merged < 65536 →
  let ty := match member with CHROME => 1 | ANDROID => 2 end in
  (self ← load (device_blob ty sl flag pk cid (u16 (len vmp_bytes) ++ vmp_bytes));
   dumpb self)
  = Returns (device_blob ty sl flag pk merged (u16 (len vmp_bytes) ++ vmp_bytes)).
Proof.
  intros Hsl Hne Hpklen Himport Hexport Hcidlen Hparse Hvlen Hvparse Hvser
    merged Hmerged ty.
  assert (Hty : 0 ≤ ty < 256) by (unfold ty; destruct member; lia).
  assert (Hne' : nonempty pk = true) by (by destruct pk).
  assert (Hvne : nonempty vmp_bytes = true)
    by (destruct vmp_bytes; [unfold len in Hvlen; cbn in Hvlen; lia|done]).
  unfold load.
  rewrite (parse_device_blob ty sl flag pk cid _ (Some (len vmp_bytes))
             (Some vmp_bytes)); try lia.
  2:{ right; right. by exists vmp_bytes. }
  cbn [mbind outcome_bind obind wvd_type wvd_security_level wvd_flags
       wvd_private_key wvd_client_id wvd_vmp default].
  unfold __init__. cbn [default]. unfold id.
  rewrite Hne', Himport, Hparse, Hvne, Hvparse.
  cbn [mbind outcome_bind obind of_option].
  assert (Hmember : type_of_parsed ty = Member member)
    by (unfold type_of_parsed, ty; by destruct member).
  rewrite Hmember.
  rewrite (dumpb_with_private_key _ member flag rsa
             (ClientIdentification_FileHashes_CopyFrom c v) v);
    cbn [type security_level flags private_key client_id vmp]; try done.
  - by rewrite Hexport, Hvser.
  - by rewrite Hexport.
  - by rewrite Hexport.
  - rewrite Hvser. lia.
Qed.
End DeviceBlob.

(** * A concrete exchange on the executable instance *)

Module Scenario.
Import Sample LocalDevice.

Definition world : World :=
  {| time_time := 1700000000; random_draw := 41;
     entropy := λ use i, bchr (37 * use + 11 * i + 5) |}.

Definition device : LocalDevice.t :=
  {| type := Member CHROME;
     security_level := 3;
     flags := Some {[ "send_key_control_nonce" := false ]};
     private_key := Some [x30; x82; x04; xa4];
     client_id := Some (lit "client-identification");
     vmp := Some [];
     system_id := Some 21 |}.

Definition fresh_session : Session :=
  {| session_id := lit "session-1";
     session_cenc_header := PsshMessage (lit "pssh");
     raw := false; offline := false; privacy_mode := false;
     signed_device_certificate := None;
     license_request := None; signed_license := None;
     session_key := None; derived_keys := ∅; keys := [] |}.

(** The session after [get_license_challenge]. *)
Definition pending_session : Session :=
  (get_license_challenge device world fresh_session).2.

Definition request_msg : bytes :=
  match license_request pending_session with
  | Some r => LicenseRequest_SerializeToString (slr_Msg r)
  | None => []
  end.

(** What a license server would answer: a session key wrapped for the
    device, two key containers encrypted under the derived [enc] key, and the
    HMAC of the inner message under the derived [auth_1] key. *)
Definition server_session_key : bytes := lit "0123456789abcdef".

Definition wrapped_session_key : bytes :=
  x00 :: stream_xor [x30; x82; x04; xa4] [] server_session_key.

Definition content_key : bytes := lit "content-key-0001".
Definition operator_key : bytes := lit "operator-key".
Definition iv : bytes := lit "iv-iv-iv-iv-iv-1".

Definition enc_key : bytes :=
  AES_CMAC server_session_key ([x01] ++ enc_key_base request_msg).
Definition auth_1_key : bytes :=
  AES_CMAC server_session_key ([x01] ++ auth_key_base request_msg)
  ++ AES_CMAC server_session_key ([x02] ++ auth_key_base request_msg).

Definition content_container : bytes :=
  field (lit "kid-1") ++ field iv
  ++ field (AES_CBC_encrypt enc_key iv (pad content_key 16))
  ++ field (lit "CONTENT").

Definition operator_container : bytes :=
  field [] ++ field iv
  ++ field (AES_CBC_encrypt enc_key iv (pad operator_key 16))
  ++ field (lit "OPERATOR_SESSION")
  ++ field (lit "AllowEncrypt") ++ field [x01]
  ++ field (lit "AllowDecrypt") ++ field [x00].

Definition license_msg : bytes :=
  field content_container ++ field operator_container.

Definition genuine_response : bytes :=
  field license_msg
  ++ field (HMAC_SHA256 auth_1_key license_msg)
  ++ field wrapped_session_key.

(** The same response with one bit of the signature flipped. *)
Definition tampered_response : bytes :=
  field license_msg
  ++ field (match HMAC_SHA256 auth_1_key license_msg with
            | c :: sig => xor_byte c x01 :: sig
            | [] => []
            end)
  ++ field wrapped_session_key.

(** An Android-class device, which sends the key-control nonce. *)
Definition android_device : LocalDevice.t :=
  {| type := Member ANDROID;
     security_level := 1;
     flags := Some {[ "send_key_control_nonce" := true ]};
     private_key := Some [x30; x82; x04; xa4];
     client_id := Some (lit "client-identification");
     vmp := Some [];
     system_id := Some 21 |}.

(** A service certificate as the server sends it: a signed message around
    a device certificate with serial number, public key and service id. *)
Definition service_certificate : bytes :=
  field (field (lit "serial-0001") ++ field [x30; x82; x01; x22]
         ++ field (lit "license.example.com"))
  ++ field (lit "signature").

(** A privacy-mode session: the certificate applied to a new session. *)
Definition private_session : Session :=
  (set_service_certificate device (Bytes service_certificate)
     {| session_id := lit "session-2";
        session_cenc_header := PsshMessage (lit "pssh");
        raw := false; offline := true; privacy_mode := false;
        signed_device_certificate := None;
        license_request := None; signed_license := None;
        session_key := None; derived_keys := ∅; keys := [] |}).2.

(** A privacy-mode session whose session id happens to be the bytes of the
    device's serialized client identification. *)
Definition echoing_session : Session :=
  (set_service_certificate device (Bytes service_certificate)
     {| session_id := lit "client-identification";
        session_cenc_header := PsshMessage (lit "pssh");
        raw := false; offline := false; privacy_mode := false;
        signed_device_certificate := None;
        license_request := None; signed_license := None;
        session_key := None; derived_keys := ∅; keys := [] |}).2.

(** A version-1 blob of a Chrome-class level-3 device that stores no
    private key: magic, 01 01 03 00, [private_key_len = 0],
    [client_id_len = 3], the client id. *)
Definition keyless_blob : bytes :=
  lit "WVD" ++ [x01; x01; x03; x00; x00; x00; x00; x03] ++ lit "cid".

(** The same device with a private key stored, without and with a
    trailing VMP blob. *)
Definition keyed_blob : bytes :=
  device_blob 1 3 false [x30; x82; x04; xa4] (lit "cid") [].
Definition vmp_blob : bytes :=
  device_blob 1 3 false [x30; x82; x04; xa4] (lit "cid")
    (u16 6 ++ lit "hashes").

(** What parsing and loading the keyless blob give. *)
Definition keyless_container : Container :=
  {| wvd_version := 1; wvd_type := 1; wvd_security_level := 3;
     wvd_flags := Some {[ "send_key_control_nonce" := false ]};
     wvd_private_key_len := 0; wvd_private_key := Some [];
     wvd_client_id_len := 3; wvd_client_id := Some (lit "cid");
     wvd_vmp_len := None; wvd_vmp := None |}.

Definition keyless_device : LocalDevice.t :=
  {| type := Member CHROME;
     security_level := 3;
     flags := Some {[ "send_key_control_nonce" := false ]};
     private_key := None;
     client_id := Some (lit "cid");
     vmp := Some [];
     system_id := Some 3 |}.

(** The challenge [get_license_challenge] returns, empty if it raises. *)
Definition challenge_of (self : LocalDevice.t) (s : Session) : bytes :=
  match (get_license_challenge self world s).1 with
  | Returns challenge => challenge
  | Raises _ => []
  end.
End Scenario.

(** * The theorems at the concrete exchange *)

Module Examples.
Import Sample LocalDevice Scenario.

(** The premises of C1 hold for the tampered response. *)
Lemma parse_license_signature_mismatch_witness :
  (parse_license device (Bytes tampered_response) pending_session).1
  = Raises SignatureMismatch
  ∧ keys (parse_license device (Bytes tampered_response) pending_session).2
    = keys pending_session.
Proof.
  eapply (parse_license_signature_mismatch device (Bytes tampered_response)
            pending_session);
    [reflexivity | reflexivity | reflexivity | reflexivity | reflexivity
    | vm_compute; discriminate].
Defined.

(** C2 as stated fails: after the tampered response is rejected, the
    session holds the session key and the derived keys it did not hold
    before. *)
Lemma parse_license_not_atomic :
  ¬ parse_license_atomic device (Bytes tampered_response) pending_session.
Proof.
  intros Hatomic.
  destruct (Hatomic SignatureMismatch
              (parse_license device (Bytes tampered_response) pending_session).2)
    as (Hsk & _); [by vm_compute|].
  vm_compute in Hsk. discriminate.
Qed.

Lemma parse_license_session_state_witness :
  ∃ req sl sk,
    license_request pending_session = Some req
    ∧ signed_license (parse_license device (Bytes tampered_response) pending_session).2
      = Some sl
    ∧ recover_session_key device sl = Returns sk
    ∧ session_key (parse_license device (Bytes tampered_response) pending_session).2
      = Some sk
    ∧ derived_keys (parse_license device (Bytes tampered_response) pending_session).2
        !! "enc"
      = Some (kdf_enc sk (LicenseRequest_SerializeToString (slr_Msg req)))
    ∧ derived_keys (parse_license device (Bytes tampered_response) pending_session).2
        !! "auth_1"
      = Some (kdf_auth_1 sk (LicenseRequest_SerializeToString (slr_Msg req)))
    ∧ derived_keys (parse_license device (Bytes tampered_response) pending_session).2
        !! "auth_2"
      = Some (kdf_auth_2 sk (LicenseRequest_SerializeToString (slr_Msg req)))
    ∧ keys (parse_license device (Bytes tampered_response) pending_session).2
      = keys pending_session.
Proof.
  refine (proj2 (proj2 (parse_license_session_state device (Bytes tampered_response)
                          pending_session (Raises SignatureMismatch)
                          (parse_license device (Bytes tampered_response)
                             pending_session).2 _)) _).
  - by vm_compute.
  - reflexivity.
Defined.

Lemma parse_license_derived_keys_witness :
  derived_keys (parse_license device (Bytes genuine_response) pending_session).2
    !! "enc" = Some enc_key
  ∧ derived_keys (parse_license device (Bytes genuine_response) pending_session).2
      !! "auth_1" = Some auth_1_key.
Proof.
  pose proof (parse_license_derived_keys device (Bytes genuine_response)
                pending_session _ _ _ server_session_key
                eq_refl eq_refl eq_refl eq_refl eq_refl) as (_ & Henc & Hauth & _).
  split; [exact Henc|exact Hauth].
Defined.

Lemma parse_license_no_pending_request_witness :
  parse_license device (Bytes genuine_response) fresh_session
  = (Raises NoPendingRequest, fresh_session).
Proof. apply parse_license_no_pending_request. reflexivity. Defined.


Lemma str_argument_same_as_decoded_bytes_witness :
  set_service_certificate device (Str "aGVsbG8=") pending_session
  = set_service_certificate device (Bytes (lit "hello")) pending_session
  ∧ parse_license device (Str "aGVsbG8=") pending_session
    = parse_license device (Bytes (lit "hello")) pending_session.
Proof. apply str_argument_same_as_decoded_bytes. reflexivity. Defined.


Lemma get_license_challenge_nonce_witness :
  ∃ req,
    license_request (get_license_challenge android_device world fresh_session).2
    = Some req
    ∧ challenge_of android_device fresh_session
      = SignedLicenseRequest_SerializeToString req
    ∧ (is_Some (lr_KeyControlNonce (slr_Msg req))
       ↔ ∃ d : gmap string bool,
           flags android_device = Some d
           ∧ d !! "send_key_control_nonce" = Some true)
    ∧ (∀ n, lr_KeyControlNonce (slr_Msg req) = Some n → 1 ≤ n < 2 ^ 31).
Proof.
  apply (get_license_challenge_nonce android_device world fresh_session).
  by vm_compute.
Defined.

(** C4 as stated fails: the challenge of a privacy-mode session carries the
    session id, and with it any bytes the session id holds, here those of the
    serialized client identification. *)
Lemma privacy_hides_client_id_claim_fails :
  ¬ privacy_hides_client_id_claim device world echoing_session.
Proof.
  intros Hclaim.
  assert (Hrun : get_license_challenge device world echoing_session
                 = (Returns (challenge_of device echoing_session),
                    (get_license_challenge device world echoing_session).2))
    by (by vm_compute).
  apply (Hclaim eq_refl (lit "client-identification") _ _ eq_refl Hrun).
  apply (challenge_contains_session_id device world echoing_session _ _ Hrun).
Qed.

Lemma get_license_challenge_identity_witness :
  ∃ cid req,
    client_id device = Some cid
    ∧ license_request (get_license_challenge device world private_session).2
      = Some req
    ∧ challenge_of device private_session = SignedLicenseRequest_SerializeToString req
    ∧ (lr_ClientId (slr_Msg req) = None ↔ is_Some (lr_EncryptedClientId (slr_Msg req)))
    ∧ (privacy_mode private_session = true →
       lr_ClientId (slr_Msg req) = None
       ∧ ∃ certificate e,
           signed_device_certificate private_session = Some certificate
           ∧ lr_EncryptedClientId (slr_Msg req) = Some e
           ∧ eci_ServiceId e = dc_ServiceId (sdc_DeviceCertificate certificate)
           ∧ eci_ServiceCertificateSerialNumber e
             = dc_SerialNumber (sdc_DeviceCertificate certificate)
           ∧ eci_EncryptedClientId e
             = AES_CBC_encrypt (get_random_bytes world 0 16%nat)
                 (get_random_bytes world 1 16%nat)
                 (pad (ClientIdentification_SerializeToString cid) 16)
           ∧ occurs_in (dc_ServiceId (sdc_DeviceCertificate certificate))
               (challenge_of device private_session)
           ∧ occurs_in (dc_SerialNumber (sdc_DeviceCertificate certificate))
               (challenge_of device private_session))
    ∧ (privacy_mode private_session = false →
       lr_ClientId (slr_Msg req) = Some cid
       ∧ lr_EncryptedClientId (slr_Msg req) = None
       ∧ occurs_in (ClientIdentification_SerializeToString cid)
           (challenge_of device private_session)).
Proof.
  apply (get_license_challenge_identity device world private_session).
  by vm_compute.
Defined.

(** C5 at the failing input: the keyless blob loads and cannot be dumped. *)
Lemma dumpb_after_load_without_private_key_witness :
  load keyless_blob = Returns keyless_device
  ∧ ∃ e, dumpb keyless_device = Raises e.
Proof.
  assert (Hload : load keyless_blob = Returns keyless_device) by reflexivity.
  split; [exact Hload|].
  apply (dumpb_after_load_without_private_key keyless_blob keyless_container
           keyless_device); [reflexivity|reflexivity|exact Hload].
Defined.

(** The whole exchange: the genuine response yields the two keys. *)
Example genuine_response_keys :
  parse_license device (Bytes genuine_response) pending_session
  = (Returns true,
     keys_extend
       [ {| kid := lit "kid-1"; key_type := "CONTENT"; key := content_key;
            permissions := [] |};
         {| kid := lit "OPERATOR_SESSION"; key_type := "OPERATOR_SESSION";
            key := operator_key; permissions := ["AllowEncrypt"] |} ]
       (after_derivation
          {| sl_Msg := license_msg;
             sl_Signature := HMAC_SHA256 auth_1_key license_msg;
             sl_SessionKey := wrapped_session_key |}
          server_session_key request_msg pending_session)).
Proof. by vm_compute. Qed.

(** The privacy-mode challenge of the ordinary session does not show the
    client identification; that of the echoing session does. *)
Example private_challenge_hides_client_id :
  contains (challenge_of device private_session) (lit "client-identification") = false
  ∧ contains (challenge_of device private_session) (lit "license.example.com") = true
  ∧ contains (challenge_of device private_session) (lit "serial-0001") = true
  ∧ contains (challenge_of device echoing_session) (lit "client-identification") = true.
Proof. by vm_compute. Qed.

Example echoing_challenge_shows_client_id :
  occurs_in (lit "client-identification") (challenge_of device echoing_session).
Proof. apply contains_occurs_in. by vm_compute. Qed.

Lemma load_dumpb_round_trip_witness :
  (self ← load keyed_blob; dumpb self) = Returns (keyed_blob ++ [x00; x00]).
Proof.
  apply (@load_dumpb_round_trip crypto messages codec
           CHROME 3 false [x30; x82; x04; xa4] (lit "cid") []
           [x30; x82; x04; xa4] (lit "cid")); try done.
  by left.
Defined.

Lemma load_dumpb_with_vmp_witness :
  (self ← load vmp_blob; dumpb self)
  = Returns (device_blob 1 3 false [x30; x82; x04; xa4]
               (lit "cid" ++ x52 :: field (lit "hashes"))
               (u16 6 ++ lit "hashes")).
Proof.
  apply (@load_dumpb_with_vmp crypto messages codec
           CHROME 3 false [x30; x82; x04; xa4] (lit "cid") (lit "hashes")
           [x30; x82; x04; xa4] (lit "cid") (lit "hashes")); done.
Defined.

Lemma generate_derived_keys_kdf_witness :
  generate_derived_keys request_msg server_session_key
  = Returns (enc_key, auth_1_key,
             kdf_auth_2 server_session_key request_msg).
Proof. apply generate_derived_keys_kdf. reflexivity. Defined.
End Examples.

(** * The session across calls of [parse_license] *)

Section ParseLicenseSession.
Context `{Cryptodome, Environment, pb2_messages, !pb2_codec}.
Import LocalDevice.

#[local] Arguments enc_key_base : simpl never.
#[local] Arguments auth_key_base : simpl never.

(** The attributes of a session that describe the request: everything but
    the last response, the session key, the derived keys and the keys. *)
Definition same_request (s s' : Session) : Prop :=
  session_id s' = session_id s
  ∧ session_cenc_header s' = session_cenc_header s
  ∧ raw s' = raw s
  ∧ offline s' = offline s
  ∧ privacy_mode s' = privacy_mode s
  ∧ signed_device_certificate s' = signed_device_certificate s
  ∧ license_request s' = license_request s.

(** The run of [parse_license] on a response that passes the signature
    check is the key loop, started in the session with the derived keys. *)
Lemma parse_license_verified self arg (s : Session) req res sl sk :
  license_request s = Some req →
  decode_if_str arg = Returns res →
  SignedLicense_ParseFromString res = Some sl →
  recover_session_key self sl = Returns sk →
  AES_key_size_ok sk = true →
  HMAC_SHA256 (kdf_auth_1 sk (LicenseRequest_SerializeToString (slr_Msg req)))
    (License_SerializeToString (sl_Msg sl)) = sl_Signature sl →
  parse_license self arg s
  = match for_each (License_Key (sl_Msg sl)) parse_license_key
            (after_derivation sl sk (LicenseRequest_SerializeToString (slr_Msg req)) s)
    with
    | (Returns _, s') => (Returns true, s')
    | (Raises e, s') => (Raises e, s')
    end.
Proof.
  intros Hreq Harg Hsl Hsk Hk Hsig.
  unfold parse_license, mbind, M_bind, bind, get, lift, modify.
  rewrite Hreq, Harg. cbn. rewrite Hsl. cbn. rewrite Hsk.
  rewrite (get_auth_keys_one 1 x01), (get_auth_keys_two 1 2 x01 x02),
    (get_auth_keys_two 3 4 x03 x04) by done.
  cbn. rewrite lookup_insert_ne by done. rewrite lookup_insert_eq. cbn.
  fold (kdf_auth_1 sk (LicenseRequest_SerializeToString (slr_Msg req))).
  rewrite bool_decide_eq_true_2 by done. cbn.
  match goal with
  | |- context [for_each ?ks ?f ?st] =>
      change st
        with (after_derivation sl sk (LicenseRequest_SerializeToString (slr_Msg req)) s)
  end.
  by destruct (for_each _ _ _) as [[[]|e] s'].
Qed.

(** The key loop runs to its end when every container decrypts. *)
Lemma for_each_parse_license_key_returns ks : ∀ l (s : Session) enc,
  derived_keys s !! "enc" = Some enc →
  comprehension (container_key enc) ks = Returns l →
  for_each ks parse_license_key s = (Returns tt, keys_extend l s).
Proof.
  induction ks as [|k ks IH]; intros l s enc Henc; cbn [comprehension for_each].
  - intros [= <-]. by rewrite keys_extend_nil.
  - intros (k' & Hk & Hrest)%obind_returns.
    apply obind_returns in Hrest as (l' & Hl' & [= <-]).
    unfold bind. rewrite (parse_license_key_step k s enc Henc), Hk.
    rewrite (IH l' (keys_append k' s) enc Henc Hl'). by rewrite keys_extend_cons.
Qed.

(** The key loop stops at the first container that does not decrypt, with
    the keys of the containers before it appended. *)
Lemma for_each_parse_license_key_stops ks : ∀ l c e (s : Session) enc,
  derived_keys s !! "enc" = Some enc →
  comprehension (container_key enc) (take (length l) ks) = Returns l →
  ks !! length l = Some c →
  container_key enc c = Raises e →
  for_each ks parse_license_key s = (Raises e, keys_extend l s).
Proof.
  induction ks as [|k ks IH]; intros l c e s enc Henc Hpre Hc He; [done|].
  cbn [for_each]. unfold bind. rewrite (parse_license_key_step k s enc Henc).
  destruct l as [|k' l]; cbn in Hpre, Hc.
  - injection Hc as ->. by rewrite He, keys_extend_nil.
  - apply obind_returns in Hpre as (k'' & Hk & Hrest).
    apply obind_returns in Hrest as (l' & Hl' & [= -> ->]).
    rewrite Hk. rewrite (IH l c e (keys_append k' s) enc Henc Hl' Hc He).
    by rewrite keys_extend_cons.
Qed.

(** X4: whatever the response and however the call ends, [parse_license]
    leaves the request side of the session alone (session id, init data,
    [raw], [offline], privacy mode, service certificate, pending request) and
    only ever appends to [session.keys]: the keys held before the call are
    still there, in the same order, at the front. *)
Theorem parse_license_preserves_request self license_res (session : Session) :
  same_request session (parse_license self license_res session).2
  ∧ ∃ l, keys (parse_license self license_res session).2 = keys session ++ l.
Proof.
  pose proof (parse_license_runs self license_res session) as Hrun.
  inversion Hrun; cbn [snd];
    try (split; [by repeat split|]; first [by exists []; rewrite app_nil_r | by eexists]).
Qed.

(** X5: a response that was accepted is accepted again: a second call with
    the same argument returns [True] as well and appends the same keys a
    second time, while the session key and the derived keys stay as the
    first call left them.  [session.keys] is a log of parsed responses, not
    a set. *)
Theorem parse_license_repeated self license_res (session : Session) :
  (parse_license self license_res session).1 = Returns true →
  let session' := (parse_license self license_res session).2 in
  ∃ l, keys session' = keys session ++ l
    ∧ (parse_license self license_res session').1 = Returns true
    ∧ keys (parse_license self license_res session').2 = keys session ++ l ++ l
    ∧ session_key (parse_license self license_res session').2 = session_key session'
    ∧ derived_keys (parse_license self license_res session').2 = derived_keys session'.
Proof.
  intros Hcall session'. unfold session'. clear session'.
  pose proof (parse_license_runs self license_res session) as Hrun.
  destruct (parse_license self license_res session) as [r s1]. cbn in Hcall. subst r.
  inversion Hrun as [| | | | | |req res sl sk l Hreq Harg Hsl Hsk Hk Hsig Hl|].
  subst. exists l. cbn [snd]. split; [done|].
  set (msg := LicenseRequest_SerializeToString (slr_Msg req)) in *.
  set (s1 := keys_extend l (after_derivation sl sk msg session)).
  rewrite (parse_license_verified self license_res s1 req res sl sk) by done.
  fold msg.
  rewrite (for_each_parse_license_key_returns _ l _ (kdf_enc sk msg))
    by (done || apply after_derivation_enc).
  cbn [fst snd keys_extend keys session_key derived_keys after_derivation
       set_derived_key set_session_key set_signed_license s1].
  split; [done|]. split; [by rewrite <- app_assoc|]. split; [done|].
  rewrite (insert_id _ "enc") by (by rewrite 2!lookup_insert_ne, lookup_insert_eq by done).
  rewrite (insert_id _ "auth_1") by (by rewrite lookup_insert_ne, lookup_insert_eq by done).
  by rewrite (insert_id _ "auth_2") by (by rewrite lookup_insert_eq).
Qed.

(** X6: when a container of a verified response does not decrypt, the loop
    has already appended the keys of the containers before it: the call
    raises and [session.keys] is left extended by those keys. *)
Theorem parse_license_stops_at_bad_container self license_res (session : Session)
    req res sl sk l c e :
  license_request session = Some req →
  decode_if_str license_res = Returns res →
  SignedLicense_ParseFromString res = Some sl →
  recover_session_key self sl = Returns sk →
  AES_key_size_ok sk = true →
  let msg := LicenseRequest_SerializeToString (slr_Msg req) in
  let enc := AES_CMAC sk ([x01] ++ enc_key_base msg) in
  HMAC_SHA256 (kdf_auth_1 sk msg) (License_SerializeToString (sl_Msg sl))
  = sl_Signature sl →
  comprehension (container_key enc) (take (length l) (License_Key (sl_Msg sl)))
  = Returns l →
  License_Key (sl_Msg sl) !! length l = Some c →
  container_key enc c = Raises e →
  (parse_license self license_res session).1 = Raises e
  ∧ keys (parse_license self license_res session).2 = keys session ++ l.
Proof.
  intros Hreq Harg Hsl Hsk Hk msg enc Hsig Hpre Hc He.
  rewrite (parse_license_verified self license_res session req res sl sk) by done.
  fold msg.
  by rewrite (for_each_parse_license_key_stops _ l c e _ enc)
    by (done || apply after_derivation_enc).
Qed.

(** X7: a recovered session key that has no AES key size (16, 24 or 32
    bytes) makes the first key derivation raise.  By then the response and
    the session key have been stored on the session; no derived key and no
    key has been. *)
Theorem parse_license_bad_session_key self license_res (session : Session)
    req res sl sk :
  license_request session = Some req →
  decode_if_str license_res = Returns res →
  SignedLicense_ParseFromString res = Some sl →
  recover_session_key self sl = Returns sk →
  length sk ≠ 16%nat → length sk ≠ 24%nat → length sk ≠ 32%nat →
  ∃ session',
    parse_license self license_res session
    = (Raises (LibraryError "ValueError: Incorrect AES key length"), session')
    ∧ signed_license session' = Some sl
    ∧ session_key session' = Some sk
    ∧ derived_keys session' = derived_keys session
    ∧ keys session' = keys session.
Proof.
  intros Hreq Harg Hsl Hsk H16 H24 H32.
  assert (Hk : AES_key_size_ok sk = false).
  { unfold AES_key_size_ok. by rewrite !bool_decide_eq_false_2. }
  pose proof (parse_license_runs self license_res session) as Hrun.
  inversion Hrun; same_call; try congruence.
  by eexists.
Qed.


(** PKCS#7: what [pad] appends, [unpad] removes. *)
Lemma to_nat_bchr n : (n ≤ 255)%nat → Byte.to_nat (bchr n) = n.
Proof.
  intros Hn. unfold bchr. destruct (Byte.of_nat n) as [c|] eqn:Hc.
  - by apply Byte.to_of_nat.
  - apply Byte.of_nat_None_iff in Hc. lia.
Qed.

Lemma unpad_pad data block_size :
  (0 < block_size ≤ 255)%nat → unpad (pad data block_size) block_size = Returns data.
Proof.
  intros Hb. unfold pad, unpad.
  set (n := (block_size - length data mod block_size)%nat).
  assert (Hr : (length data mod block_size < block_size)%nat)
    by (apply Nat.mod_upper_bound; lia).
  assert (Hn : (1 ≤ n ≤ block_size)%nat) by (unfold n; lia).
  rewrite length_app, length_replicate.
  rewrite bool_decide_eq_false_2 by lia.
  assert (Hmod : ((length data + n) mod block_size = 0)%nat).
  { pose proof (Nat.div_mod_eq (length data) block_size) as Hdm.
    replace (length data + n)%nat
      with ((length data / block_size + 1) * block_size)%nat by (unfold n; lia).
    apply Nat.Div0.mod_mul. }
  rewrite (bool_decide_eq_true_2 _ Hmod). cbn [negb].
  assert (Hlast : List.last (data ++ replicate n (bchr n)) x00 = bchr n).
  { destruct n as [|n']; [lia|].
    rewrite replicate_S_end, app_assoc. apply List.last_last. }
  rewrite Hlast, to_nat_bchr by lia.
  rewrite !bool_decide_eq_false_2 by lia. cbn [orb].
  replace (length data + n - n)%nat with (length data) by lia.
  rewrite drop_app_length, take_app_length.
  by rewrite bool_decide_eq_true_2.
Qed.

Lemma length_pad data : (length (pad data 16) mod 16 = 0)%nat.
Proof.
  unfold pad. rewrite length_app, length_replicate.
  pose proof (Nat.div_mod_eq (length data) 16) as Hdm.
  pose proof (Nat.mod_upper_bound (length data) 16) as Hr.
  replace (length data + (16 - length data mod 16))%nat
    with ((length data / 16 + 1) * 16)%nat by lia.
  apply Nat.Div0.mod_mul.
Qed.

(** X8: the keys come back as the server wrapped them.  For a verified
    response in which every container has a 16-byte IV and a payload of
    whole blocks that decrypts, under the derived [enc] key, to the PKCS#7
    padding of some key material, [parse_license] returns [True] and the
    material of the appended keys is, container by container, that key
    material. *)
Theorem parse_license_recovers_padded_keys self license_res (session : Session)
    req res sl sk (materials : list bytes) :
  license_request session = Some req →
  decode_if_str license_res = Returns res →
  SignedLicense_ParseFromString res = Some sl →
  recover_session_key self sl = Returns sk →
  AES_key_size_ok sk = true →
  let msg := LicenseRequest_SerializeToString (slr_Msg req) in
  let enc := AES_CMAC sk ([x01] ++ enc_key_base msg) in
  HMAC_SHA256 (kdf_auth_1 sk msg) (License_SerializeToString (sl_Msg sl))
  = sl_Signature sl →
  Forall2 (λ c m, length (kc_Iv c) = 16%nat
                  ∧ (length (kc_Key c) mod 16 = 0)%nat
                  ∧ AES_CBC_decrypt enc (kc_Iv c) (kc_Key c) = pad m 16)
    (License_Key (sl_Msg sl)) materials →
  ∃ l, parse_license self license_res session
       = (Returns true, keys_extend l (after_derivation sl sk msg session))
       ∧ key <$> l = materials.
Proof.
  intros Hreq Harg Hsl Hsk Hk msg enc Hsig Hks.
  assert (∃ l, comprehension (container_key enc) (License_Key (sl_Msg sl)) = Returns l
               ∧ key <$> l = materials) as (l & Hl & Hkeys).
  { induction Hks as [|c m ks ms (Hiv & Hlen & Hdec) _ (l & Hl & Hkeys)].
    - by exists [].
    - eexists (_ :: l). cbn [comprehension].
      rewrite (container_key_returns enc c m);
        [|apply AES_CMAC_is_AES_key|done|done|rewrite Hdec; apply unpad_pad; lia].
      rewrite Hl. split; [done|]. cbn. by rewrite Hkeys. }
  exists l. split; [|done].
  rewrite (parse_license_verified self license_res session req res sl sk) by done.
  fold msg.
  by rewrite (for_each_parse_license_key_returns _ l _ enc)
    by (done || apply after_derivation_enc).
Qed.
End ParseLicenseSession.

(** * The session across [set_service_certificate] and [get_license_challenge] *)

Section ChallengeSession.
Context `{Cryptodome, Environment, pb2_messages, !pb2_codec}.
Import LocalDevice.

(** X9: [get_license_challenge] assigns [session.license_request] as its
    last step and nothing else on the session.  A call that raises leaves
    the session as it was, so a request that was pending stays pending; a
    call that returns has replaced the pending request by the one whose
    serialization it returns. *)
Theorem get_license_challenge_session self w (session : Session) :
  match get_license_challenge self w session with
  | (Returns challenge, session') =>
      ∃ req, session' = set_license_request (Some req) session
             ∧ challenge = SignedLicenseRequest_SerializeToString req
  | (Raises _, session') => session' = session
  end.
Proof.
  unfold get_license_challenge.
  destruct (client_id self) as [cid|]; [|done].
  destruct (negb (truthy (private_key self)) && negb cdmapi_supported); [done|].
  unfold mbind, M_bind, bind, get, lift, modify.
  destruct (raw session), (session_cenc_header session); cbn; try done.
  all: destruct (privacy_mode session); cbn.
  all: try (destruct (encrypt_client_id w cid session) as [e|]; cbn; [|done]).
  all: match goal with
       | |- context [sign_request ?d ?rnd ?m] =>
           destruct (sign_request d rnd m) as [sig|]; cbn; [|done]
       end.
  all: by eexists.
Qed.

(** X10: once [get_license_challenge] has returned, [parse_license] on the
    resulting session gets past its first guard whatever the response is: it
    never reports that no request is pending. *)
Theorem parse_license_after_challenge self w (session session' : Session)
    challenge license_res :
  get_license_challenge self w session = (Returns challenge, session') →
  (parse_license self license_res session').1 ≠ Raises NoPendingRequest.
Proof.
  intros Hcall.
  destruct (get_license_challenge_returns _ _ _ _ _ Hcall) as (cid & req & _ & -> & _).
  pose proof (parse_license_runs self license_res
                (set_license_request (Some req) session)) as Hrun.
  inversion Hrun; cbn [fst]; done.
Qed.

(** X11: the signature of a returned challenge is over the SHA-1 digest of
    the serialized inner message, with every field in its final state.  A
    device that has a private key signs with it (RSA-PSS), also when the
    delegated signer is installed; a device without one reaches this point
    only with the delegated signer, which gets the PSS encoding of the same
    digest. *)
Theorem get_license_challenge_signature self w (session session' : Session)
    challenge :
  get_license_challenge self w session = (Returns challenge, session') →
  ∃ req,
    license_request session' = Some req
    ∧ challenge = SignedLicenseRequest_SerializeToString req
    ∧ let digest := SHA1 (LicenseRequest_SerializeToString (slr_Msg req)) in
      match private_key self with
      | Some rsa =>
          pss_sign rsa (get_random_bytes w 3) digest = Some (slr_Signature req)
      | None =>
          cdmapi_supported = true
          ∧ ∃ em, pss_EMSA_PSS_ENCODE digest 2047 (get_random_bytes w 3) 20 = Some em
                  ∧ cdmapi_encrypt em = Some (slr_Signature req)
      end.
Proof.
  intros Hcall.
  destruct (get_license_challenge_returns _ _ _ _ _ Hcall)
    as (cid & req & Hcid & -> & -> & Hsig & _).
  exists req. split; [done|]. split; [done|].
  cbn zeta. revert Hsig. unfold sign_request, of_option.
  destruct (private_key self) as [rsa|]; cbn [truthy negb].
  - rewrite andb_false_r. by destruct (pss_sign _ _ _); intros [= ->].
  - rewrite andb_true_r. destruct cdmapi_supported; [|done].
    unfold mbind, outcome_bind.
    destruct (pss_EMSA_PSS_ENCODE _ _ _ _) as [em|]; cbn [obind]; [|done].
    destruct (cdmapi_encrypt em) eqn:Hem; intros [= ->]. split; [done|]. by exists em.
Qed.

(** X12: [set_service_certificate] either applies the certificate or does
    nothing.  When the argument decodes and parses at both layers, the inner
    certificate is stored, privacy mode is switched on, nothing else on the
    session changes and the result is [True].  When it does not, the call
    raises and the session is as before, privacy mode included; the error
    names the layer that failed. *)
Theorem set_service_certificate_session self certificate (session : Session) :
  match set_service_certificate self certificate session with
  | (Returns result, session') =>
      result = true
      ∧ ∃ data signed_message signed_device_certificate,
          decode_if_str certificate = Returns data
          ∧ SignedMessage_ParseFromString data = Some signed_message
          ∧ SignedDeviceCertificate_ParseFromString (sm_Msg signed_message)
            = Some signed_device_certificate
          ∧ session' = set_privacy_mode true
                         (set_signed_device_certificate
                            (Some signed_device_certificate) session)
  | (Raises e, session') =>
      session' = session
      ∧ match decode_if_str certificate with
        | Raises e' => e = e'
        | Returns data =>
            match SignedMessage_ParseFromString data with
            | None => e = MalformedCertificate "SignedMessage"
            | Some signed_message =>
                SignedDeviceCertificate_ParseFromString (sm_Msg signed_message) = None
                ∧ e = MalformedCertificate "SignedDeviceCertificate"
            end
        end
  end.
Proof.
  unfold set_service_certificate, mbind, M_bind, bind, lift, modify.
  destruct (decode_if_str certificate) as [data|e]; [|done].
  cbn. destruct (SignedMessage_ParseFromString data) as [m|] eqn:Hm; cbn.
  - destruct (SignedDeviceCertificate_ParseFromString (sm_Msg m)) as [c|] eqn:Hc; cbn.
    + split; [done|]. by exists data, m, c.
    + done.
  - done.
Qed.

#[local] Arguments encrypt_client_id : simpl never.

Lemma set_service_certificate_returns self certificate (s s' : Session) result :
  set_service_certificate self certificate s = (Returns result, s') →
  ∃ data signed_message c,
    decode_if_str certificate = Returns data
    ∧ SignedMessage_ParseFromString data = Some signed_message
    ∧ SignedDeviceCertificate_ParseFromString (sm_Msg signed_message) = Some c
    ∧ s' = set_privacy_mode true (set_signed_device_certificate (Some c) s).
Proof.
  unfold set_service_certificate, mbind, M_bind, bind, lift, modify.
  destruct (decode_if_str certificate) as [data|]; [|done].
  cbn. destruct (SignedMessage_ParseFromString data) as [m|] eqn:Hm; [|done].
  cbn. destruct (SignedDeviceCertificate_ParseFromString (sm_Msg m)) as [c|] eqn:Hc;
    [|done].
  cbn. intros [= _ <-]. by exists data, m, c.
Qed.

Lemma encrypt_client_id_with_certificate w cid (s : Session) c :
  signed_device_certificate s = Some c →
  encrypt_client_id w cid s ≠ Raises MissingCertificate.
Proof.
  intros Hc. unfold encrypt_client_id, AES_new_CBC_encrypt, of_option.
  rewrite Hc. cbn. by repeat (case_match; cbn; try done).
Qed.

(** X13: a challenge built after a service certificate was applied is
    addressed to that certificate.  [get_license_challenge] on the session
    [set_service_certificate] returned never reports a missing certificate,
    and a challenge it returns carries no [ClientId] but an
    [EncryptedClientId] with the service id and serial number of the
    certificate that was applied. *)
Theorem challenge_after_service_certificate self w certificate
    (session session' : Session) result :
  set_service_certificate self certificate session = (Returns result, session') →
  (get_license_challenge self w session').1 ≠ Raises MissingCertificate
  ∧ ∀ challenge session'',
      get_license_challenge self w session' = (Returns challenge, session'') →
      ∃ data signed_message c req e,
        decode_if_str certificate = Returns data
        ∧ SignedMessage_ParseFromString data = Some signed_message
        ∧ SignedDeviceCertificate_ParseFromString (sm_Msg signed_message) = Some c
        ∧ license_request session'' = Some req
        ∧ lr_ClientId (slr_Msg req) = None
        ∧ lr_EncryptedClientId (slr_Msg req) = Some e
        ∧ eci_ServiceId e = dc_ServiceId (sdc_DeviceCertificate c)
        ∧ eci_ServiceCertificateSerialNumber e
          = dc_SerialNumber (sdc_DeviceCertificate c).
Proof.
  intros Hset.
  destruct (set_service_certificate_returns _ _ _ _ _ Hset)
    as (data & m & c & Hdata & Hm & Hc & ->).
  split.
  - unfold get_license_challenge.
    destruct (client_id self) as [cid|]; [|done].
    destruct (negb (truthy (private_key self)) && negb cdmapi_supported); [done|].
    unfold mbind, M_bind, bind, get, lift, modify.
    destruct (raw _), (session_cenc_header _); cbn; try done.
    all: match goal with
         | |- context [encrypt_client_id ?rnd ?i ?s] =>
             pose proof (encrypt_client_id_with_certificate rnd i s c eq_refl) as Hne;
             destruct (encrypt_client_id rnd i s) as [e|e]; cbn; [|congruence]
         end.
    all: match goal with
         | |- context [sign_request ?d ?rnd ?m] =>
             destruct (sign_request d rnd m) as [sig|e1] eqn:Hsig; cbn; [done|]
         end.
    all: intros [= ->]; by destruct (sign_request_raises _ _ _ _ Hsig).
  - intros challenge s2 Hcall.
    destruct (get_license_challenge_returns _ _ _ _ _ Hcall)
      as (cid & req & _ & -> & _ & _ & _ & _ & _ & _ & Hpriv).
    cbn in Hpriv. destruct Hpriv as (Hnone & e & He & Hsome).
    destruct (encrypt_client_id_returns _ _ _ _ He)
      as (c' & Hc' & Hid & Hserial & _).
    cbn in Hc'. injection Hc' as <-.
    by exists data, m, c, req, e.
Qed.

(** X14: the encrypted client identification can be opened by whoever
    unwraps the privacy key.  The key that encrypts the client id is the one
    wrapped, with RSA-OAEP, for the public key of the certificate; the IV is
    sent along; and decrypting [EncryptedClientId] with that key and IV and
    removing the PKCS#7 padding gives the serialized client identification.
    That AES-CBC decryption undoes encryption is asked of the cipher only at
    the data encrypted here. *)
Theorem encrypted_client_id_opens w cid (session : Session) e :
  encrypt_client_id w cid session = Returns e →
  let cid_aes_key := get_random_bytes w 0 16%nat in
  let plaintext := pad (ClientIdentification_SerializeToString cid) 16 in
  AES_CBC_decrypt cid_aes_key (eci_EncryptedClientIdIv e)
    (AES_CBC_encrypt cid_aes_key (eci_EncryptedClientIdIv e) plaintext) = plaintext →
  length cid_aes_key = 16%nat
  ∧ length (eci_EncryptedClientIdIv e) = 16%nat
  ∧ (∃ certificate public_key,
       signed_device_certificate session = Some certificate
       ∧ RSA_importKey (dc_PublicKey (sdc_DeviceCertificate certificate))
         = Some public_key
       ∧ PKCS1_OAEP_encrypt public_key (get_random_bytes w 2) cid_aes_key
         = Some (eci_EncryptedPrivacyKey e))
  ∧ unpad (AES_CBC_decrypt cid_aes_key (eci_EncryptedClientIdIv e)
             (eci_EncryptedClientId e)) 16
    = Returns (ClientIdentification_SerializeToString cid).
Proof.
  intros He cid_aes_key plaintext Hinverse.
  assert (Hlen : ∀ use, length (get_random_bytes w use 16%nat) = 16%nat)
    by (intros use; unfold get_random_bytes; by rewrite length_fmap, length_seq).
  destruct (encrypt_client_id_returns _ _ _ _ He)
    as (certificate & Hcert & _ & _ & Henc & Hiv).
  split; [apply Hlen|]. split; [rewrite Hiv; apply Hlen|]. split.
  - revert He. unfold encrypt_client_id, AES_new_CBC_encrypt, of_option.
    rewrite Hcert. cbn.
    repeat (case_match; cbn; try done). intros [= <-]. cbn.
    by eexists _, _.
  - rewrite Henc. rewrite Hiv in Hinverse. fold cid_aes_key plaintext.
    rewrite Hiv, Hinverse. apply unpad_pad. lia.
Qed.

Lemma length_get_random_bytes w use n : length (get_random_bytes w use n) = n.
Proof. unfold get_random_bytes. by rewrite length_fmap, length_seq. Qed.

(** The privacy branch goes through when the certificate is there, its
    service id is text, its public key imports and the key wrap succeeds:
    the random key and IV have the sizes AES-CBC asks for, and the padded
    client id is a whole number of blocks. *)
Lemma encrypt_client_id_succeeds w cid (s : Session) certificate public_key wrapped :
  signed_device_certificate s = Some certificate →
  utf8_decodable (dc_ServiceId (sdc_DeviceCertificate certificate)) = true →
  RSA_importKey (dc_PublicKey (sdc_DeviceCertificate certificate)) = Some public_key →
  PKCS1_OAEP_encrypt public_key (get_random_bytes w 2) (get_random_bytes w 0 16%nat)
  = Some wrapped →
  ∃ e, encrypt_client_id w cid s = Returns e.
Proof.
  intros Hcert Hutf8 Himport Hwrap.
  unfold encrypt_client_id, AES_new_CBC_encrypt, AES_key_size_ok, mbind, outcome_bind.
  rewrite Hcert, Hutf8. cbn [obind].
  rewrite !length_get_random_bytes.
  rewrite (bool_decide_eq_true_2 (16 = 16)%nat) by done. cbn [orb negb].
  rewrite (bool_decide_eq_true_2 _ (length_pad _)). cbn [negb obind].
  rewrite Himport. cbn [of_option obind]. rewrite Hwrap. cbn [of_option obind].
  by eexists.
Qed.

(** X15: when [get_license_challenge] is sure to return.  A device with a
    client identification and a private key, on a session whose init data
    has the kind that [raw] announces, gets its challenge, outside privacy
    mode as soon as the signature can be made, and in privacy mode when in
    addition the certificate is there, its service id is text, and its
    public key imports and wraps the privacy key.  The args of the cipher
    never stand in the way: key and IV are sixteen random bytes and the
    padded client identification is a whole number of blocks. *)
Theorem get_license_challenge_succeeds self w (session : Session) cid rsa :
  client_id self = Some cid →
  private_key self = Some rsa →
  (if raw session then ∃ x, session_cenc_header session = PsshBytes x
   else ∃ h, session_cenc_header session = PsshMessage h) →
  (if privacy_mode session then
     ∃ certificate public_key,
       signed_device_certificate session = Some certificate
       ∧ utf8_decodable (dc_ServiceId (sdc_DeviceCertificate certificate)) = true
       ∧ RSA_importKey (dc_PublicKey (sdc_DeviceCertificate certificate))
         = Some public_key
       ∧ is_Some (PKCS1_OAEP_encrypt public_key (get_random_bytes w 2)
                    (get_random_bytes w 0 16%nat))
   else True) →
  (∀ digest, is_Some (pss_sign rsa (get_random_bytes w 3) digest)) →
  ∃ req,
    get_license_challenge self w session
    = (Returns (SignedLicenseRequest_SerializeToString req),
       set_license_request (Some req) session).
Proof.
  intros Hcid Hkey Hheader Hprivacy Hsign.
  assert (Hsigned : ∀ m, ∃ sig, sign_request self w m = Returns sig).
  { intros m. unfold sign_request. rewrite Hkey. cbn [truthy negb].
    rewrite andb_false_r. destruct (Hsign (SHA1 m)) as [sig ->]. by exists sig. }
  unfold get_license_challenge. rewrite Hcid, Hkey. cbn [truthy negb andb].
  unfold mbind, M_bind, bind, get, lift, modify.
  assert (∃ p, match raw session, session_cenc_header session with
               | true, PsshBytes x => Returns (PsshBytes x)
               | false, PsshMessage h => Returns (PsshMessage h)
               | _, _ => Raises (LibraryError "TypeError: cenc_header")
               end = Returns p) as [p ->].
  { destruct (raw session); destruct Hheader as [y ->]; by eexists. }
  destruct (privacy_mode session).
  - destruct Hprivacy as (certificate & public_key & Hcert & Hutf8 & Himport
                          & [wrapped Hwrap]).
    destruct (encrypt_client_id_succeeds w cid session _ _ _ Hcert Hutf8 Himport Hwrap)
      as [e ->].
    cbn [outcome_bind obind].
    match goal with
    | |- context [sign_request ?d ?rnd ?m] =>
        destruct (Hsigned m) as [sig ->]
    end.
    by eexists.
  - cbn [outcome_bind obind].
    match goal with
    | |- context [sign_request ?d ?rnd ?m] =>
        destruct (Hsigned m) as [sig ->]
    end.
    by eexists.
Qed.
End ChallengeSession.

(** * The layout of a device blob *)

Section BlobLayout.
Context `{Cryptodome, Environment, pb2_messages, !pb2_codec}.
Import LocalDevice.

#[local] Arguments bytes2integer : simpl never.
#[local] Arguments byte_of_Z : simpl never.
#[local] Arguments u16 : simpl never.

(** The integer a byte stands for. *)
Definition byte_value (c : byte) : Z := Z.of_N (Byte.to_N c).

(** A blob by its bytes: magic, the four one-byte fields as they are
    stored, the two length-prefixed fields, and what follows them. *)
Definition blob_bytes (version type security_level flags : byte)
    (pk cid tail : bytes) : bytes :=
  lit "WVD" ++ [version; type; security_level; flags]
  ++ u16 (len pk) ++ pk ++ u16 (len cid) ++ cid ++ tail.

Lemma byte_value_bounds c : 0 ≤ byte_value c < 256.
Proof.
  unfold byte_value. pose proof (Byte.to_N_bounded c). lia.
Qed.

Lemma byte_of_Z_value c : byte_of_Z (byte_value c) = c.
Proof.
  unfold byte_of_Z, byte_value. pose proof (Byte.to_N_bounded c).
  rewrite Z.mod_small by lia. by rewrite N2Z.id, Byte.of_to_N.
Qed.

Lemma bytes2integer_byte c : bytes2integer [c] = byte_value c.
Proof. unfold bytes2integer, byte_value. cbn. lia. Qed.

Lemma bytes2integer_pair a b : bytes2integer [a; b] = byte_value a * 256 + byte_value b.
Proof. unfold bytes2integer, byte_value. cbn. lia. Qed.

Lemma u16_pair a b : u16 (byte_value a * 256 + byte_value b) = [a; b].
Proof.
  pose proof (byte_value_bounds a). pose proof (byte_value_bounds b).
  unfold u16.
  replace ((byte_value a * 256 + byte_value b) / 256) with (byte_value a)
    by (apply Z.div_unique with (byte_value b); lia).
  rewrite byte_of_Z_value. f_equal. f_equal.
  rewrite <- (byte_of_Z_value b) at 2. unfold byte_of_Z.
  by rewrite Z.add_comm, Z.mod_add, (Z.mod_small (byte_value b)) by lia.
Qed.

(** What a successful read says about the stream. *)
Lemma stream_read_returns n (stream a rest : bytes) :
  stream_read n stream = (Returns a, rest) → stream = a ++ rest ∧ length a = n.
Proof.
  unfold stream_read. case_bool_decide; [|done]. intros [= <- <-].
  split; [by rewrite take_drop|]. rewrite length_take. lia.
Qed.

Lemma Const_parse_returns value (stream a rest : bytes) :
  Const_parse value stream = (Returns a, rest) → stream = value ++ rest.
Proof.
  unfold Const_parse, mbind, M_bind, bind.
  destruct (stream_read (length value) stream) as [[x|] r] eqn:Hread; [|done].
  apply stream_read_returns in Hread as [-> _].
  case_bool_decide; [|done]. by intros [= <- <-]; subst.
Qed.

Lemma Int8ub_parse_returns (stream rest : bytes) v :
  Int8ub_parse stream = (Returns v, rest) →
  ∃ c, stream = c :: rest ∧ v = byte_value c.
Proof.
  unfold Int8ub_parse, mbind, M_bind, bind.
  destruct (stream_read 1 stream) as [[x|] r] eqn:Hread; [|done].
  apply stream_read_returns in Hread as [-> Hlen].
  destruct x as [|c [|? ?]]; try done. intros [= <- <-].
  exists c. by rewrite bytes2integer_byte.
Qed.

Lemma Int16ub_parse_returns (stream rest : bytes) v :
  Int16ub_parse stream = (Returns v, rest) →
  stream = u16 v ++ rest ∧ 0 ≤ v < 65536.
Proof.
  unfold Int16ub_parse, mbind, M_bind, bind.
  destruct (stream_read 2 stream) as [[x|] r] eqn:Hread; [|done].
  apply stream_read_returns in Hread as [-> Hlen].
  destruct x as [|a [|b [|? ?]]]; try done. intros [= <- <-].
  rewrite bytes2integer_pair, u16_pair.
  pose proof (byte_value_bounds a). pose proof (byte_value_bounds b).
  split; [done|lia].
Qed.

Lemma Bytes_parse_returns n (stream a rest : bytes) :
  Bytes_parse n stream = (Returns a, rest) → stream = a ++ rest ∧ len a = n.
Proof.
  unfold Bytes_parse. case_bool_decide; [done|].
  intros [-> Hlen]%stream_read_returns. split; [done|]. unfold len. lia.
Qed.

Lemma flags_parse_cons c (rest : bytes) :
  Padded_parse 1 (Optional_parse flags_BitStruct_parse) (c :: rest)
  = (Returns (Some {[ "send_key_control_nonce" := Z.odd (byte_value c) ]}), rest).
Proof.
  unfold Padded_parse, Optional_parse, flags_BitStruct_parse, mbind, M_bind, bind.
  change (c :: rest) with ([c] ++ rest).
  rewrite (stream_read_app [c]). cbn [mret M_ret ret].
  rewrite bool_decide_eq_false_2 by (cbn; lia).
  replace (1 - (length ([c] ++ rest) - length rest))%nat with 0%nat by (cbn; lia).
  unfold stream_read. cbn. by rewrite bytes2integer_byte.
Qed.

Lemma flags_parse_returns (stream rest : bytes) flags :
  Padded_parse 1 (Optional_parse flags_BitStruct_parse) stream = (Returns flags, rest) →
  ∃ c, stream = c :: rest
       ∧ flags = Some {[ "send_key_control_nonce" := Z.odd (byte_value c) ]}.
Proof.
  destruct stream as [|c stream].
  - unfold Padded_parse, Optional_parse, flags_BitStruct_parse, mbind, M_bind,
      bind, stream_read.
    by rewrite !bool_decide_eq_false_2 by (cbn; lia).
  - rewrite flags_parse_cons. intros [= <- <-]. by exists c.
Qed.

Lemma Int8ub_parse_cons c (rest : bytes) :
  Int8ub_parse (c :: rest) = (Returns (byte_value c), rest).
Proof.
  unfold Int8ub_parse, mbind, M_bind, bind.
  change (c :: rest) with ([c] ++ rest).
  rewrite (stream_read_app [c]). cbn. by rewrite bytes2integer_byte.
Qed.

(** What a successful parse says about the input and the container. *)
Lemma WidevineDeviceStruct_parse_returns (data : bytes) c :
  WidevineDeviceStruct_parse data = Returns c →
  ∃ version type security_level flags pk cid tail,
    data = blob_bytes version type security_level flags pk cid tail
    ∧ len pk < 65536 ∧ len cid < 65536
    ∧ wvd_version c = byte_value version
    ∧ wvd_type c = byte_value type
    ∧ wvd_security_level c = byte_value security_level
    ∧ wvd_flags c = Some {[ "send_key_control_nonce" := Z.odd (byte_value flags) ]}
    ∧ wvd_private_key_len c = len pk ∧ wvd_private_key c = Some pk
    ∧ wvd_client_id_len c = len cid ∧ wvd_client_id c = Some cid.
Proof.
  unfold WidevineDeviceStruct_parse, WidevineDeviceStruct_parse_stream.
  unfold mbind, M_bind, bind.
  destruct (Const_parse (lit "WVD") data) as [[magic|] r0] eqn:E0; [|done].
  apply Const_parse_returns in E0 as ->.
  destruct (Int8ub_parse r0) as [[v1|] r1] eqn:E1; [|done].
  apply Int8ub_parse_returns in E1 as (bv & -> & ->).
  destruct (Int8ub_parse r1) as [[v2|] r2] eqn:E2; [|done].
  apply Int8ub_parse_returns in E2 as (bt & -> & ->).
  destruct (Int8ub_parse r2) as [[v3|] r3] eqn:E3; [|done].
  apply Int8ub_parse_returns in E3 as (bs & -> & ->).
  destruct (Padded_parse 1 _ r3) as [[fl|] r4] eqn:E4; [|done].
  apply flags_parse_returns in E4 as (bf & -> & ->).
  destruct (Int16ub_parse r4) as [[n1|] r5] eqn:E5; [|done].
  apply Int16ub_parse_returns in E5 as (-> & Hn1).
  destruct (Bytes_parse n1 r5) as [[pk|] r6] eqn:E6; [|done].
  apply Bytes_parse_returns in E6 as (-> & <-).
  destruct (Int16ub_parse r6) as [[n2|] r7] eqn:E7; [|done].
  apply Int16ub_parse_returns in E7 as (-> & Hn2).
  destruct (Bytes_parse n2 r7) as [[cid|] r8] eqn:E8; [|done].
  apply Bytes_parse_returns in E8 as (-> & <-).
  destruct (Optional_parse Int16ub_parse r8) as [[vl|] r9]; [|done].
  match goal with
  | |- context [if ?b then ?x else ?y] => destruct (if b then x else y) as [[v|] r10]
  end; [|done].
  cbn [fst mret M_ret ret]. intros [= <-].
  exists bv, bt, bs, bf, pk, cid, r8. cbn.
  repeat split; try done; lia.
Qed.

Lemma len_blob_bytes version type security_level flags pk cid tail :
  len (blob_bytes version type security_level flags pk cid tail)
  = 11 + len pk + len cid + len tail.
Proof.
  unfold len, blob_bytes, u16. cbn. rewrite !length_app. cbn.
  rewrite !length_app. cbn. lia.
Qed.

(** X16: every input that [WidevineDeviceStruct] parses has the layout of
    a device blob: the three magic bytes, four single bytes, and the private
    key and the client id each behind its two-byte big-endian length.  The
    container holds the four bytes as integers (of the flags byte only the
    lowest bit) and the two fields with their lengths.  So an input that
    does not start with the magic, or that is shorter than eleven bytes plus
    the two fields, is rejected. *)
Theorem WidevineDeviceStruct_parse_layout (data : bytes) c :
  WidevineDeviceStruct_parse data = Returns c →
  ∃ version type security_level flags pk cid tail,
    data = lit "WVD" ++ [version; type; security_level; flags]
           ++ u16 (len pk) ++ pk ++ u16 (len cid) ++ cid ++ tail
    ∧ len pk < 65536 ∧ len cid < 65536
    ∧ len data = 11 + len pk + len cid + len tail
    ∧ c = {| wvd_version := byte_value version;
             wvd_type := byte_value type;
             wvd_security_level := byte_value security_level;
             wvd_flags := Some {[ "send_key_control_nonce" := Z.odd (byte_value flags) ]};
             wvd_private_key_len := len pk; wvd_private_key := Some pk;
             wvd_client_id_len := len cid; wvd_client_id := Some cid;
             wvd_vmp_len := wvd_vmp_len c; wvd_vmp := wvd_vmp c |}.
Proof.
  intros Hparse.
  destruct (WidevineDeviceStruct_parse_returns data c Hparse)
    as (bv & bt & bs & bf & pk & cid & tail & -> & Hpk & Hcid & Hrest).
  exists bv, bt, bs, bf, pk, cid, tail.
  split; [done|]. split; [done|]. split; [done|].
  split; [apply len_blob_bytes|].
  destruct c. cbn in Hrest. destruct Hrest as (-> & -> & -> & -> & -> & -> & -> & ->).
  done.
Qed.
End BlobLayout.

(** * The device [load] gives *)

Section LoadedDevice.
Context `{Cryptodome, Environment, pb2_messages, !pb2_codec}.
Import LocalDevice.

#[local] Arguments bytes2integer : simpl never.
#[local] Arguments byte_of_Z : simpl never.
#[local] Arguments u16 : simpl never.

Lemma byte_value_inj a b : byte_value a = byte_value b → a = b.
Proof. intros Hab. by rewrite <- (byte_of_Z_value a), Hab, byte_of_Z_value. Qed.

Lemma send_key_control_nonce_singleton self flag :
  flags self = Some {[ "send_key_control_nonce" := flag ]} →
  send_key_control_nonce self = flag.
Proof.
  intros Hflags. unfold send_key_control_nonce. rewrite Hflags.
  rewrite lookup_singleton_eq. cbn.
  rewrite bool_decide_eq_false_2; [done|].
  intros Hempty. apply (f_equal (λ m : gmap string bool, m !! "send_key_control_nonce")) in Hempty.
  by rewrite lookup_singleton_eq, lookup_empty in Hempty.
Qed.

(** What [__init__] has built when it returns. *)
Lemma __init___returns ty sl fl pk cid vmp_arg self :
  __init__ ty sl fl pk cid vmp_arg = Returns self →
  type self = ty ∧ security_level self = sl ∧ flags self = fl
  ∧ (if nonempty (default [] pk)
     then ∃ rsa, RSA_importKey (default [] pk) = Some rsa ∧ private_key self = Some rsa
     else private_key self = None)
  ∧ ∃ c0 c v,
      ClientIdentification_ParseFromString cid = Some c0
      ∧ client_id self = Some c
      ∧ vmp self = Some v
      ∧ system_id self = Some (ClientIdentification_SystemId c)
      ∧ (if nonempty (default [] vmp_arg)
         then FileHashes_ParseFromString (default [] vmp_arg) = Some v
              ∧ c = ClientIdentification_FileHashes_CopyFrom c0 v
         else v = FileHashes_new ∧ c = c0).
Proof.
  unfold __init__, mbind, outcome_bind.
  intros (k & Hk & Hinit)%obind_returns.
  apply obind_returns in Hinit as (c0 & Hc0 & Hinit).
  apply obind_returns in Hinit as ([v c] & Hv & [= <-]). cbn.
  split; [done|]. split; [done|]. split; [done|]. split.
  - destruct (nonempty (default [] pk)).
    + apply obind_returns in Hk as (rsa & Hrsa & [= <-]).
      exists rsa. split; [|done]. by destruct (RSA_importKey _); simplify_eq/=.
    + by injection Hk as <-.
  - exists c0, c, v.
    split; [by destruct (ClientIdentification_ParseFromString cid); simplify_eq/=|].
    split; [done|]. split; [done|]. split; [done|].
    destruct (nonempty (default [] vmp_arg)).
    + apply obind_returns in Hv as (v' & Hv' & [= <- <-]).
      split; [|done]. by destruct (FileHashes_ParseFromString _); simplify_eq/=.
    + by injection Hv as <- <-.
Qed.

(** X17: what a loaded device is, in terms of the bytes it was loaded from.
    The type is the member of [Types] for type byte 1 or 2 and the bare
    integer otherwise; the security level is the third byte after the magic;
    the key-control-nonce flag is the lowest bit of the flags byte; there is
    no private key exactly when the stored key is empty, and otherwise it is
    the imported key; the client identification, the VMP record and the
    system id are always set. *)
Theorem load_attributes (data : bytes) self :
  load data = Returns self →
  ∃ version type_byte level flags_byte pk cid tail,
    data = lit "WVD" ++ [version; type_byte; level; flags_byte]
           ++ u16 (len pk) ++ pk ++ u16 (len cid) ++ cid ++ tail
    ∧ type self = type_of_parsed (byte_value type_byte)
    ∧ security_level self = byte_value level
    ∧ send_key_control_nonce self = Z.odd (byte_value flags_byte)
    ∧ (private_key self = None ↔ pk = [])
    ∧ (∀ rsa, private_key self = Some rsa → RSA_importKey pk = Some rsa)
    ∧ ∃ c, client_id self = Some c
           ∧ system_id self = Some (ClientIdentification_SystemId c)
           ∧ is_Some (vmp self)
           ∧ is_Some (ClientIdentification_ParseFromString cid).
Proof.
  unfold load, mbind, outcome_bind.
  intros (c & Hparse & Hinit)%obind_returns.
  destruct (WidevineDeviceStruct_parse_returns data c Hparse)
    as (bv & bt & bs & bf & pk & cid & tail & -> & _ & _
        & _ & Ety & Esl & Efl & _ & Epk & _ & Ecid).
  rewrite Ety, Esl, Efl, Epk, Ecid in Hinit. cbn [default] in Hinit. unfold id in Hinit.
  apply __init___returns in Hinit
    as (Hty & Hsl & Hfl & Hpk & c0 & ci & v & Hc0 & Hci & Hv & Hsys & _).
  exists bv, bt, bs, bf, pk, cid, tail.
  split; [done|]. split; [done|]. split; [done|].
  split; [by apply send_key_control_nonce_singleton|].
  cbn [default] in Hpk. unfold id in Hpk.
  split; [|split].
  - destruct pk; cbn in Hpk; [done|]. destruct Hpk as (rsa & _ & ->). done.
  - intros rsa Hrsa. destruct pk; cbn in Hpk; [congruence|].
    destruct Hpk as (rsa' & Hrsa' & Heq). congruence.
  - exists ci. rewrite Hv, Hc0. by eauto.
Qed.

(** X18: a device that [load] returned always passes the identity guard of
    [get_license_challenge]; it stops at the signing guard exactly when the
    blob stored no private key and no delegated signer is installed. *)
Theorem loaded_device_guards (data : bytes) self w (session : Session) :
  load data = Returns self →
  (get_license_challenge self w session).1 ≠ Raises MissingIdentity
  ∧ ((get_license_challenge self w session).1 = Raises MissingSigningCapability
     ↔ private_key self = None ∧ cdmapi_supported = false).
Proof.
  unfold load, mbind, outcome_bind.
  intros (c & _ & Hinit)%obind_returns.
  apply __init___returns in Hinit as (_ & _ & _ & _ & c0 & ci & v & _ & Hci & _).
  destruct (negb (truthy (private_key self)) && negb cdmapi_supported) eqn:Hguard.
  - assert (Hrun : get_license_challenge self w session
                   = (Raises MissingSigningCapability, session))
      by (unfold get_license_challenge; by rewrite Hci, Hguard).
    rewrite Hrun. cbn. split; [done|]. split; [|done]. intros _.
    apply andb_prop in Hguard as [Hkey Hapi].
    split; [by destruct (private_key self)|by destruct cdmapi_supported].
  - split.
    + intros Hraise.
      by destruct (get_license_challenge_raises self w session ci _ Hci Hguard Hraise)
        as [|[? ?]].
    + split.
      * intros Hraise.
        by destruct (get_license_challenge_raises self w session ci _ Hci Hguard Hraise)
          as [|[? ?]].
      * intros [Hkey Hapi]. by rewrite Hkey, Hapi in Hguard.
Qed.

(** X19: [load] never looks at the version byte, nor at the seven upper
    bits of the flags byte: two blobs that differ only there load to the
    same device (or fail alike). *)
Theorem load_ignores_version_and_reserved_bits
    (version version' type_byte level flags_byte flags_byte' : byte)
    (rest : bytes) :
  Z.odd (byte_value flags_byte) = Z.odd (byte_value flags_byte') →
  load (lit "WVD" ++ [version; type_byte; level; flags_byte] ++ rest)
  = load (lit "WVD" ++ [version'; type_byte; level; flags_byte'] ++ rest).
Proof.
  intros Hodd.
  unfold load, WidevineDeviceStruct_parse, WidevineDeviceStruct_parse_stream.
  unfold mbind, M_bind, bind, outcome_bind.
  rewrite !Const_parse_app. cbn [app].
  rewrite !Int8ub_parse_cons, !flags_parse_cons, Hodd.
  destruct (Int16ub_parse rest) as [[n1|] r5]; [|done].
  destruct (Bytes_parse n1 r5) as [[pk|] r6]; [|done].
  destruct (Int16ub_parse r6) as [[n2|] r7]; [|done].
  destruct (Bytes_parse n2 r7) as [[cid|] r8]; [|done].
  destruct (Optional_parse Int16ub_parse r8) as [[vl|] r9]; [|done].
  match goal with
  | |- context [if ?b then ?x else ?y] => destruct (if b then x else y) as [[v|] r10]
  end; done.
Qed.

(** X20: a type byte other than 1 and 2 does not stop [load]: the device
    gets the bare integer as its [type].  Such a device cannot be written
    back: [dumpb] asks the integer for [.value] and raises. *)
Theorem load_unknown_type (data : bytes) self type_byte :
  load data = Returns self →
  data !! 4%nat = Some type_byte →
  type_byte ≠ x01 → type_byte ≠ x02 →
  type self = RawInt (byte_value type_byte)
  ∧ dumpb self
    = Raises (LibraryError "AttributeError: 'int' object has no attribute 'value'").
Proof.
  unfold load, mbind, outcome_bind.
  intros (c & Hparse & Hinit)%obind_returns Hbyte H01 H02.
  destruct (WidevineDeviceStruct_parse_returns data c Hparse)
    as (bv & bt & bs & bf & pk & cid & tail & -> & _ & _ & _ & Hty & _).
  cbn in Hbyte. injection Hbyte as ->.
  apply __init___returns in Hinit as (Htype & _).
  assert (Hraw : type self = RawInt (byte_value type_byte)).
  { rewrite Htype, Hty. unfold type_of_parsed.
    rewrite !bool_decide_eq_false_2; [done| |].
    - intros Heq. apply H02, byte_value_inj. by rewrite Heq.
    - intros Heq. apply H01, byte_value_inj. by rewrite Heq. }
  split; [done|]. unfold dumpb. by rewrite Hraw.
Qed.

(** X21: what [dumpb] wrote, [load] reads back.  For a device with a member
    type, a security level that fits a byte, the flag in its dictionary and a
    private key, whose key and client identification come back from their
    own encodings (and likewise the VMP record, when it is not empty),
    loading the dumped blob gives the device again, with the VMP merged into
    the client identification once more when there is one. *)
Theorem dumpb_load_round_trip self member flag rsa c v :
  type self = Member member →
  0 ≤ security_level self < 256 →
  flags self = Some {[ "send_key_control_nonce" := flag ]} →
  private_key self = Some rsa →
  RsaKey_export_key_DER rsa ≠ [] →
  len (RsaKey_export_key_DER rsa) < 65536 →
  RSA_importKey (RsaKey_export_key_DER rsa) = Some rsa →
  client_id self = Some c →
  len (ClientIdentification_SerializeToString c) < 65536 →
  ClientIdentification_ParseFromString (ClientIdentification_SerializeToString c)
  = Some c →
  vmp self = Some v →
  len (FileHashes_SerializeToString v) < 65536 →
  (FileHashes_SerializeToString v ≠ [] →
   FileHashes_ParseFromString (FileHashes_SerializeToString v) = Some v) →
  let has_vmp := nonempty (FileHashes_SerializeToString v) in
  let c' := if has_vmp then ClientIdentification_FileHashes_CopyFrom c v else c in
  (blob ← dumpb self; load blob)
  = Returns {| type := Member member;
               security_level := security_level self;
               flags := Some {[ "send_key_control_nonce" := flag ]};
               private_key := Some rsa;
               client_id := Some c';
               vmp := Some (if has_vmp then v else FileHashes_new);
               system_id := Some (ClientIdentification_SystemId c') |}.
Proof.
  intros Hty Hsl Hflags Hkey Hder Hderlen Himport Hcid Hcidlen Hparse Hvmp Hvlen
    Hvparse has_vmp c'.
  rewrite (dumpb_with_private_key self member flag rsa c v) by done.
  cbn [mbind outcome_bind obind]. unfold load.
  set (ty := match member with CHROME => 1 | ANDROID => 2 end).
  assert (Hty' : 0 ≤ ty < 256) by (unfold ty; destruct member; lia).
  assert (Hmember : type_of_parsed ty = Member member)
    by (unfold type_of_parsed, ty; by destruct member).
  assert (Hne : nonempty (RsaKey_export_key_DER rsa) = true)
    by (by destruct (RsaKey_export_key_DER rsa)).
  assert (Hv0 : 0 ≤ len (FileHashes_SerializeToString v)) by (unfold len; lia).
  unfold c', has_vmp.
  destruct (FileHashes_SerializeToString v) as [|b vs] eqn:Hvs.
  - rewrite (parse_device_blob ty _ flag _ _ _ (Some 0) None); try lia.
    2:{ right; left. by rewrite app_nil_r. }
    cbn [mbind outcome_bind obind wvd_type wvd_security_level wvd_flags
         wvd_private_key wvd_client_id wvd_vmp default].
    unfold __init__. cbn [default]. unfold id.
    rewrite Hne, Himport, Hparse, Hmember. reflexivity.
  - rewrite (parse_device_blob ty _ flag _ _ _ (Some (len (b :: vs))) (Some (b :: vs)));
      try lia.
    2:{ right; right. exists (b :: vs). split; [done|]. split; [|done].
        split; [unfold len; cbn; lia|done]. }
    cbn [mbind outcome_bind obind wvd_type wvd_security_level wvd_flags
         wvd_private_key wvd_client_id wvd_vmp default].
    unfold __init__. cbn [default]. unfold id.
    rewrite Hne, Himport, Hparse, Hmember, Hvparse by done. reflexivity.
Qed.

Lemma obind_raises {A B} (x : outcome A) (k : A → outcome B) :
  (∀ a, ∃ e, k a = Raises e) → ∃ e, obind x k = Raises e.
Proof. intros Hk. destruct x; [apply Hk|by eexists]. Qed.

Lemma Int16ub_build_too_long v :
  65536 ≤ v → Int16ub_build v = Raises (LibraryError "FormatFieldError: struct.pack").
Proof.
  intros Hv. unfold Int16ub_build.
  by rewrite (bool_decide_eq_false_2 (v < 65536)), andb_false_r by lia.
Qed.

(** X22: the two length fields are sixteen bits wide, and [dumpb] does not
    truncate: a device whose DER-encoded private key or whose serialized
    client identification is 65536 bytes or longer cannot be dumped. *)
Theorem dumpb_field_too_long self :
  (∃ rsa, private_key self = Some rsa ∧ 65536 ≤ len (RsaKey_export_key_DER rsa))
  ∨ (∃ c, client_id self = Some c
          ∧ 65536 ≤ len (ClientIdentification_SerializeToString c)) →
  ∃ e, dumpb self = Raises e.
Proof.
  intros Hlong. unfold dumpb, WidevineDeviceStruct_build, mbind, outcome_bind.
  apply obind_raises; intros ty.
  cbn [wvd_version wvd_type wvd_security_level wvd_flags
       wvd_private_key_len wvd_private_key wvd_client_id_len wvd_client_id].
  do 5 (apply obind_raises; intros ?).
  destruct Hlong as [(rsa & Hkey & Hlen)|(c & Hcid & Hlen)].
  - rewrite Hkey. cbn [fmap option_fmap option_map default]. unfold id.
    assert (Hne : nonempty (RsaKey_export_key_DER rsa) = true)
      by (destruct (RsaKey_export_key_DER rsa); [unfold len in Hlen; cbn in Hlen; lia|done]).
    rewrite Hne, (Int16ub_build_too_long (len (RsaKey_export_key_DER rsa))) by done.
    by eexists.
  - do 2 (apply obind_raises; intros ?). rewrite Hcid.
    rewrite (Int16ub_build_too_long (len (ClientIdentification_SerializeToString c)))
      by done.
    by eexists.
Qed.
End LoadedDevice.

(** * Properties of [LocalDevice.from_dir] *)

Section FromDir.
Context `{Cryptodome, Environment, pb2_messages, !pb2_codec, Platform}.
Import LocalDevice.

(** [Types.value] of a member. *)
Definition Types_value (member : Types) : Z :=
  match member with CHROME => 1 | ANDROID => 2 end.

(** What follows the client id in a blob that stores the given VMP file. *)
Definition vmp_tail (vmp : option bytes) : bytes :=
  match vmp with
  | Some (b :: v) => u16 (len (b :: v)) ++ b :: v
  | _ => []
  end.

(** X23: a device directory and a device blob with the same content give
    the same device.  For a configuration object whose [session_id_type]
    names a member of [Types] in any letter case and whose [security_level]
    is an integer that fits a byte, [from_dir] returns (or raises) what
    [load] does on the blob made of that type and level, the truth value of
    [send_key_control_nonce] (when the key is absent: whether
    [session_id_type] is exactly ["android"]) and the three files, a missing
    private-key or VMP file counting as empty. *)
Theorem from_dir_agrees_with_load (d : directory) text cfg ty member sl cid :
  d !! "wv.json" = Some text →
  json_load text = Returns (JObject cfg) →
  cfg !! "session_id_type" = Some (JString ty) →
  getattr_Types (str_upper ty) = Returns member →
  cfg !! "security_level" = Some (JNumber sl) →
  0 ≤ sl < 256 →
  d !! "device_client_id_blob" = Some cid →
  len cid < 65536 →
  len (default [] (d !! "device_private_key")) < 65536 →
  len (default [] (d !! "device_vmp_blob")) < 65536 →
  let flag := json_truthy (default (JBool (bool_decide (ty = "android")))
                             (cfg !! "send_key_control_nonce")) in
  from_dir d
  = (self ← load (device_blob (Types_value member) sl flag
                    (default [] (d !! "device_private_key")) cid
                    (vmp_tail (d !! "device_vmp_blob")));
     Returns (Some self)).
Proof.
  intros Hjson Hload Hty Hmember Hsl Hrange Hcid Hcidlen Hpklen Hvlen flag.
  unfold from_dir, read_file, mbind, outcome_bind. rewrite Hjson, Hcid.
  cbn [of_option obind]. rewrite Hload.
  cbn [obind json_subscript json_get]. rewrite Hty, Hsl.
  cbn [of_option obind json_upper json_eq_str]. rewrite Hmember.
  cbn [obind]. fold flag.
  assert (Hvalue : 0 ≤ Types_value member < 256) by (destruct member; cbn; lia).
  assert (Hparsed : type_of_parsed (Types_value member) = Member member)
    by (by destruct member).
  unfold load.
  destruct (d !! "device_vmp_blob") as [[|b v]|] eqn:Hv; cbn [vmp_tail].
  - rewrite (parse_device_blob _ _ _ _ _ [] None None) by (done || by left).
    cbn [mbind outcome_bind obind wvd_type wvd_security_level wvd_flags
         wvd_private_key wvd_client_id wvd_vmp default]. unfold id.
    rewrite Hparsed. reflexivity.
  - rewrite (parse_device_blob _ _ _ _ _ _ (Some (len (b :: v))) (Some (b :: v))).
    2-5: done.
    2:{ right; right. exists (b :: v). cbn [default] in Hvlen. unfold id in Hvlen.
        split; [done|]. split; [|done]. split; [unfold len; cbn; lia|done]. }
    cbn [mbind outcome_bind obind wvd_type wvd_security_level wvd_flags
         wvd_private_key wvd_client_id wvd_vmp default]. unfold id.
    rewrite Hparsed. reflexivity.
  - rewrite (parse_device_blob _ _ _ _ _ [] None None) by (done || by left).
    cbn [mbind outcome_bind obind wvd_type wvd_security_level wvd_flags
         wvd_private_key wvd_client_id wvd_vmp default]. unfold id.
    rewrite Hparsed. reflexivity.
Qed.

(** The device [from_dir] returned, in terms of the configuration. *)
Lemma from_dir_returns (d : directory) self :
  from_dir d = Returns (Some self) →
  ∃ text cfg session_id_type member sl flag cid,
    d !! "wv.json" = Some text
    ∧ json_load text = Returns (JObject cfg)
    ∧ cfg !! "session_id_type" = Some (JString session_id_type)
    ∧ getattr_Types (str_upper session_id_type) = Returns member
    ∧ cfg !! "security_level" = Some (JNumber sl)
    ∧ flag = json_truthy (default (JBool (bool_decide (session_id_type = "android")))
                            (cfg !! "send_key_control_nonce"))
    ∧ d !! "device_client_id_blob" = Some cid
    ∧ __init__ (Member member) sl (Some {[ "send_key_control_nonce" := flag ]})
        (d !! "device_private_key") cid (d !! "device_vmp_blob")
      = Returns self.
Proof.
  unfold from_dir, read_file, mbind, outcome_bind.
  intros (config & Hconfig & Hrest)%obind_returns.
  apply obind_returns in Hconfig as (text & Htext & Hload).
  apply obind_returns in Hrest as (cid & Hcid & Hrest).
  apply obind_returns in Hrest as (sit & Hsit & Hrest).
  apply obind_returns in Hrest as (name & Hname & Hrest).
  apply obind_returns in Hrest as (member & Hmember & Hrest).
  apply obind_returns in Hrest as (level & Hlevel & Hrest).
  apply obind_returns in Hrest as (sit' & Hsit' & Hrest).
  apply obind_returns in Hrest as (flag & Hflag & Hrest).
  destruct config as [| | | | |cfg]; try done. cbn in Hsit, Hlevel, Hsit', Hflag.
  destruct (cfg !! "session_id_type") as [sit0|] eqn:Hty; [|done].
  cbn in Hsit, Hsit'. injection Hsit as <-. injection Hsit' as <-.
  destruct sit0 as [| | |ty| |]; try done. cbn in Hname. injection Hname as <-.
  destruct (cfg !! "security_level") as [level0|] eqn:Hsl; [|done].
  cbn in Hlevel. injection Hlevel as <-. injection Hflag as <-.
  destruct level0 as [| |sl| | |];
    try (by apply obind_returns in Hrest as (? & _ & [=])).
  apply obind_returns in Hrest as (self' & Hinit & [= <-]).
  eexists text, cfg, ty, member, sl, _, cid.
  split; [by destruct (d !! "wv.json"); simplify_eq/=|]. split; [done|]. split; [done|].
  split; [done|]. split; [done|]. split; [done|].
  split; [by destruct (d !! "device_client_id_blob"); simplify_eq/=|]. done.
Qed.

(** X24: the type of the device goes by [session_id_type] in any letter
    case, the default of the key-control-nonce flag by its exact spelling.
    When the configuration has no [send_key_control_nonce] entry, the
    device sends the nonce exactly when [session_id_type] is the string
    ["android"] in lower case, while its type is the member that the
    upper-cased string names. *)
Theorem from_dir_default_flag (d : directory) self text cfg session_id_type :
  from_dir d = Returns (Some self) →
  d !! "wv.json" = Some text →
  json_load text = Returns (JObject cfg) →
  cfg !! "session_id_type" = Some (JString session_id_type) →
  cfg !! "send_key_control_nonce" = None →
  send_key_control_nonce self = bool_decide (session_id_type = "android")
  ∧ ∃ member, getattr_Types (str_upper session_id_type) = Returns member
              ∧ type self = Member member.
Proof.
  intros Hcall Htext Hload Hty Hflag.
  destruct (from_dir_returns d self Hcall)
    as (text' & cfg' & ty' & member & sl & flag & cid & Htext' & Hload' & Hty'
        & Hmember & _ & -> & _ & Hinit).
  rewrite Htext in Htext'. injection Htext' as <-.
  rewrite Hload in Hload'. injection Hload' as <-.
  rewrite Hty in Hty'. injection Hty' as <-.
  rewrite Hflag in Hinit. cbn [default json_truthy] in Hinit.
  apply __init___returns in Hinit as (Htype & _ & Hflags & _).
  split; [by apply send_key_control_nonce_singleton|]. by exists member.
Qed.

Ltac same_steps :=
  repeat match goal with
         | |- obind ?x _ = obind ?x _ => destruct x; cbn [obind]; [|done]
         end.

(** X25: the configuration and the client id are required, the private
    key and the VMP are not.  Without [wv.json] or without
    [device_client_id_blob] the call raises.  An absent
    [device_private_key] or [device_vmp_blob] is accepted, and is the same
    as a file that is there and empty. *)
Theorem from_dir_files (d : directory) :
  (d !! "wv.json" = None ∨ d !! "device_client_id_blob" = None →
   ∃ e, from_dir d = Raises e)
  ∧ from_dir (delete "device_private_key" d)
    = from_dir (<["device_private_key" := []]> d)
  ∧ from_dir (delete "device_vmp_blob" d) = from_dir (<["device_vmp_blob" := []]> d).
Proof.
  split; [|split]; unfold from_dir, read_file.
  - intros [Hjson|Hcid].
    + rewrite Hjson. by eexists.
    + rewrite Hcid. unfold mbind, outcome_bind.
      match goal with
      | |- context [obind (obind ?x ?f) _] => destruct (obind x f); by eexists
      end.
  - rewrite (lookup_delete_ne d "device_private_key" "wv.json"),
      (lookup_delete_ne d "device_private_key" "device_client_id_blob"),
      (lookup_delete_ne d "device_private_key" "device_vmp_blob"),
      (lookup_insert_ne d "device_private_key" "wv.json"),
      (lookup_insert_ne d "device_private_key" "device_client_id_blob"),
      (lookup_insert_ne d "device_private_key" "device_vmp_blob") by done.
    rewrite (lookup_delete_eq d "device_private_key"),
      (lookup_insert_eq d "device_private_key").
    unfold mbind, outcome_bind. same_steps.
    match goal with
    | |- match ?level with _ => _ end = _ => destruct level; reflexivity
    end.
  - rewrite (lookup_delete_ne d "device_vmp_blob" "wv.json"),
      (lookup_delete_ne d "device_vmp_blob" "device_client_id_blob"),
      (lookup_delete_ne d "device_vmp_blob" "device_private_key"),
      (lookup_insert_ne d "device_vmp_blob" "wv.json"),
      (lookup_insert_ne d "device_vmp_blob" "device_client_id_blob"),
      (lookup_insert_ne d "device_vmp_blob" "device_private_key") by done.
    rewrite (lookup_delete_eq d "device_vmp_blob"),
      (lookup_insert_eq d "device_vmp_blob").
    unfold mbind, outcome_bind. same_steps.
    match goal with
    | |- match ?level with _ => _ end = _ => destruct level; reflexivity
    end.
Qed.

(** X26: a directory without a private key (no [device_private_key] file,
    or an empty one) gives a device that has no private key: it cannot be
    dumped, and without the delegated signer it cannot build a license
    challenge. *)
Theorem from_dir_without_private_key (d : directory) self :
  from_dir d = Returns (Some self) →
  default [] (d !! "device_private_key") = [] →
  private_key self = None
  ∧ (∃ e, dumpb self = Raises e)
  ∧ (cdmapi_supported = false →
     ∀ w (session : Session),
       get_license_challenge self w session = (Raises MissingSigningCapability, session)).
Proof.
  intros Hcall Hpk.
  destruct (from_dir_returns d self Hcall)
    as (text & cfg & ty & member & sl & flag & cid & _ & _ & _ & _ & _ & _ & _ & Hinit).
  apply __init___returns in Hinit as (_ & _ & _ & Hkey & c0 & c & v & _ & Hc & _).
  rewrite Hpk in Hkey. cbn [nonempty] in Hkey.
  split; [done|]. split; [by apply dumpb_without_private_key|].
  intros Hapi w session. unfold get_license_challenge.
  by rewrite Hc, Hkey, Hapi.
Qed.
End FromDir.

(** * Properties of [RemoteDevice] *)

Section RemoteDeviceProperties.
Context `{Environment, Platform}.
Import RemoteDevice.

Lemma rbind_done {A B} (x : remote_outcome A) (k : A → remote_outcome B) b :
  rbind x k = Done b → ∃ a, x = Done a ∧ k a = Done b.
Proof. destruct x as [a| |]; [by exists a|done|done]. Qed.

Lemma of_outcome_done {A} (x : outcome A) a : of_outcome x = Done a → x = Returns a.
Proof. destruct x; [by intros [= ->]|done]. Qed.

(** X27: [session] returns exactly when the API answers with an object
    whose [status_code] is 200 and that has a [message], which is the result.
    An answer with another status code and a message gives the API error
    with both.  Everything else escapes as another exception: a failing
    request, an answer that is not an object, and an answer without
    [status_code] or without [message] (composing the error text looks both
    up). *)
Theorem session_outcome (self : t) method params :
  match session self method params with
  | Done message =>
      ∃ o, requests_post_json (host self) (request self method params) = Returns (JObject o)
           ∧ o !! "status_code" = Some (JNumber 200)
           ∧ o !! "message" = Some message
  | ApiError status_code message =>
      ∃ o, requests_post_json (host self) (request self method params) = Returns (JObject o)
           ∧ o !! "status_code" = Some status_code
           ∧ status_code ≠ JNumber 200
           ∧ o !! "message" = Some message
  | Escapes e =>
      requests_post_json (host self) (request self method params) = Raises e
      ∨ (∃ res, requests_post_json (host self) (request self method params) = Returns res
                ∧ ∀ o, res ≠ JObject o)
      ∨ (∃ o, requests_post_json (host self) (request self method params) = Returns (JObject o)
              ∧ (o !! "status_code" = None ∨ o !! "message" = None))
  end.
Proof.
  unfold session, mbind, remote_bind. fold (request self method params).
  destruct (requests_post_json (host self) (request self method params)) as [res|e]; cbn;
    [|by left].
  destruct res as [| | | | |o]; cbn; try (right; left; by eexists).
  destruct (o !! "status_code") as [status_code|] eqn:Hstatus; cbn.
  - destruct (o !! "message") as [message|] eqn:Hmessage.
    + destruct status_code as [| |n| | |]; cbn;
        try (exists o; by repeat split).
      case_bool_decide as Hn; cbn; exists o; [by subst|].
      repeat split; try done. by intros [= ->].
    + destruct status_code as [| |n| | |]; cbn;
        try (right; right; exists o; by auto).
      case_bool_decide; cbn; right; right; exists o; by auto.
  - destruct (o !! "message"); cbn; right; right; exists o; by auto.
Qed.

Lemma new_keys_done (self : t) license_res l :
  new_keys self license_res = Done l →
  ∃ res entries,
    session self "GetKeys" (keys_params self license_res) = Done res
    ∧ (keys ← json_subscript res "keys"; iterate keys) = Returns entries
    ∧ comprehension key_of_entry entries = Returns l.
Proof.
  unfold new_keys, mbind at 1 2, remote_bind.
  intros (res & Hres & Hnew)%rbind_done.
  apply rbind_done in Hnew as (entries & Hentries%of_outcome_done & Hl%of_outcome_done).
  by exists res, entries.
Qed.

(** X28: [parse_license] changes [session.keys] in one step or not at
    all.  The list of new keys is built in full before it is appended: when
    the call ends with an exception (an error of the API, a missing field, an
    entry that is not hexadecimal) the session is as before, however many
    entries came before the bad one; when it returns, the result is [True]
    and the session differs by the keys appended, one per entry of the
    answer. *)
Theorem parse_license_all_or_nothing (self : t) license_res (s : Session) :
  match parse_license self license_res s with
  | (Done result, s') =>
      result = true
      ∧ ∃ res entries l,
          session self "GetKeys" (keys_params self license_res) = Done res
          ∧ (keys ← json_subscript res "keys"; iterate keys) = Returns entries
          ∧ comprehension key_of_entry entries = Returns l
          ∧ length l = length entries
          ∧ s' = keys_extend l s
  | (_, s') => s' = s
  end.
Proof.
  unfold parse_license.
  destruct (new_keys self license_res) as [l| |] eqn:Hnew; [|done|done].
  split; [done|].
  destruct (new_keys_done _ _ _ Hnew) as (res & entries & Hres & Hentries & Hl).
  exists res, entries, l. repeat split; try done.
  by eapply comprehension_length.
Qed.

(** What one key is, in terms of its entry. *)
Definition key_of_api_entry (entry : json) (k : Key) : Prop :=
  ∃ o kid_text key_text,
    entry = JObject o
    ∧ o !! "kid" = Some (JString kid_text)
    ∧ bytes_fromhex kid_text = Some (kid k)
    ∧ key_type k = default (JString "CONTENT") (o !! "type")
    ∧ o !! "key" = Some (JString key_text)
    ∧ bytes_fromhex key_text = Some (key k).

Lemma fromhex_field_returns x name v :
  fromhex_field x name = Returns v →
  ∃ o text, x = JObject o ∧ o !! name = Some (JString text)
            ∧ bytes_fromhex text = Some v.
Proof.
  unfold fromhex_field, mbind, outcome_bind.
  intros (value & Hvalue & Hhex)%obind_returns.
  destruct x as [| | | | |o]; try done. cbn in Hvalue.
  destruct (o !! name) as [value'|] eqn:Hname; [|done]. injection Hvalue as ->.
  destruct value as [| | |text| |]; try done.
  exists o, text. split; [done|]. split; [done|].
  by destruct (bytes_fromhex text); simplify_eq/=.
Qed.

Lemma key_of_entry_returns entry k :
  key_of_entry entry = Returns k → key_of_api_entry entry k.
Proof.
  unfold key_of_entry, mbind, outcome_bind.
  intros (kid0 & Hkid & Hrest)%obind_returns.
  apply obind_returns in Hrest as (ty & Hty & Hrest).
  apply obind_returns in Hrest as (key0 & Hkey & [= <-]).
  apply fromhex_field_returns in Hkid as (o & kid_text & -> & Hkid & Hkidhex).
  apply fromhex_field_returns in Hkey as (o' & key_text & [= <-] & Hkey & Hkeyhex).
  cbn in Hty. injection Hty as <-.
  by exists o, kid_text, key_text.
Qed.

Lemma comprehension_key_of_entry entries : ∀ l,
  comprehension key_of_entry entries = Returns l → Forall2 key_of_api_entry entries l.
Proof.
  induction entries as [|x entries IH]; intros l; cbn.
  - intros [= <-]. constructor.
  - intros (k & Hk & Hrest)%obind_returns.
    apply obind_returns in Hrest as (l' & Hl' & [= <-]).
    constructor; [by apply key_of_entry_returns|by apply IH].
Qed.

(** X29: the keys a returned [parse_license] appended are, in the order of
    the [keys] list of the answer, one per entry: id and material are the
    bytes that the entry's [kid] and [key] spell in hexadecimal, and the type
    is the entry's [type], or [CONTENT] when the entry has none.  ([keys]
    may also be an empty text or an empty object, which have no entries.) *)
Theorem parse_license_keys (self : t) license_res (s s' : Session) result :
  parse_license self license_res s = (Done result, s') →
  ∃ o value entries l,
    session self "GetKeys" (keys_params self license_res) = Done (JObject o)
    ∧ o !! "keys" = Some value
    ∧ (value = JArray entries
       ∨ entries = [] ∧ (value = JString EmptyString ∨ value = JObject ∅))
    ∧ keys s' = keys s ++ l
    ∧ Forall2 key_of_api_entry entries l.
Proof.
  unfold parse_license.
  destruct (new_keys self license_res) as [l| |] eqn:Hnew; [|done|done].
  intros [= _ <-].
  destruct (new_keys_done _ _ _ Hnew) as (res & entries & Hres & Hentries & Hl).
  unfold mbind, outcome_bind in Hentries.
  apply obind_returns in Hentries as (value & Hvalue & Hiter).
  destruct res as [| | | | |o]; try done. cbn in Hvalue.
  destruct (o !! "keys") as [value'|] eqn:Hkeys; [|done]. injection Hvalue as ->.
  exists o, value, entries, l.
  split; [done|]. split; [done|].
  split; [|split; [done|by apply comprehension_key_of_entry]].
  destruct value as [| | |text|entries'|o']; try done; cbn in Hiter.
  - case_bool_decide as Hempty; [|done]. injection Hiter as <-. subst text.
    right. by auto.
  - injection Hiter as ->. by left.
  - case_bool_decide as Hempty; [|done]. injection Hiter as <-. subst o'.
    right. by auto.
Qed.

(** X30: [get_license_challenge] stores the session id of the answer on
    the device before it looks at the challenge.  Either the call did not
    get an answer with a [session_id] (then it did not return and the device
    is as before), or [api_session_id] is that session id and the result is
    what looking up and decoding the [challenge] gives, an exception
    included. *)
Theorem get_license_challenge_api_session_id (self : t) (s : Session) :
  match get_license_challenge self s with
  | (result, self') =>
      (self' = self ∧ ∀ challenge, result ≠ Done challenge)
      ∨ ∃ init res session_id,
          pssh_text s = Done init
          ∧ session self "GetChallenge" (challenge_params self s init) = Done res
          ∧ json_subscript res "session_id" = Returns session_id
          ∧ self' = set_api_session_id session_id self
          ∧ result = (challenge ← of_outcome (json_subscript res "challenge");
                      of_outcome (json_b64decode challenge))
  end.
Proof.
  unfold get_license_challenge, mbind at 1, remote_bind.
  destruct (pssh_text s) as [init| |] eqn:Hinit; cbn [rbind]; try (by left).
  destruct (session self "GetChallenge" (challenge_params self s init))
    as [res| |] eqn:Hres; try (by left).
  destruct (json_subscript res "session_id") as [session_id|] eqn:Hid;
    [|by left].
  right. by exists init, res, session_id.
Qed.
End RemoteDeviceProperties.

(** * Further concrete inputs *)

Module Inputs.
Import Sample LocalDevice Scenario.

(** A response whose second container has an IV of the wrong length. *)
Definition broken_container : bytes :=
  field (lit "kid-2") ++ field (lit "short-iv")
  ++ field (AES_CBC_encrypt enc_key iv (pad operator_key 16))
  ++ field (lit "CONTENT").

Definition partial_msg : bytes :=
  field content_container ++ field broken_container ++ field operator_container.

Definition partial_response : bytes :=
  field partial_msg
  ++ field (HMAC_SHA256 auth_1_key partial_msg)
  ++ field wrapped_session_key.

(** A response whose session key unwraps to three bytes. *)
Definition short_key_response : bytes :=
  field license_msg
  ++ field (HMAC_SHA256 auth_1_key license_msg)
  ++ field (x00 :: stream_xor [x30; x82; x04; xa4] [] (lit "abc")).

(** The session before the service certificate was applied. *)
Definition plain_session : Session :=
  {| session_id := lit "session-2";
     session_cenc_header := PsshMessage (lit "pssh");
     raw := false; offline := true; privacy_mode := false;
     signed_device_certificate := None;
     license_request := None; signed_license := None;
     session_key := None; derived_keys := ∅; keys := [] |}.

(** Blobs that differ from [keyed_blob] in the version byte and in the
    upper bits of the flags byte, and one with type byte 9. *)
Definition odd_blob : bytes :=
  lit "WVD" ++ [x07; x01; x03; xfe; x00; x04; x30; x82; x04; xa4; x00; x03]
  ++ lit "cid".
Definition plain_blob : bytes :=
  lit "WVD" ++ [x01; x01; x03; x00; x00; x04; x30; x82; x04; xa4; x00; x03]
  ++ lit "cid".
Definition unknown_type_blob : bytes :=
  lit "WVD" ++ [x01; x09; x03; x00; x00; x04; x30; x82; x04; xa4; x00; x03]
  ++ lit "cid".

(** A device whose client identification is too long for the blob. *)
Definition oversized_device : LocalDevice.t :=
  {| type := Member CHROME;
     security_level := 3;
     flags := Some {[ "send_key_control_nonce" := false ]};
     private_key := Some [x30; x82; x04; xa4];
     client_id := Some (replicate (Z.to_nat 65536) x00);
     vmp := Some [];
     system_id := Some 0 |}.

(** ** A device directory *)

(** ASCII upper case, for [str.upper] on ASCII text. *)
Definition ascii_upper (c : byte) : byte :=
  let n := Byte.to_N c in
  if (97 <=? n)%N && (n <=? 122)%N then byte_of_N (n - 32) else c.
Definition upper (s : string) : string :=
  String.string_of_list_byte (ascii_upper <$> String.list_byte_of_string s).

(** Two configuration texts, and [json.load] on them.
    [{"session_id_type": "Android", "security_level": 1}] and
    [{"session_id_type": "chrome", "security_level": 3,
      "send_key_control_nonce": true}]. *)
Definition quoted (s : string) : bytes := [x22] ++ lit s ++ [x22].

Definition android_config_text : bytes :=
  lit "{" ++ quoted "session_id_type" ++ lit ": " ++ quoted "Android"
  ++ lit ", " ++ quoted "security_level" ++ lit ": 1}".

Definition chrome_config_text : bytes :=
  lit "{" ++ quoted "session_id_type" ++ lit ": " ++ quoted "chrome"
  ++ lit ", " ++ quoted "security_level" ++ lit ": 3, "
  ++ quoted "send_key_control_nonce" ++ lit ": true}".

Definition android_config : gmap string json :=
  {[ "session_id_type" := JString "Android"; "security_level" := JNumber 1 ]}.

Definition chrome_config : gmap string json :=
  {[ "session_id_type" := JString "chrome"; "security_level" := JNumber 3;
     "send_key_control_nonce" := JBool true ]}.

Definition load_config (text : bytes) : outcome json :=
  if bool_decide (text = android_config_text) then Returns (JObject android_config)
  else if bool_decide (text = chrome_config_text) then Returns (JObject chrome_config)
  else Raises (LibraryError "json.JSONDecodeError").

(** A directory with all four files, and one with the two required ones. *)
Definition chrome_directory : directory :=
  {[ "wv.json" := chrome_config_text;
     "device_private_key" := [x30; x82; x04; xa4];
     "device_client_id_blob" := lit "cid";
     "device_vmp_blob" := lit "hashes" ]}.

Definition android_directory : directory :=
  {[ "wv.json" := android_config_text;
     "device_client_id_blob" := lit "cid" ]}.

Definition android_directory_device : LocalDevice.t :=
  {| type := Member ANDROID;
     security_level := 1;
     flags := Some {[ "send_key_control_nonce" := false ]};
     private_key := None;
     client_id := Some (lit "cid");
     vmp := Some [];
     system_id := Some 3 |}.

(** ** A key-exchange service *)

(** Hexadecimal text, two digits per byte. *)
Definition hex_value (c : byte) : option N :=
  let n := Byte.to_N c in
  if (48 <=? n)%N && (n <=? 57)%N then Some (n - 48)%N
  else if (97 <=? n)%N && (n <=? 102)%N then Some (n - 87)%N
  else if (65 <=? n)%N && (n <=? 70)%N then Some (n - 55)%N
  else None.

Fixpoint hex_pairs (x : bytes) : option bytes :=
  match x with
  | [] => Some []
  | c0 :: c1 :: x' =>
      v0 ← hex_value c0; v1 ← hex_value c1; rest ← hex_pairs x';
      Some (byte_of_N (v0 * 16 + v1) :: rest)
  | _ => None
  end.

Definition fromhex (s : string) : option bytes := hex_pairs (lit s).

(** Base64 text of a byte string. *)
Definition b64_char (v : N) : byte :=
  byte_of_N (if (v <? 26)%N then v + 65
             else if (v <? 52)%N then v + 71
             else if (v <? 62)%N then v - 4
             else if (v =? 62)%N then 43 else 47).

Fixpoint b64_encode (x : bytes) : bytes :=
  match x with
  | [] => []
  | [a] =>
      let a := Byte.to_N a in
      [b64_char (a / 4); b64_char (a mod 4 * 16); x3d; x3d]
  | [a; b] =>
      let a := Byte.to_N a in
      let b := Byte.to_N b in
      [b64_char (a / 4); b64_char (a mod 4 * 16 + b / 16);
       b64_char (b mod 16 * 4); x3d]
  | a :: b :: c :: x' =>
      let a := Byte.to_N a in
      let b := Byte.to_N b in
      let c := Byte.to_N c in
      [b64_char (a / 4); b64_char (a mod 4 * 16 + b / 16);
       b64_char (b mod 16 * 4 + c / 64); b64_char (c mod 64)]
      ++ b64_encode x'
  end.

Definition b64_text (x : bytes) : string := String.string_of_list_byte (b64_encode x).

(** What the service answers: a challenge with a session id, and two keys
    for that session id. *)
Definition method_of (body : json) : option json :=
  match body with
  | JObject o => o !! "method"
  | _ => None
  end.

Definition challenge_answer : json :=
  JObject {[ "status_code" := JNumber 200;
             "message" := JObject {[ "session_id" := JString "api-session-1";
                                     "challenge" := JString "aGVsbG8=" ]} ]}.

Definition keys_answer : json :=
  JObject {[ "status_code" := JNumber 200;
             "message" :=
               JObject {[ "keys" :=
                 JArray [ JObject {[ "kid" := JString "00ff";
                                     "key" := JString "0a0b0c" ]};
                          JObject {[ "kid" := JString "01";
                                     "type" := JString "SIGNING";
                                     "key" := JString "ff" ]} ] ]} ]}.

Definition post (host body : json) : outcome json :=
  match method_of body with
  | Some (JString "GetChallenge") => Returns challenge_answer
  | Some (JString "GetKeys") => Returns keys_answer
  | _ => Returns (JObject {[ "status_code" := JNumber 400;
                             "message" := JString "unknown method" ]})
  end.

#[export] Instance platform : Platform := {|
  json_load := load_config;
  str_upper := upper;
  b64encode := b64_text;
  bytes_fromhex := fromhex;
  requests_post_json := post;
  Box := bytes;
  Box_build := Returns;
|}.

Definition remote_device : RemoteDevice.t :=
  {| RemoteDevice.host := JString "https://cdm.example.com/api";
     RemoteDevice.key_attr := JString "token";
     RemoteDevice.device := JString "device-1";
     RemoteDevice.api_session_id := JNull |}.

Definition remote_session : RemoteDevice.Session :=
  {| RemoteDevice.pssh := RemoteDevice.PsshBytes (lit "pssh");
     RemoteDevice.raw := false; RemoteDevice.offline := false;
     RemoteDevice.privacy_mode := false;
     RemoteDevice.signed_device_certificate := JNull;
     RemoteDevice.keys := [] |}.
End Inputs.

(** * The further theorems at concrete inputs *)

Module Witnesses.
Import Sample LocalDevice Scenario Inputs.

Lemma parse_license_repeated_witness :
  ∃ l, keys (parse_license device (Bytes genuine_response) pending_session).2
       = keys pending_session ++ l
    ∧ (parse_license device (Bytes genuine_response)
         (parse_license device (Bytes genuine_response) pending_session).2).1
      = Returns true
    ∧ keys (parse_license device (Bytes genuine_response)
              (parse_license device (Bytes genuine_response) pending_session).2).2
      = keys pending_session ++ l ++ l
    ∧ session_key (parse_license device (Bytes genuine_response)
                     (parse_license device (Bytes genuine_response) pending_session).2).2
      = session_key (parse_license device (Bytes genuine_response) pending_session).2
    ∧ derived_keys (parse_license device (Bytes genuine_response)
                      (parse_license device (Bytes genuine_response) pending_session).2).2
      = derived_keys (parse_license device (Bytes genuine_response) pending_session).2.
Proof.
  apply (parse_license_repeated device (Bytes genuine_response) pending_session).
  reflexivity.
Defined.

Lemma parse_license_stops_at_bad_container_witness :
  (parse_license device (Bytes partial_response) pending_session).1
  = Raises (LibraryError "ValueError: Incorrect IV length")
  ∧ keys (parse_license device (Bytes partial_response) pending_session).2
    = keys pending_session
      ++ [ {| kid := lit "kid-1"; key_type := "CONTENT"; key := content_key;
              permissions := [] |} ].
Proof.
  pose proof (parse_license_stops_at_bad_container device (Bytes partial_response)
                pending_session _ _ _ server_session_key
                [ {| kid := lit "kid-1"; key_type := "CONTENT"; key := content_key;
                     permissions := [] |} ]
                {| kc_Id := lit "kid-2"; kc_Iv := lit "short-iv";
                   kc_Key := AES_CBC_encrypt enc_key iv (pad operator_key 16);
                   kc_Type := "CONTENT";
                   kc_OperatorSessionKeyPermissions := [] |}
                (LibraryError "ValueError: Incorrect IV length")
                eq_refl eq_refl eq_refl eq_refl eq_refl) as Hstops.
  apply Hstops; reflexivity.
Defined.

Lemma parse_license_bad_session_key_witness :
  ∃ session',
    parse_license device (Bytes short_key_response) pending_session
    = (Raises (LibraryError "ValueError: Incorrect AES key length"), session')
    ∧ signed_license session'
      = Some {| sl_Msg := license_msg;
                sl_Signature := HMAC_SHA256 auth_1_key license_msg;
                sl_SessionKey := x00 :: stream_xor [x30; x82; x04; xa4] [] (lit "abc") |}
    ∧ session_key session' = Some (lit "abc")
    ∧ derived_keys session' = derived_keys pending_session
    ∧ keys session' = keys pending_session.
Proof.
  pose proof (parse_license_bad_session_key device (Bytes short_key_response)
                pending_session _ _ _ (lit "abc")
                eq_refl eq_refl eq_refl eq_refl) as Hbad.
  apply Hbad; cbn; lia.
Defined.

Lemma parse_license_recovers_padded_keys_witness :
  ∃ l, parse_license device (Bytes genuine_response) pending_session
       = (Returns true,
          keys_extend l
            (after_derivation
               {| sl_Msg := license_msg;
                  sl_Signature := HMAC_SHA256 auth_1_key license_msg;
                  sl_SessionKey := wrapped_session_key |}
               server_session_key request_msg pending_session))
       ∧ key <$> l = [content_key; operator_key].
Proof.
  pose proof (parse_license_recovers_padded_keys device (Bytes genuine_response)
                pending_session _ _ _ server_session_key [content_key; operator_key]
                eq_refl eq_refl eq_refl eq_refl eq_refl) as Hkeys.
  apply Hkeys; [reflexivity|].
  repeat constructor; reflexivity.
Defined.

Lemma parse_license_after_challenge_witness :
  (parse_license device (Bytes tampered_response) pending_session).1
  ≠ Raises NoPendingRequest.
Proof.
  apply (parse_license_after_challenge device world fresh_session pending_session
           (challenge_of device fresh_session)).
  reflexivity.
Defined.

Lemma get_license_challenge_signature_witness :
  ∃ req,
    license_request pending_session = Some req
    ∧ challenge_of device fresh_session = SignedLicenseRequest_SerializeToString req
    ∧ pss_sign [x30; x82; x04; xa4] (get_random_bytes world 3)
        (SHA1 (LicenseRequest_SerializeToString (slr_Msg req)))
      = Some (slr_Signature req).
Proof.
  apply (get_license_challenge_signature device world fresh_session pending_session
           (challenge_of device fresh_session)).
  reflexivity.
Defined.

Lemma challenge_after_service_certificate_witness :
  (get_license_challenge device world private_session).1 ≠ Raises MissingCertificate
  ∧ ∀ challenge session'',
      get_license_challenge device world private_session
      = (Returns challenge, session'') →
      ∃ data signed_message c req e,
        decode_if_str (Bytes service_certificate) = Returns data
        ∧ SignedMessage_ParseFromString data = Some signed_message
        ∧ SignedDeviceCertificate_ParseFromString (sm_Msg signed_message) = Some c
        ∧ license_request session'' = Some req
        ∧ lr_ClientId (slr_Msg req) = None
        ∧ lr_EncryptedClientId (slr_Msg req) = Some e
        ∧ eci_ServiceId e = dc_ServiceId (sdc_DeviceCertificate c)
        ∧ eci_ServiceCertificateSerialNumber e
          = dc_SerialNumber (sdc_DeviceCertificate c).
Proof.
  apply (challenge_after_service_certificate device world (Bytes service_certificate)
           plain_session private_session true).
  reflexivity.
Defined.

Lemma get_license_challenge_succeeds_witness :
  ∃ req,
    get_license_challenge device world private_session
    = (Returns (SignedLicenseRequest_SerializeToString req),
       set_license_request (Some req) private_session).
Proof.
  apply (get_license_challenge_succeeds device world private_session
           (lit "client-identification") [x30; x82; x04; xa4]);
    [reflexivity|reflexivity|by eexists| |by eexists].
  eexists _, _. split; [reflexivity|]. split; [reflexivity|].
  split; [reflexivity|by eexists].
Defined.

(** The encrypted client identification of the privacy-mode session. *)
Definition sample_encrypted_client_id : EncryptedClientIdentification :=
  {| eci_ServiceId := lit "license.example.com";
     eci_ServiceCertificateSerialNumber := lit "serial-0001";
     eci_EncryptedClientId :=
       AES_CBC_encrypt (get_random_bytes world 0 16%nat)
         (get_random_bytes world 1 16%nat) (pad (lit "client-identification") 16);
     eci_EncryptedClientIdIv := get_random_bytes world 1 16%nat;
     eci_EncryptedPrivacyKey :=
       get_random_bytes world 2 1%nat
       ++ stream_xor [x30; x82; x01; x22] [] (get_random_bytes world 0 16%nat) |}.

Lemma encrypted_client_id_opens_witness :
  length (get_random_bytes world 0 16%nat) = 16%nat
  ∧ length (eci_EncryptedClientIdIv sample_encrypted_client_id) = 16%nat
  ∧ (∃ certificate public_key,
       signed_device_certificate private_session = Some certificate
       ∧ RSA_importKey (dc_PublicKey (sdc_DeviceCertificate certificate))
         = Some public_key
       ∧ PKCS1_OAEP_encrypt public_key (get_random_bytes world 2)
           (get_random_bytes world 0 16%nat)
         = Some (eci_EncryptedPrivacyKey sample_encrypted_client_id))
  ∧ unpad (AES_CBC_decrypt (get_random_bytes world 0 16%nat)
             (eci_EncryptedClientIdIv sample_encrypted_client_id)
             (eci_EncryptedClientId sample_encrypted_client_id)) 16
    = Returns (lit "client-identification").
Proof.
  apply (@encrypted_client_id_opens crypto environment messages codec world
           (lit "client-identification") private_session sample_encrypted_client_id).
  - reflexivity.
  - by vm_compute.
Defined.

Lemma WidevineDeviceStruct_parse_layout_witness :
  ∃ version type security_level flags pk cid tail,
    keyless_blob = lit "WVD" ++ [version; type; security_level; flags]
                   ++ u16 (len pk) ++ pk ++ u16 (len cid) ++ cid ++ tail
    ∧ len pk < 65536 ∧ len cid < 65536
    ∧ len keyless_blob = 11 + len pk + len cid + len tail
    ∧ keyless_container
      = {| wvd_version := byte_value version;
           wvd_type := byte_value type;
           wvd_security_level := byte_value security_level;
           wvd_flags := Some {[ "send_key_control_nonce" := Z.odd (byte_value flags) ]};
           wvd_private_key_len := len pk; wvd_private_key := Some pk;
           wvd_client_id_len := len cid; wvd_client_id := Some cid;
           wvd_vmp_len := wvd_vmp_len keyless_container;
           wvd_vmp := wvd_vmp keyless_container |}.
Proof.
  apply (WidevineDeviceStruct_parse_layout keyless_blob keyless_container).
  reflexivity.
Defined.

Lemma load_attributes_witness :
  ∃ version type_byte level flags_byte pk cid tail,
    keyless_blob = lit "WVD" ++ [version; type_byte; level; flags_byte]
                   ++ u16 (len pk) ++ pk ++ u16 (len cid) ++ cid ++ tail
    ∧ type keyless_device = type_of_parsed (byte_value type_byte)
    ∧ security_level keyless_device = byte_value level
    ∧ send_key_control_nonce keyless_device = Z.odd (byte_value flags_byte)
    ∧ (private_key keyless_device = None ↔ pk = [])
    ∧ (∀ rsa, private_key keyless_device = Some rsa → RSA_importKey pk = Some rsa)
    ∧ ∃ c, client_id keyless_device = Some c
           ∧ system_id keyless_device = Some (ClientIdentification_SystemId c)
           ∧ is_Some (vmp keyless_device)
           ∧ is_Some (ClientIdentification_ParseFromString cid).
Proof.
  apply (load_attributes keyless_blob keyless_device). reflexivity.
Defined.

Lemma loaded_device_guards_witness :
  (get_license_challenge keyless_device world fresh_session).1 ≠ Raises MissingIdentity
  ∧ ((get_license_challenge keyless_device world fresh_session).1
     = Raises MissingSigningCapability
     ↔ private_key keyless_device = None ∧ cdmapi_supported = false).
Proof.
  apply (loaded_device_guards keyless_blob keyless_device world fresh_session).
  reflexivity.
Defined.

Lemma load_ignores_version_and_reserved_bits_witness :
  load odd_blob = load plain_blob.
Proof.
  apply (load_ignores_version_and_reserved_bits x07 x01 x01 x03 xfe x00
           ([x00; x04; x30; x82; x04; xa4; x00; x03] ++ lit "cid")).
  reflexivity.
Defined.

Lemma load_unknown_type_witness :
  type {| type := RawInt 9; security_level := 3;
          flags := Some {[ "send_key_control_nonce" := false ]};
          private_key := Some [x30; x82; x04; xa4];
          client_id := Some (lit "cid"); vmp := Some [];
          system_id := Some 3 |}
  = RawInt (byte_value x09)
  ∧ dumpb {| type := RawInt 9; security_level := 3;
             flags := Some {[ "send_key_control_nonce" := false ]};
             private_key := Some [x30; x82; x04; xa4];
             client_id := Some (lit "cid"); vmp := Some [];
             system_id := Some 3 |}
    = Raises (LibraryError "AttributeError: 'int' object has no attribute 'value'").
Proof.
  apply (load_unknown_type unknown_type_blob); [reflexivity|reflexivity|done|done].
Defined.

Lemma dumpb_load_round_trip_witness :
  (blob ← dumpb device; load blob)
  = Returns {| type := Member CHROME;
               security_level := 3;
               flags := Some {[ "send_key_control_nonce" := false ]};
               private_key := Some [x30; x82; x04; xa4];
               client_id := Some (lit "client-identification");
               vmp := Some [];
               system_id := Some 21 |}.
Proof.
  apply (@dumpb_load_round_trip crypto messages codec device CHROME false
           [x30; x82; x04; xa4] (lit "client-identification") []); done.
Defined.

Lemma dumpb_field_too_long_witness : ∃ e, dumpb oversized_device = Raises e.
Proof.
  apply (dumpb_field_too_long oversized_device). right.
  exists (replicate (Z.to_nat 65536) x00). split; [reflexivity|].
  unfold len. cbn [ClientIdentification_SerializeToString codec].
  rewrite length_replicate. lia.
Defined.

Lemma from_dir_agrees_with_load_witness :
  from_dir chrome_directory
  = (self ← load (device_blob 1 3 true [x30; x82; x04; xa4] (lit "cid")
                    (u16 6 ++ lit "hashes"));
     Returns (Some self)).
Proof.
  apply (from_dir_agrees_with_load chrome_directory chrome_config_text chrome_config
           "chrome" CHROME 3 (lit "cid")); done.
Defined.

Lemma from_dir_default_flag_witness :
  send_key_control_nonce android_directory_device = bool_decide ("Android" = "android")
  ∧ ∃ member, getattr_Types (str_upper "Android") = Returns member
              ∧ type android_directory_device = Member member.
Proof.
  apply (from_dir_default_flag android_directory android_directory_device
           android_config_text android_config "Android"); reflexivity.
Defined.

Lemma from_dir_without_private_key_witness :
  private_key android_directory_device = None
  ∧ (∃ e, dumpb android_directory_device = Raises e)
  ∧ (cdmapi_supported = false →
     ∀ w (session : Session),
       get_license_challenge android_directory_device w session
       = (Raises MissingSigningCapability, session)).
Proof.
  apply (from_dir_without_private_key android_directory android_directory_device);
    reflexivity.
Defined.

Lemma remote_parse_license_keys_witness :
  ∃ o value entries l,
    RemoteDevice.session remote_device "GetKeys"
      (RemoteDevice.keys_params remote_device (Str "aGVsbG8="))
    = RemoteDevice.Done (JObject o)
    ∧ o !! "keys" = Some value
    ∧ (value = JArray entries
       ∨ entries = [] ∧ (value = JString EmptyString ∨ value = JObject ∅))
    ∧ RemoteDevice.keys
        (RemoteDevice.parse_license remote_device (Str "aGVsbG8=") remote_session).2
      = RemoteDevice.keys remote_session ++ l
    ∧ Forall2 key_of_api_entry entries l.
Proof.
  apply (parse_license_keys remote_device (Str "aGVsbG8=") remote_session _ true).
  reflexivity.
Defined.

(** The two keys of the sample answer, and the session id of the sample
    challenge. *)
Example remote_keys :
  RemoteDevice.parse_license remote_device (Str "aGVsbG8=") remote_session
  = (RemoteDevice.Done true,
     RemoteDevice.keys_extend
       [ {| RemoteDevice.kid := [x00; xff]; RemoteDevice.key_type := JString "CONTENT";
            RemoteDevice.key := [x0a; x0b; x0c] |};
         {| RemoteDevice.kid := [x01]; RemoteDevice.key_type := JString "SIGNING";
            RemoteDevice.key := [xff] |} ]
       remote_session).
Proof. reflexivity. Qed.

Example remote_challenge :
  RemoteDevice.get_license_challenge remote_device remote_session
  = (RemoteDevice.Done (lit "hello"),
     RemoteDevice.set_api_session_id (JString "api-session-1") remote_device).
Proof. reflexivity. Qed.
End Witnesses.
